(** * The news ticker's headline pipeline

    A shallow embedding of the [NewsTicker] class: the remote fetch, the
    static text/JSON fallback, the [localStorage] cache and the render step
    that ties them together, followed by the properties of the pipeline.

    Conventions of the embedding.
    - JavaScript values that flow through the pipeline are JSON values
      ([json]); a value that may be [undefined] is an [option json].
    - Numbers are integers (timestamps, counts, lengths) plus [NaN].
    - Strings are ASCII strings: case mapping and white space are the ASCII
      ones.
    - Exceptions are explicit: a computation returns [Ok] or [Throw], and
      always the state it leaves behind.
    - The browser is an oracle ([World]): every call of [fetch], [Date.now]
      or a [localStorage] method consumes one tick of the ticker's event
      counter and is answered by the oracle at that tick.
    - The methods run after [setupTicker]: the DOM handles exist. Of the
      DOM only the children of the ticker list are kept. A logging
      statement is kept where the evaluation of its template can throw
      before a change of state. *)

From Stdlib Require Import ZArith List Ascii String Bool Lia Permutation Sorted.
From stdpp Require Import base gmap strings list.
Import ListNotations.

Local Open Scope Z_scope.
Local Open Scope string_scope.
Set Warnings "-register-all".

(** ** JavaScript values *)

Module JS.

Inductive json : Type :=
| JNull
| JBool (b : bool)
| JNum (n : Z)
| JStr (s : string)
| JArr (items : list json)
| JObj (fields : list (string * json)).

(** The result of an arithmetic expression. *)
Inductive num : Type :=
| Num (z : Z)
| NaN.

Inductive exn : Type :=
| TypeError
| SyntaxError
| NetworkError
| HttpError (status : Z)
| StorageError.

Inductive result (A : Type) : Type :=
| Ok (a : A)
| Throw (e : exn).
Arguments Ok {A} a.
Arguments Throw {A} e.

#[global] Instance result_ret : MRet result := fun A a => Ok a.

#[global] Instance result_bind : MBind result := fun A B k r =>
  match r with
  | Ok a => k a
  | Throw e => Throw e
  end.

(** [Array.prototype.map] with a callback that may throw. *)
Fixpoint mapR {A B} (f : A -> result B) (l : list A) : result (list B) :=
  match l with
  | [] => Ok []
  | x :: rest => y ← f x; ys ← mapR f rest; Ok (y :: ys)
  end.

(** ToBoolean. *)
Definition truthy (v : json) : bool :=
  match v with
  | JNull => false
  | JBool b => b
  | JNum n => negb (n =? 0)%Z
  | JStr s => negb (String.eqb s "")
  | JArr _ | JObj _ => true
  end.

Definition truthy_opt (v : option json) : bool :=
  match v with
  | Some v => truthy v
  | None => false
  end.

(** [a || b] where [b] is defined. *)
Definition or_else (a : option json) (b : json) : json :=
  match a with
  | Some v => if truthy v then v else b
  | None => b
  end.

(** Own property of a parsed object: keys are distinct, the first binding is
    the binding. *)
Fixpoint lookup_field (f : string) (fields : list (string * json)) : option json :=
  match fields with
  | [] => None
  | (k, v) :: rest => if String.eqb k f then Some v else lookup_field f rest
  end.

(** [v.f] for the property names the ticker reads ([source], [title], [url],
    [ts], [text], [headline], [hashtag], [username], [comment], [items],
    [tweets], [headlines], [timestamp], [length]): none of them is inherited
    from a prototype, except [length] of arrays and strings. *)
Definition get (v : json) (f : string) : result (option json) :=
  match v with
  | JNull => Throw TypeError
  | JObj fields => Ok (lookup_field f fields)
  | JArr items =>
      if String.eqb f "length" then Ok (Some (JNum (Z.of_nat (List.length items))))
      else Ok None
  | JStr s =>
      if String.eqb f "length" then Ok (Some (JNum (Z.of_nat (String.length s))))
      else Ok None
  | JBool _ | JNum _ => Ok None
  end.

(** [x === 0]. *)
Definition strict_eq_zero (x : option json) : bool :=
  match x with
  | Some (JNum n) => (n =? 0)%Z
  | _ => false
  end.

(** Conversions of non-primitive values and the number <-> string
    conversions belong to the engine; the ticker's behaviour is stated for
    every engine. *)
Record Platform : Type := {
  (** Number::toString *)
  str_of_num : Z -> string;
  (** StringToNumber *)
  num_of_str : string -> num;
  (** ToString of an array or an object (ToPrimitive, hint string) *)
  str_of_obj : json -> result string;
  (** ToNumber of an array or an object (ToPrimitive, hint number) *)
  num_of_obj : json -> result num;
  (** the method call [v.toString()] on an array or an object *)
  toString_of_obj : json -> result string
}.

Section Coercions.
Context (P : Platform).

(** ToString: template literals, DOM string attributes. *)
Definition ToString (v : option json) : result string :=
  match v with
  | None => Ok "undefined"
  | Some JNull => Ok "null"
  | Some (JBool true) => Ok "true"
  | Some (JBool false) => Ok "false"
  | Some (JNum n) => Ok (str_of_num P n)
  | Some (JStr s) => Ok s
  | Some (JArr l) => str_of_obj P (JArr l)
  | Some (JObj o) => str_of_obj P (JObj o)
  end.

(** ToNumber: operands of [-], [<] and [>]. *)
Definition ToNumber (v : option json) : result num :=
  match v with
  | None => Ok NaN
  | Some JNull => Ok (Num 0)
  | Some (JBool true) => Ok (Num 1)
  | Some (JBool false) => Ok (Num 0)
  | Some (JNum n) => Ok (Num n)
  | Some (JStr s) => Ok (num_of_str P s)
  | Some (JArr l) => num_of_obj P (JArr l)
  | Some (JObj o) => num_of_obj P (JObj o)
  end.

(** [v.toString()] on a truthy value. *)
Definition toString_method (v : json) : result string :=
  match v with
  | JNull => Throw TypeError
  | JBool true => Ok "true"
  | JBool false => Ok "false"
  | JNum n => Ok (str_of_num P n)
  | JStr s => Ok s
  | JArr l => toString_of_obj P (JArr l)
  | JObj o => toString_of_obj P (JObj o)
  end.
End Coercions.

Definition num_sub (a b : num) : num :=
  match a, b with
  | Num x, Num y => Num (x - y)
  | _, _ => NaN
  end.

(** [a < b] on numbers: false as soon as one side is NaN. *)
Definition num_lt (a b : num) : bool :=
  match a, b with
  | Num x, Num y => (x <? y)%Z
  | _, _ => false
  end.

(** [l.slice(0, n)] *)
Definition slice0 {A} (n : Z) (l : list A) : list A :=
  let len := Z.of_nat (List.length l) in
  let k := if (n <? 0)%Z then Z.max (len + n) 0 else Z.min n len in
  firstn (Z.to_nat k) l.

End JS.
Export JS.

(** ** Strings *)

Module Str.

(** White space of [trim] and of the regular expression class [\s]. *)
Definition is_space (c : ascii) : bool :=
  let n := nat_of_ascii c in
  ((9 <=? n) && (n <=? 13))%nat || (n =? 32)%nat.

Definition lower_char (c : ascii) : ascii :=
  let n := nat_of_ascii c in
  if ((65 <=? n) && (n <=? 90))%nat then ascii_of_nat (n + 32) else c.

Definition upper_char (c : ascii) : ascii :=
  let n := nat_of_ascii c in
  if ((97 <=? n) && (n <=? 122))%nat then ascii_of_nat (n - 32) else c.

Fixpoint map_chars (f : ascii -> ascii) (s : string) : string :=
  match s with
  | EmptyString => EmptyString
  | String c r => String (f c) (map_chars f r)
  end.

Definition toLowerCase : string -> string := map_chars lower_char.
Definition toUpperCase : string -> string := map_chars upper_char.

Fixpoint trimStart (s : string) : string :=
  match s with
  | EmptyString => EmptyString
  | String c r => if is_space c then trimStart r else s
  end.

Fixpoint trimEnd (s : string) : string :=
  match s with
  | EmptyString => EmptyString
  | String c r =>
      let r' := trimEnd r in
      if is_space c && String.eqb r' "" then EmptyString else String c r'
  end.

Definition trim (s : string) : string := trimEnd (trimStart s).

Definition startsWith (s p : string) : bool := String.prefix p s.

Fixpoint includes (s sub : string) : bool :=
  String.prefix sub s ||
  match s with
  | EmptyString => false
  | String _ r => includes r sub
  end.

(** [s.split(sep)] for a one-character separator. *)
Fixpoint split (sep : ascii) (s : string) : list string :=
  match s with
  | EmptyString => [EmptyString]
  | String c r =>
      if Ascii.eqb c sep then EmptyString :: split sep r
      else match split sep r with
           | h :: t => String c h :: t
           | [] => [String c EmptyString]
           end
  end.

(** [s.split(/\s+/)]: cut at every maximal run of white space. [in_run]
    records that the previous character already belongs to a run. *)
Fixpoint split_ws_from (in_run : bool) (s : string) : list string :=
  match s with
  | EmptyString => [EmptyString]
  | String c r =>
      if is_space c then
        if in_run then split_ws_from true r
        else EmptyString :: split_ws_from true r
      else match split_ws_from false r with
           | h :: t => String c h :: t
           | [] => [String c EmptyString]
           end
  end.

Definition split_ws (s : string) : list string := split_ws_from false s.

Fixpoint drop_chars (n : nat) (s : string) : string :=
  match n, s with
  | O, _ => s
  | S n, String _ r => drop_chars n r
  | S _, EmptyString => EmptyString
  end.

(** [/\.json(\s|$)/i.test(s)] *)
Fixpoint has_json_token (s : string) : bool :=
  (String.prefix ".json" (toLowerCase s) &&
   match drop_chars 5 s with
   | EmptyString => true
   | String c _ => is_space c
   end) ||
  match s with
  | EmptyString => false
  | String _ r => has_json_token r
  end.

Definition newline : ascii := ascii_of_nat 10.

End Str.

(** ** Services, options and the browser *)

(** The entries of [serviceCycle]; [currentService] is always one of them
    (the constructor's initial [news] included). *)
Inductive service : Type :=
| sports | local | news | weather | tweets | entertainment.

Definition service_name (svc : service) : string :=
  match svc with
  | sports => "sports"
  | local => "local"
  | news => "news"
  | weather => "weather"
  | tweets => "tweets"
  | entertainment => "entertainment"
  end.

Definition service_eqb (a b : service) : bool :=
  String.eqb (service_name a) (service_name b).

(** What is stored under a [localStorage] key, up to [JSON.parse]: the
    serialisation of a JSON value, or a string that is not JSON. That
    [JSON.parse] gives back the value [JSON.stringify] was applied to is
    the engine's property of JSON values, and is built into this type. *)
Inductive text : Type :=
| Text (v : json)
| Junk (s : string).

Definition JSON_stringify (v : json) : text := Text v.

Definition JSON_parse (t : text) : result json :=
  match t with
  | Text v => Ok v
  | Junk _ => Throw SyntaxError
  end.

(** Truthiness of a string returned by [getItem]. *)
Definition text_truthy (t : text) : bool :=
  match t with
  | Text _ => true
  | Junk s => negb (String.eqb s "")
  end.

(** A [Response]: [body_text] is what [text()] resolves to and [body_json]
    what [json()] resolves to; either may reject. *)
Record response : Type := {
  ok : bool;
  status : Z;
  body_text : result string;
  body_json : result json
}.

(** The browser as an oracle, indexed by the event counter. *)
Record World : Type := {
  (** [fetch(url)]: a response, or a rejection *)
  net : nat -> string -> result response;
  (** [Date.now()] *)
  clock : nat -> Z;
  (** whether the [localStorage] call issued at this tick throws *)
  storage_fault : nat -> bool
}.

Record options : Type := {
  endpoint : string;
  maxHeadlines : Z
}.

(** [options.maxHeadlines || 50] and [options.endpoint || default] of the
    constructor. *)
Definition make_options (default_endpoint : string)
    (endpoint_opt : option string) (maxHeadlines_opt : option Z) : options :=
  {| endpoint := match endpoint_opt with
                 | Some e => if String.eqb e "" then default_endpoint else e
                 | None => default_endpoint
                 end;
     maxHeadlines := match maxHeadlines_opt with
                     | Some n => if (n =? 0)%Z then 50 else n
                     | None => 50
                     end |}.

(** A child of [.news-ticker-list], by its text contents and attributes. *)
Record element : Type := {
  news_source : string;
  href : string;
  news_title : string;
  news_time : string;
  data_index : nat;
  data_service : string;
  data_timestamp : string
}.

(** The fields of the ticker object that the pipeline reads or writes,
    the list shown in the DOM, and the browser state it touches. *)
Record state : Type := {
  opts : options;
  headlines : json;
  offlineMode : bool;
  currentService : service;
  lastUpdate : Z;
  currentPosition : Z;
  (** the children of [.news-ticker-list] *)
  tickerList : list element;
  localStorage : gmap string text;
  tick : nat
}.

Definition set_headlines (h : json) (s : state) : state :=
  {| opts := opts s; headlines := h; offlineMode := offlineMode s;
     currentService := currentService s; lastUpdate := lastUpdate s;
     currentPosition := currentPosition s; tickerList := tickerList s;
     localStorage := localStorage s; tick := tick s |}.

Definition set_offlineMode (b : bool) (s : state) : state :=
  {| opts := opts s; headlines := headlines s; offlineMode := b;
     currentService := currentService s; lastUpdate := lastUpdate s;
     currentPosition := currentPosition s; tickerList := tickerList s;
     localStorage := localStorage s; tick := tick s |}.

Definition set_lastUpdate (t : Z) (s : state) : state :=
  {| opts := opts s; headlines := headlines s; offlineMode := offlineMode s;
     currentService := currentService s; lastUpdate := t;
     currentPosition := currentPosition s; tickerList := tickerList s;
     localStorage := localStorage s; tick := tick s |}.

Definition set_currentPosition (x : Z) (s : state) : state :=
  {| opts := opts s; headlines := headlines s; offlineMode := offlineMode s;
     currentService := currentService s; lastUpdate := lastUpdate s;
     currentPosition := x; tickerList := tickerList s;
     localStorage := localStorage s; tick := tick s |}.

Definition set_tickerList (l : list element) (s : state) : state :=
  {| opts := opts s; headlines := headlines s; offlineMode := offlineMode s;
     currentService := currentService s; lastUpdate := lastUpdate s;
     currentPosition := currentPosition s; tickerList := l;
     localStorage := localStorage s; tick := tick s |}.

Definition set_localStorage (m : gmap string text) (s : state) : state :=
  {| opts := opts s; headlines := headlines s; offlineMode := offlineMode s;
     currentService := currentService s; lastUpdate := lastUpdate s;
     currentPosition := currentPosition s; tickerList := tickerList s;
     localStorage := m; tick := tick s |}.

Definition next_tick (s : state) : state :=
  {| opts := opts s; headlines := headlines s; offlineMode := offlineMode s;
     currentService := currentService s; lastUpdate := lastUpdate s;
     currentPosition := currentPosition s; tickerList := tickerList s;
     localStorage := localStorage s; tick := S (tick s) |}.

(** ** Computations: state and exceptions *)

Definition M (A : Type) : Type := state -> result A * state.

#[global] Instance M_ret : MRet M := fun A a s => (Ok a, s).

#[global] Instance M_bind : MBind M := fun A B k m s =>
  match m s with
  | (Ok a, s') => k a s'
  | (Throw e, s') => (Throw e, s')
  end.

Definition throw {A} (e : exn) : M A := fun s => (Throw e, s).

(** [try { m } catch (e) { h e }]: the handler runs in the state the
    exception left behind. *)
Definition try_catch {A} (m : M A) (h : exn -> M A) : M A :=
  fun s =>
    match m s with
    | (Ok a, s') => (Ok a, s')
    | (Throw e, s') => h e s'
    end.

Definition lift {A} (r : result A) : M A := fun s => (r, s).

Definition gets {A} (f : state -> A) : M A := fun s => (Ok (f s), s).

Definition modify (f : state -> state) : M unit := fun s => (Ok tt, f s).

Definition when (b : bool) (m : M unit) : M unit := if b then m else mret tt.

Section Browser.
Context (W : World).

Definition fetch (url : string) : M response :=
  fun s => (net W (tick s) url, next_tick s).

Definition Date_now : M Z :=
  fun s => (Ok (clock W (tick s)), next_tick s).

Definition getItem (key : string) : M (option text) :=
  fun s =>
    if storage_fault W (tick s) then (Throw StorageError, next_tick s)
    else (Ok (localStorage s !! key), next_tick s).

Definition setItem (key : string) (value : text) : M unit :=
  fun s =>
    if storage_fault W (tick s) then (Throw StorageError, next_tick s)
    else (Ok tt, next_tick (set_localStorage (<[key := value]> (localStorage s)) s)).

Definition removeItem (key : string) : M unit :=
  fun s =>
    if storage_fault W (tick s) then (Throw StorageError, next_tick s)
    else (Ok tt, next_tick (set_localStorage (delete key (localStorage s)) s)).
End Browser.

(** ** The ticker *)

Import Str.

(** The outcome of one resolution, as the design names it. The method
    itself returns nothing: the tag records which branch produced the list
    left in [headlines]. *)
Inductive FetchOutcome : Type := Remote | Fallback | Cache | Empty.

Definition cacheKey (svc : service) : string :=
  "news-ticker-cache-" +:+ service_name svc.

(** [{ headlines: ..., timestamp: ... }] *)
Definition cache_entry (hs : json) (timestamp : Z) : json :=
  JObj [("headlines", hs); ("timestamp", JNum timestamp)].

(** The [map] table of [loadFallbackFromTxt]. *)
Definition fallback_file (svc : service) : string :=
  match svc with
  | sports => "news-sports.txt"
  | local => "news-local.txt"
  | news => "news.txt"
  | weather => "news-weather.txt"
  | tweets => "news-tweets.txt"
  | entertainment => "news-entertainment.txt"
  end.

(** [text.split('\n').map(l => l.trim()).filter(l => l && !l.startsWith('#'))] *)
Definition fallback_lines (txt : string) : list string :=
  List.filter (fun l => negb (String.eqb l "") && negb (startsWith l "#"))
    (List.map trim (split newline txt)).

(** [lines.find(<service>-file) || lines.find(json-file) || null] *)
Definition find_directive (svc : service) (lines : list string) : option string :=
  match List.find (fun l => startsWith (toLowerCase l) (service_name svc +:+ "-file")) lines with
  | Some l => Some l
  | None => List.find (fun l => startsWith (toLowerCase l) "json-file") lines
  end.

(** [lines.find(l => /\.json(\s|$)/i.test(l))] *)
Definition find_json_line (lines : list string) : option string :=
  List.find has_json_token lines.

(** The array inside a JSON fallback resource: the value itself, or its
    [items], or its [tweets], or nothing. *)
Definition items_of (data : json) : result (list json) :=
  match data with
  | JArr l => Ok l
  | _ =>
      its ← get data "items";
      match its with
      | Some (JArr l) => Ok l
      | _ =>
          tws ← get data "tweets";
          match tws with
          | Some (JArr l) => Ok l
          | _ => Ok []
          end
      end
  end.

(** Array.prototype.sort is stable; it is modelled as a stable insertion
    sort. For a comparator that is a total preorder this is the result of
    every conforming engine. [c > 0] puts the second argument first. *)
Fixpoint insert_sorted (cmp : json -> json -> result num) (x : json) (l : list json)
    : result (list json) :=
  match l with
  | [] => Ok [x]
  | y :: rest =>
      c ← cmp x y;
      if num_lt (Num 0) c then r ← insert_sorted cmp x rest; Ok (y :: r)
      else Ok (x :: y :: rest)
  end.

Fixpoint sort (cmp : json -> json -> result num) (l : list json) : result (list json) :=
  match l with
  | [] => Ok []
  | x :: rest => r ← sort cmp rest; insert_sorted cmp x r
  end.

Section Ticker.
Context (P : Platform) (W : World).

(** *** The sort of [loadHeadlines] *)

(** [(x.source || '').toLowerCase().includes('plymouth') || ...includes('pafc')] *)
Definition isPlymouth (x : json) : result bool :=
  src ← get x "source";
  match or_else src (JStr "") with
  | JStr s =>
      let l := toLowerCase s in
      Ok (includes l "plymouth" || includes l "pafc")
  | _ => Throw TypeError
  end.

Definition compareHeadlines (svc : service) (a b : json) : result num :=
  prio ← (if service_eqb svc sports then
            aIsPlymouth ← isPlymouth a;
            bIsPlymouth ← isPlymouth b;
            if aIsPlymouth && negb bIsPlymouth then Ok (Some (-1))
            else if negb aIsPlymouth && bIsPlymouth then Ok (Some 1)
            else Ok None
          else Ok None);
  match prio with
  | Some r => Ok (Num r)
  | None =>
      bts ← get b "ts";
      ats ← get a "ts";
      nb ← ToNumber P (Some (or_else bts (JNum 0)));
      na ← ToNumber P (Some (or_else ats (JNum 0)));
      Ok (num_sub nb na)
  end.

(** *** Cache *)

Definition saveToCache : M unit :=
  try_catch
    (svc ← gets currentService;
     hs ← gets headlines;
     now ← Date_now W;
     setItem W (cacheKey svc) (JSON_stringify (cache_entry hs now)))
    (fun _ => mret tt).

(** *** Render *)

Definition timeAgo (diff : num) : string :=
  match diff with
  | Num d =>
      let minutes := d / 60000 in
      let hours := d / 3600000 in
      let days := d / 86400000 in
      if (minutes <? 1)%Z then "now"
      else if (minutes <? 60)%Z then str_of_num P minutes +:+ "m ago"
      else if (hours <? 24)%Z then str_of_num P hours +:+ "h ago"
      else str_of_num P days +:+ "d ago"
  | NaN => "NaNd ago"
  end.

Definition formatTimeAgo (timestamp : option json) : M string :=
  now ← Date_now W;
  t ← lift (ToNumber P timestamp);
  mret (timeAgo (num_sub (Num now) t)).

(** [div.textContent = text; return div.innerHTML]: the text that the
    escaped markup displays. [textContent] takes null and undefined as the
    empty string. *)
Definition sanitizeText (v : option json) : M string :=
  match v with
  | None | Some JNull => mret ""
  | _ => lift (ToString P v)
  end.

(** The callback of [this.headlines.map] in [renderHeadlines]. *)
Definition render_element (index : nat) (headline : json) : M element :=
  src ← lift (get headline "source");
  src_text ← sanitizeText src;
  url ← lift (get headline "url");
  url_text ← lift (ToString P url);
  title ← lift (get headline "title");
  title_text ← sanitizeText title;
  ts ← lift (get headline "ts");
  time_text ← formatTimeAgo ts;
  svc ← gets currentService;
  stamp ← lift (ToString P ts);
  mret {| news_source := src_text; href := url_text; news_title := title_text;
          news_time := time_text; data_index := index;
          data_service := service_name svc; data_timestamp := stamp |}.

Fixpoint render_elements (index : nat) (hs : list json) : M (list element) :=
  match hs with
  | [] => mret []
  | h :: rest =>
      e ← render_element index h;
      es ← render_elements (S index) rest;
      mret (e :: es)
  end.

Definition renderHeadlines : M unit :=
  hs ← gets headlines;
  len ← lift (get hs "length");
  if strict_eq_zero len then mret tt
  else
    _ ← lift (ToString P len);
    modify (set_tickerList []);;
    els ← match hs with
          | JArr items => render_elements 0 items
          | _ => throw TypeError
          end;
    modify (set_tickerList (els ++ els));;
    saveToCache;;
    modify (set_currentPosition 0).

Definition loadFromCache : M unit :=
  try_catch
    (svc ← gets currentService;
     cached ← getItem W (cacheKey svc);
     match cached with
     | Some t =>
         if text_truthy t then
           data ← lift (JSON_parse t);
           now ← Date_now W;
           stamp ← lift (get data "timestamp");
           written ← lift (ToNumber P stamp);
           if num_lt (num_sub (Num now) written) (Num 3600000) then
             hl ← lift (get data "headlines");
             match hl with
             | None => throw TypeError
             | Some v =>
                 len ← lift (get v "length");
                 _ ← lift (ToString P len);
                 modify (set_headlines v);;
                 renderHeadlines
             end
           else removeItem W (cacheKey svc)
         else mret tt
     | None => mret tt
     end)
    (fun _ => mret tt).

(** *** Static fallback *)

(** [!this.headlines || this.headlines.length === 0] *)
Definition headlines_empty : M bool :=
  hs ← gets headlines;
  if negb (truthy hs) then mret true
  else len ← lift (get hs "length"); mret (strict_eq_zero len).

(** [this.headlines && this.headlines.length > 0] *)
Definition headlines_nonempty : M bool :=
  hs ← gets headlines;
  if truthy hs then
    len ← lift (get hs "length");
    n ← lift (ToNumber P len);
    mret (num_lt (Num 0) n)
  else mret false.

(** The two fetches of a JSON resource, site root first, and its body. *)
Definition fetch_json (jsonPath : string) : M json :=
  jsonRes ← fetch W (if startsWith jsonPath "/" then jsonPath else "/" +:+ jsonPath);
  jsonRes ← (if ok jsonRes then mret jsonRes else fetch W jsonPath);
  if ok jsonRes then lift (body_json jsonRes)
  else throw (HttpError (status jsonRes)).

(** [`${item.hashtag || ''} @${item.username || 'user'}: ${item.comment || item.text || ''}`.trim()] *)
Definition tweet_title (item : json) : result string :=
  hashtag ← get item "hashtag";
  h ← ToString P (Some (or_else hashtag (JStr "")));
  username ← get item "username";
  u ← ToString P (Some (or_else username (JStr "user")));
  comment ← get item "comment";
  body ← (if truthy_opt comment then Ok (or_else comment (JStr ""))
          else txt ← get item "text"; Ok (or_else txt (JStr "")));
  b ← ToString P (Some body);
  Ok (trim (h +:+ " @" +:+ u +:+ ": " +:+ b)).

(** [(item.source || this.currentService).toString().toUpperCase()] *)
Definition item_source (svc : service) (item : json) : result json :=
  src ← get item "source";
  s ← toString_method P (or_else src (JStr (service_name svc)));
  Ok (JStr (toUpperCase s)).

(** [mapItemToHeadline] of the directive branch. *)
Definition mapItemToHeadline (svc : service) (now : Z) (item : json) : result json :=
  match svc with
  | tweets =>
      title ← tweet_title item;
      username ← get item "username";
      url ← (if truthy_opt username then
               u ← ToString P username;
               Ok (JStr ("https://twitter.com/" +:+ u))
             else
               url ← get item "url";
               Ok (or_else url (JStr "#")));
      Ok (JObj [("source", JStr "TWITTER"); ("title", JStr title);
                ("url", url); ("ts", JNum now)])
  | _ =>
      source ← item_source svc item;
      title ← get item "title";
      title ← (if truthy_opt title then Ok (or_else title (JStr ""))
               else
                 txt ← get item "text";
                 if truthy_opt txt then Ok (or_else txt (JStr ""))
                 else headline ← get item "headline"; Ok (or_else headline (JStr "")));
      url ← get item "url";
      ts ← get item "ts";
      Ok (JObj [("source", source); ("title", title);
                ("url", or_else url (JStr "#")); ("ts", or_else ts (JNum now))])
  end.

(** [mapItemToHeadline] of the direct [.json] branch. *)
Definition mapItemToHeadline_direct (svc : service) (now : Z) (item : json) : result json :=
  source ← item_source svc item;
  title ← get item "title";
  title ← (if truthy_opt title then Ok (or_else title (JStr ""))
           else t ← tweet_title item; Ok (JStr t));
  url ← get item "url";
  url ← (if truthy_opt url then Ok (or_else url (JStr "#"))
         else
           username ← get item "username";
           if truthy_opt username then
             u ← ToString P username;
             Ok (JStr ("https://twitter.com/" +:+ u))
           else Ok (JStr "#"));
  ts ← get item "ts";
  Ok (JObj [("source", source); ("title", title); ("url", url);
            ("ts", or_else ts (JNum now))]).

(** The callback of [lines.map] in the plain-lines branch. *)
Definition line_headline (svc : service) (now : Z) (line : string) : json :=
  JObj [("source", JStr (toUpperCase (service_name svc))); ("title", JStr line);
        ("url", JStr "#"); ("ts", JNum now)].

(** The right-hand side of [this.headlines = items.slice(0, max).map(f)]
    in either inner [try], from the fetch of the resource on. *)
Definition fallback_headlines (adapter : service -> Z -> json -> result json)
    (jsonPath : string) : M (list json) :=
  data ← fetch_json jsonPath;
  items ← lift (items_of data);
  now ← Date_now W;
  svc ← gets currentService;
  max ← gets (fun s => maxHeadlines (opts s));
  lift (mapR (adapter svc now) (slice0 max items)).

(** Either inner [try]: a throw leaves [headlines] as it was. *)
Definition load_json (adapter : service -> Z -> json -> result json)
    (jsonPath : string) : M unit :=
  try_catch
    (hs ← fallback_headlines adapter jsonPath;
     modify (set_headlines (JArr hs)))
    (fun _ => mret tt).

(** The four fetches of the text resource: backup at the root, backup
    relative, primary at the root, primary relative. *)
Definition fetch_fallback_txt (svc : service) : M response :=
  let file := fallback_file svc in
  let backupFile := "backup-" +:+ file in
  res ← fetch W ("/" +:+ backupFile);
  res ← (if ok res then mret res else fetch W backupFile);
  if ok res then mret res
  else
    res ← fetch W ("/" +:+ file);
    if ok res then mret res else fetch W file.

(** The branch [if (directive) { ... }]: the second token of the
    directive line names the JSON resource. *)
Definition directive_stage (svc : service) (lines : list string) : M unit :=
  match find_directive svc lines with
  | Some directive =>
      match nth_error (split_ws directive) 1 with
      | Some jsonPath =>
          if String.eqb jsonPath "" then mret tt
          else load_json mapItemToHeadline jsonPath
      | None => mret tt
      end
  | None => mret tt
  end.

(** The branch for a line that points directly to a [.json]: its first
    token names the resource. *)
Definition json_line_stage (lines : list string) : M unit :=
  match find_json_line lines with
  | Some jsonLine =>
      match nth_error (split_ws jsonLine) 0 with
      | Some jsonPath => load_json mapItemToHeadline_direct jsonPath
      | None => throw TypeError
      end
  | None => mret tt
  end.

(** The plain-lines branch: every line is a title. *)
Definition plain_lines_stage (svc : service) (lines : list string) : M unit :=
  now ← Date_now W;
  max ← gets (fun s => maxHeadlines (opts s));
  modify (set_headlines (JArr (List.map (line_headline svc now) (slice0 max lines)))).

(** What [loadFallbackFromTxt] does with the lines of the text resource:
    each later branch runs only if [headlines] is still empty. *)
Definition resolve_lines (svc : service) (lines : list string) : M unit :=
  directive_stage svc lines;;
  e ← headlines_empty;
  when e (json_line_stage lines);;
  e ← headlines_empty;
  when e (plain_lines_stage svc lines).

Definition loadFallbackFromTxt : M unit :=
  try_catch
    (svc ← gets currentService;
     res ← fetch_fallback_txt svc;
     if negb (ok res) then throw (HttpError (status res))
     else
       txt ← lift (body_text res);
       resolve_lines svc (fallback_lines txt))
    (fun _ => mret tt).

(** *** The orchestrator *)

(** The endpoint with [?service=<service>], except for [news]. *)
Definition endpoint_of (o : options) (svc : service) : string :=
  if service_eqb svc news then endpoint o
  else endpoint o +:+ "?service=" +:+ service_name svc.

(** The body of the [try] block. *)
Definition load_remote : M FetchOutcome :=
  modify (set_headlines (JArr []));;
  svc ← gets currentService;
  o ← gets opts;
  response ← fetch W (endpoint_of o svc);
  if negb (ok response) then throw (HttpError (status response))
  else
    received ← lift (body_json response);
    len ← lift (get received "length");
    _ ← lift (ToString P len);
    sorted ← match received with
             | JArr items => lift (sort (compareHeadlines svc) items)
             | _ => throw TypeError
             end;
    modify (set_headlines (JArr (slice0 (maxHeadlines o) sorted)));;
    modify (set_offlineMode false);;
    renderHeadlines;;
    now ← Date_now W;
    modify (set_lastUpdate now);;
    mret Remote.

(** Which stage of the [catch] block produced the list: [e] is the test
    that guards [loadFromCache], [ne] the test that guards the render. *)
Definition recovered (e ne : bool) : FetchOutcome :=
  if negb e then Fallback else if ne then Cache else Empty.

(** The body of the [catch] block. *)
Definition recover : M FetchOutcome :=
  modify (set_offlineMode true);;
  modify (set_headlines (JArr []));;
  loadFallbackFromTxt;;
  e ← headlines_empty;
  when e loadFromCache;;
  ne ← headlines_nonempty;
  when ne renderHeadlines;;
  mret (recovered e ne).

Definition loadHeadlines : M FetchOutcome :=
  try_catch load_remote (fun _ => recover).

End Ticker.

(** ** Polling the cache

    Between two reads of the cache other events happen: [advance n] lets
    [n] ticks of the event counter pass. *)

Definition advance (n : nat) (s : state) : state :=
  {| opts := opts s; headlines := headlines s; offlineMode := offlineMode s;
     currentService := currentService s; lastUpdate := lastUpdate s;
     currentPosition := currentPosition s; tickerList := tickerList s;
     localStorage := localStorage s; tick := (n + tick s)%nat |}.

Section Polling.
Context (P : Platform) (W : World).

(** The states after each read of a schedule of reads; [gaps] gives the
    number of events before each read. *)
Fixpoint poll_cache (gaps : list nat) (s : state) : list state :=
  match gaps with
  | [] => []
  | g :: rest =>
      let s' := snd (loadFromCache P W (advance g s)) in
      s' :: poll_cache rest s'
  end.

(** Every read of the schedule happens less than an hour after [last],
    the time of the read before it. The time of a read is the value of
    [Date.now()] in its freshness test. *)
Fixpoint read_hourly (last : Z) (gaps : list nat) (s : state) : Prop :=
  match gaps with
  | [] => True
  | g :: rest =>
      let s0 := advance g s in
      let T' := clock W (S (tick s0)) in
      T' - last < 3600000 /\
      read_hourly T' rest (snd (loadFromCache P W s0))
  end.
End Polling.

(** A value whose conversion to a string or a number is the engine's
    business for primitives only. *)
Definition primitive (v : option json) : bool :=
  match v with
  | Some (JArr _) | Some (JObj _) => false
  | _ => true
  end.

(** The field [f] of [v], undefined if [v] has no properties. *)
Definition field (v : json) (f : string) : option json :=
  match get v f with
  | Ok x => x
  | Throw _ => None
  end.

(** A list item whose four displayed fields are absent or primitive. *)
Definition plain_item (h : json) : bool :=
  match h with
  | JNull => false
  | _ =>
      primitive (field h "source") && primitive (field h "url") &&
      primitive (field h "title") && primitive (field h "ts")
  end.

(** The ticker shows the list [hs] and the entry under [key] holds it. *)
Definition holds (key : string) (hs : list json) (s : state) : Prop :=
  headlines s = JArr hs /\
  exists T, localStorage s !! key = Some (Text (cache_entry (JArr hs) T)).

(** ** Records of the sports feed *)

(** An object whose [source] is absent or a string and whose [ts] is absent
    or a number. *)
Definition feed_record (x : json) : bool :=
  match x with
  | JObj _ =>
      match field x "source" with
      | None | Some (JStr _) => true
      | _ => false
      end &&
      match field x "ts" with
      | None | Some (JNum _) => true
      | _ => false
      end
  | _ => false
  end.

(** The source contains [plymouth] or [pafc], whatever the case. *)
Definition priority (x : json) : bool :=
  match field x "source" with
  | Some (JStr src) =>
      let l := toLowerCase src in
      includes l "plymouth" || includes l "pafc"
  | _ => false
  end.

(** The timestamp, 0 when missing. *)
Definition ts_of (x : json) : Z :=
  match field x "ts" with
  | Some (JNum n) => n
  | _ => 0
  end.

(** [x] may stand before [y]: priority records first, then newest first. *)
Definition before (x y : json) : Prop :=
  (priority y = true -> priority x = true) /\
  (priority x = priority y -> ts_of y <= ts_of x).

(** The comparator on two records, as a number. *)
Definition order (a b : json) : Z :=
  if priority a && negb (priority b) then -1
  else if negb (priority a) && priority b then 1
  else ts_of b - ts_of a.

(** ** Scenarios

    Concrete browsers and tickers on which the pipeline is run. *)

Module Scenario.

(** An engine for the scenarios; none of them depends on how it converts
    numbers, arrays or objects. *)
Definition engine : Platform :=
  {| str_of_num := fun _ => "0";
     num_of_str := fun _ => NaN;
     str_of_obj := fun _ => Ok "[object Object]";
     num_of_obj := fun _ => Ok NaN;
     toString_of_obj := fun _ => Ok "[object Object]" |}.

Definition json_response (v : json) : response :=
  {| ok := true; status := 200; body_text := Throw SyntaxError; body_json := Ok v |}.

Definition text_response (txt : string) : response :=
  {| ok := true; status := 200; body_text := Ok txt; body_json := Throw SyntaxError |}.

(** The ticker after [setupTicker], on the service [svc], with the default
    options and an empty store. *)
Definition fresh_ticker (svc : service) : state :=
  {| opts := make_options "/api/news" None None;
     headlines := JArr [];
     offlineMode := false;
     currentService := svc;
     lastUpdate := 0;
     currentPosition := 0;
     tickerList := [];
     localStorage := ∅;
     tick := 0 |}.

(** A clock that starts at [t0] and advances one millisecond per event. *)
Definition clock_from (t0 : Z) (k : nat) : Z := t0 + Z.of_nat k.

(** No network at all. *)
Definition offline_world : World :=
  {| net := fun _ _ => Throw NetworkError;
     clock := clock_from 1700000000000;
     storage_fault := fun _ => false |}.

Definition tweet_item : json :=
  JObj [("hashtag", JStr "#x"); ("username", JStr "u"); ("comment", JStr "hi")].

(** The headline the tweets adapter makes of [tweet_item] at time [now]. *)
Definition tweet_headline (now : Z) : json :=
  JObj [("source", JStr "TWITTER"); ("title", JStr "#x @u: hi");
        ("url", JStr "https://twitter.com/u"); ("ts", JNum now)].

(** The endpoint is unreachable; the backup text resource of [tweets]
    holds a generic and a service-specific directive; the latter's
    resource is a one-tweet array. *)
Definition tweets_fallback_world : World :=
  {| net := fun _ url =>
       if String.eqb url "/backup-news-tweets.txt" then
         Ok (text_response "# offline tweets
json-file /data/other.json
tweets-file /data/t.json
")
       else if String.eqb url "/data/t.json" then
         Ok (json_response (JArr [tweet_item]))
       else Throw NetworkError;
     clock := clock_from 1700000000000;
     storage_fault := fun _ => false |}.

Definition headline_A : json :=
  JObj [("source", JStr "BBC"); ("title", JStr "A"); ("url", JStr "http://a");
        ("ts", JNum 1000)].

Definition headline_B : json :=
  JObj [("source", JStr "PAFC"); ("title", JStr "B"); ("url", JStr "http://b");
        ("ts", JNum 500)].

(** The endpoint answers the sports request with [[A, B]]. *)
Definition sports_world : World :=
  {| net := fun _ url =>
       if String.eqb url "/api/news?service=sports" then
         Ok (json_response (JArr [headline_A; headline_B]))
       else Throw NetworkError;
     clock := clock_from 1700000000000;
     storage_fault := fun _ => false |}.

(** No network, and a clock that advances ten minutes per event. *)
Definition slow_world : World :=
  {| net := fun _ _ => Throw NetworkError;
     clock := fun k => 600000 * Z.of_nat k;
     storage_fault := fun _ => false |}.

(** A ticker constructed with [maxHeadlines: 1]. *)
Definition capped_ticker (svc : service) : state :=
  {| opts := make_options "/api/news" None (Some 1);
     headlines := JArr [];
     offlineMode := false;
     currentService := svc;
     lastUpdate := 0;
     currentPosition := 0;
     tickerList := [];
     localStorage := ∅;
     tick := 0 |}.

(** The lines of the text resource of [tweets_fallback_world]. *)
Definition tweets_lines : list string :=
  ["json-file /data/other.json"; "tweets-file /data/t.json"].

(** A store whose entry for [svc] holds the list [hs], written at [t]. *)
Definition cached (svc : service) (hs : json) (t : Z) (s : state) : state :=
  set_localStorage (<[cacheKey svc := Text (cache_entry hs t)]> (localStorage s)) s.

End Scenario.

(** ** Relations between states

    [steps R m]: every run of [m], whether it returns or throws, takes a
    state to an [R]-related state. *)

Definition steps (R : relation state) {A} (m : M A) : Prop :=
  forall s r s', m s = (r, s') -> R s s'.

(** [kept f]: the run leaves the component [f] of the state as it was. *)
Definition kept {X} (f : state -> X) : relation state :=
  fun s s' => f s' = f s.

(** [maintains I]: the run preserves the state invariant [I]. *)
Definition maintains (I : state -> Prop) : relation state :=
  fun s s' => I s -> I s'.

(** The event counter never goes back. *)
Definition later : relation state := fun s s' => (tick s <= tick s')%nat.

(** [headlines] is a list, of at most [maxHeadlines] items if
    [maxHeadlines] is not negative. *)
Definition bounded (s : state) : Prop :=
  exists l, headlines s = JArr l /\
    (0 <= maxHeadlines (opts s) -> Z.of_nat (List.length l) <= maxHeadlines (opts s)).

(** [others_kept svc]: a run on the service [svc] stays on it and leaves
    every key of the store but the cache key of [svc] as it was. *)
Definition others_kept (svc : service) : relation state :=
  fun s s' =>
    currentService s = svc ->
    currentService s' = svc /\
    forall key, key <> cacheKey svc -> localStorage s' !! key = localStorage s !! key.

(** [shows_only svc]: a run on the service [svc] stays on it and, if every
    element of the ticker list was rendered for [svc], leaves such a list. *)
Definition rendered_for (svc : service) (s : state) : Prop :=
  Forall (fun e => data_service e = service_name svc) (tickerList s).

Definition shows_only (svc : service) : relation state :=
  fun s s' =>
    currentService s = svc ->
    currentService s' = svc /\ (rendered_for svc s -> rendered_for svc s').

(** No request is answered with an ok status: each is rejected or answered
    with a status outside 200-299. *)
Definition unreachable (W : World) : Prop :=
  forall k url,
    match net W k url with
    | Ok r => ok r = false
    | Throw _ => True
    end.

(** Some character of [s] is white space. *)
Fixpoint has_space (s : string) : bool :=
  match s with
  | EmptyString => false
  | String c r => is_space c || has_space r
  end.

(** The first character of [s] is white space. *)
Definition starts_with_space (s : string) : bool :=
  match s with
  | String c _ => is_space c
  | EmptyString => false
  end.

(** ** The service button

    [setupServiceSelector], [cycleToNextService], [toggleTickerVisibility]
    and [refresh], on the ticker object with the fields and the parts of
    the page they read or write. A resolution started by one of them runs
    to its end before the next event is handled. *)

Definition set_currentService (svc : service) (s : state) : state :=
  {| opts := opts s; headlines := headlines s; offlineMode := offlineMode s;
     currentService := svc; lastUpdate := lastUpdate s;
     currentPosition := currentPosition s; tickerList := tickerList s;
     localStorage := localStorage s; tick := tick s |}.

(** An entry of [serviceCycle]. *)
Record cycle_entry : Type := {
  entry_service : service;
  label : string;
  emoji : string
}.

Definition serviceCycle : list cycle_entry :=
  [ {| entry_service := sports; label := "Sports"; emoji := "⚽" |};
    {| entry_service := local; label := "Local"; emoji := "🏠" |};
    {| entry_service := news; label := "News"; emoji := "📰" |};
    {| entry_service := weather; label := "Weather"; emoji := "🌤️" |};
    {| entry_service := tweets; label := "Tweets"; emoji := "🐦" |};
    {| entry_service := entertainment; label := "Entertainment"; emoji := "🎬" |} ].

(** The button [#news-service-btn], the class [hidden] of
    [.news-ticker-content] and the inline style of
    [.news-ticker-container]. *)
Record selector : Type := {
  textContent : string;
  loading : bool;
  button_border : string;
  hidden : bool;
  background : string;
  border : string
}.

Record widget : Type := {
  core : state;
  currentServiceIndex : nat;
  isLoading : bool;
  page : selector
}.

Definition with_core (s : state) (w : widget) : widget :=
  {| core := s; currentServiceIndex := currentServiceIndex w;
     isLoading := isLoading w; page := page w |}.

(** The button as [setupTicker] creates it, and the fields that
    [setupServiceSelector] assigns. *)
Definition setupServiceSelector (s : state) : widget :=
  {| core := set_currentService sports s;
     currentServiceIndex := 0;
     isLoading := false;
     page := {| textContent := "Sports"; loading := false; button_border := "";
                hidden := false; background := ""; border := "" |} |}.

(** [cycleToNextService] up to the call of [loadHeadlines]: the entry it
    switches to, or nothing if a switch is in progress. *)
Definition cycle_begin (w : widget) : result (option cycle_entry) * widget :=
  if isLoading w then (Ok None, w)
  else
    let index := ((currentServiceIndex w + 1) mod List.length serviceCycle)%nat in
    let w1 :=
      {| core := set_tickerList [] (set_headlines (JArr []) (core w));
         currentServiceIndex := index;
         isLoading := true;
         page := {| textContent := "⏳"; loading := true;
                    button_border := button_border (page w);
                    hidden := hidden (page w);
                    background := background (page w);
                    border := border (page w) |} |} in
    match nth_error serviceCycle index with
    | Some nextService =>
        (Ok (Some nextService),
         with_core (set_currentService (entry_service nextService) (core w1)) w1)
    | None => (Throw TypeError, w1)
    end.

(** The handler given to [finally]; the handler given to [catch] makes the
    same three assignments. *)
Definition cycle_settle (nextService : cycle_entry) (w : widget) : widget :=
  {| core := core w;
     currentServiceIndex := currentServiceIndex w;
     isLoading := false;
     page := {| textContent := label nextService; loading := false;
                button_border := button_border (page w);
                hidden := hidden (page w);
                background := background (page w);
                border := border (page w) |} |}.

Definition toggleTickerVisibility (w : widget) : result unit * widget :=
  if hidden (page w) then
    let shown :=
      {| textContent := textContent (page w); loading := loading (page w);
         button_border := button_border (page w);
         hidden := false; background := ""; border := "" |} in
    match nth_error serviceCycle (currentServiceIndex w) with
    | Some currentService =>
        (Ok tt,
         {| core := core w; currentServiceIndex := currentServiceIndex w;
            isLoading := isLoading w;
            page := {| textContent := label currentService; loading := loading shown;
                       button_border := "";
                       hidden := false; background := ""; border := "" |} |})
    | None =>
        (Throw TypeError,
         {| core := core w; currentServiceIndex := currentServiceIndex w;
            isLoading := isLoading w; page := shown |})
    end
  else
    (Ok tt,
     {| core := core w; currentServiceIndex := currentServiceIndex w;
        isLoading := isLoading w;
        page := {| textContent := "📤"; loading := loading (page w);
                   button_border := "2px solid #8FE04A";
                   hidden := true; background := "transparent"; border := "none" |} |}).

Section Button.
Context (P : Platform) (W : World).

(** The promise of [loadHeadlines] settles, then the [finally] handler
    runs and, after a rejection, the [catch] handler: the method itself
    never raises once the entry is found. *)
Definition cycleToNextService (w : widget) : result unit * widget :=
  match cycle_begin w with
  | (Ok (Some nextService), w1) =>
      let run := loadHeadlines P W (core w1) in
      let w2 := cycle_settle nextService (with_core (snd run) w1) in
      match fst run with
      | Ok _ => (Ok tt, w2)
      | Throw _ => (Ok tt, cycle_settle nextService w2)
      end
  | (Ok None, w1) => (Ok tt, w1)
  | (Throw e, w1) => (Throw e, w1)
  end.

(** The [click] handler; while a switch is in progress it only animates
    the button. *)
Definition on_click (w : widget) : result unit * widget :=
  if isLoading w then (Ok tt, w)
  else if hidden (page w) then toggleTickerVisibility w
  else cycleToNextService w.

(** The [dblclick] handler. *)
Definition on_dblclick (w : widget) : result unit * widget :=
  if negb (isLoading w) then toggleTickerVisibility w else (Ok tt, w).

(** [refresh]; the result is how the promise of [loadHeadlines], which
    nobody awaits, settles. *)
Definition refresh (w : widget) : result FetchOutcome * widget :=
  let s0 := set_tickerList [] (set_headlines (JArr []) (core w)) in
  let run := loadHeadlines P W s0 in
  (fst run, with_core (snd run) w).

(** The periodic call of [loadHeadlines] that [init] schedules. *)
Definition reload (w : widget) : result FetchOutcome * widget :=
  let run := loadHeadlines P W (core w) in
  (fst run, with_core (snd run) w).

(** What happens to the ticker after [setupTicker]. *)
Inductive event : Type := Click | DblClick | Refresh | Reload.

Definition handle (ev : event) (w : widget) : widget :=
  match ev with
  | Click => snd (on_click w)
  | DblClick => snd (on_dblclick w)
  | Refresh => snd (refresh w)
  | Reload => snd (reload w)
  end.

Definition handle_all (evs : list event) (w : widget) : widget :=
  fold_left (fun w ev => handle ev w) evs w.

(** [n] switches, one after the other. *)
Fixpoint cycles (n : nat) (w : widget) : widget :=
  match n with
  | O => w
  | S n => cycles n (snd (cycleToNextService w))
  end.
End Button.

(** The button and the ticker agree: the index names an entry of the
    cycle, whose service is the current one; no switch is in progress; the
    button shows the label of the entry, or the outbox while the ticker is
    hidden; every element shown was rendered for the current service. *)
Definition settled (w : widget) : Prop :=
  exists e,
    nth_error serviceCycle (currentServiceIndex w) = Some e /\
    entry_service e = currentService (core w) /\
    isLoading w = false /\
    textContent (page w) = (if hidden (page w) then "📤" else label e) /\
    rendered_for (currentService (core w)) (core w).

(** ** The video glue file

    The rate-limited logger of [video.js] and [forceCloseVideo]. The
    closure variables of the logger are the state [log_state]; [Date.now()]
    is an argument of the functions that read it. *)

Module Video.

Inductive level : Type := ERROR | WARN | INFO | DEBUG.

Definition LOG_LEVELS (lv : level) : Z :=
  match lv with
  | ERROR => 0
  | WARN => 1
  | INFO => 2
  | DEBUG => 3
  end.

(** Assigned once, never changed. *)
Definition currentLogLevel : Z := LOG_LEVELS WARN.
Definition MAX_LOGS_PER_SECOND : Z := 2.
Definition MIN_LOG_INTERVAL : Z := 200.

(** A call of the [console] method of a level ([error], [warn], [info],
    [log]) with a message; [at_time] is the value of [now] in the call of
    [log] that made it. *)
Record console_call : Type := {
  call_level : level;
  at_time : Z;
  message : string
}.

(** [logCount], [lastLogTime] and the calls of [console] made so far, the
    latest first. *)
Record log_state : Type := {
  logCount : Z;
  lastLogTime : Z;
  console : list console_call
}.

Definition log (now : Z) (lv : level) (msg : string) (g : log_state) : log_state :=
  if (LOG_LEVELS lv <=? currentLogLevel)%Z &&
     (logCount g <? MAX_LOGS_PER_SECOND)%Z &&
     (now - lastLogTime g >=? MIN_LOG_INTERVAL)%Z
  then {| logCount := logCount g + 1;
          lastLogTime := now;
          console := {| call_level := lv; at_time := now; message := msg |}
                       :: console g |}
  else g.

(** The callback of [setInterval(..., 1000)]. *)
Definition reset_count (g : log_state) : log_state :=
  {| logCount := 0; lastLogTime := lastLogTime g; console := console g |}.

Definition logger_error (now : Z) (msg : string) : log_state -> log_state :=
  log now ERROR msg.
Definition logger_warn (now : Z) (msg : string) : log_state -> log_state :=
  log now WARN msg.
Definition logger_info (now : Z) (msg : string) : log_state -> log_state :=
  log now INFO msg.
Definition logger_debug (now : Z) (msg : string) : log_state -> log_state :=
  log now DEBUG msg.

(** The variables when the file has been loaded, before its last line. *)
Definition loaded : log_state :=
  {| logCount := 0; lastLogTime := 0; console := [] |}.

(** What happens to the logger: a call of [log], or the interval
    callback. *)
Inductive log_event : Type :=
| Call (now : Z) (lv : level) (msg : string)
| Second.

Definition log_step (g : log_state) (ev : log_event) : log_state :=
  match ev with
  | Call now lv msg => log now lv msg g
  | Second => reset_count g
  end.

Definition log_run (evs : list log_event) (g : log_state) : log_state :=
  fold_left log_step evs g.


(** The events that are not calls at the levels [INFO] and [DEBUG]. *)
Definition audible (ev : log_event) : bool :=
  match ev with
  | Call _ INFO _ | Call _ DEBUG _ => false
  | _ => true
  end.

(** Each call was made at least [MIN_LOG_INTERVAL] after the one before. *)
Fixpoint apart (calls : list console_call) : Prop :=
  match calls with
  | c1 :: rest =>
      match rest with
      | c2 :: _ => MIN_LOG_INTERVAL <= at_time c1 - at_time c2
      | [] => True
      end /\ apart rest
  | [] => True
  end.

(** The inline style of an element, by property. *)
Abbreviation style := (gmap string string).

(** The elements of the page by id, the two flags and the global
    [window.videoPlayerFirstOpen], which may be undefined. *)
Record document : Type := {
  getElementById : gmap string style;
  videoIsPlaying : bool;
  videoPlaylistVisible : bool;
  videoPlayerFirstOpen : option json;
  videoLogger : log_state
}.

(** The three assignments to [element.style]. *)
Definition close_style (st : style) : style :=
  <["zIndex" := "-1"]> (<["pointerEvents" := "none"]> (<["display" := "none"]> st)).

(** The callback of [elements.forEach]. *)
Definition close_element (dom : gmap string style) (id : string) : gmap string style :=
  match dom !! id with
  | Some st => <[id := close_style st]> dom
  | None => dom
  end.

Definition video_elements : list string :=
  ["videoPlayer"; "videoControls"; "videoPlaylist"; "videoIframe"].

Definition forceCloseVideo (now : Z) (d : document) : document :=
  {| videoLogger := logger_info now "🚨 Force closing Video" (videoLogger d);
     getElementById := fold_left close_element video_elements (getElementById d);
     videoIsPlaying := false;
     videoPlaylistVisible := false;
     videoPlayerFirstOpen :=
       match videoPlayerFirstOpen d with
       | Some _ => Some (JBool true)
       | None => None
       end |}.

End Video.

(** ** More scenarios *)

Module Examples.
Import Scenario.

(** The endpoint answers the request of [news] with the empty array. *)
Definition empty_feed_world : World :=
  {| net := fun _ url =>
       if String.eqb url "/api/news" then Ok (json_response (JArr []))
       else Throw NetworkError;
     clock := clock_from 1700000000000;
     storage_fault := fun _ => false |}.

(** A text resource without directives. *)
Definition local_text : string :=
  "# local news
  Road closed  

Market open
".


(** The text resource of [tweets_fallback_world]. *)
Definition tweets_text : string :=
  "# offline tweets
json-file /data/other.json
tweets-file /data/t.json
".

(** A headline with a title only. *)
Definition bare_headline : json := JObj [("title", JStr "t")].

(** A ticker whose entry for [svc] is the text [t]. *)
Definition stored (svc : service) (t : text) (s : state) : state :=
  set_localStorage (<[cacheKey svc := t]> (localStorage s)) s.

(** The ticker after [setupTicker], on a page without a network. *)
Definition fresh_widget : widget := setupServiceSelector (fresh_ticker news).


End Examples.

(** ** The element of a headline

    The callback of [this.headlines.map] in [renderHeadlines] as a function
    of the headline, its position, the current service and the value that
    [Date.now()] has in [formatTimeAgo]. *)



(** * Properties *)

(** ** The string functions on examples *)

Example split_ws_directive :
  split_ws "tweets-file /data/t.json" = ["tweets-file"; "/data/t.json"].
Proof. reflexivity. Qed.

Example split_ws_edges : split_ws " a  b " = [""; "a"; "b"; ""].
Proof. reflexivity. Qed.

Example has_json_token_end : has_json_token "data/feed.JSON" = true.
Proof. reflexivity. Qed.

Example has_json_token_inner : has_json_token "feed.json extra" = true.
Proof. reflexivity. Qed.

Example has_json_token_longer : has_json_token "feed.jsonl" = false.
Proof. reflexivity. Qed.

Example fallback_lines_example :
  fallback_lines "# offline tweets
json-file /data/other.json

  tweets-file /data/t.json  
" = Scenario.tweets_lines.
Proof. reflexivity. Qed.

Example slice0_examples :
  slice0 2 [1; 2; 3] = [1; 2] /\ slice0 5 [1; 2; 3] = [1; 2; 3] /\
  slice0 (-1) [1; 2; 3] = [1; 2].
Proof. repeat split. Qed.

(** ** Frame reasoning *)

Section Steps.
Context (R : relation state) `{!PreOrder R}.

Lemma steps_mret {A} (a : A) : steps R (mret a).
Proof. intros s r s' [= <- <-]. reflexivity. Qed.

Lemma steps_throw {A} (e : exn) : steps R (@throw A e).
Proof. intros s r s' [= <- <-]. reflexivity. Qed.

Lemma steps_lift {A} (x : result A) : steps R (lift x).
Proof. intros s r s' [= <- <-]. reflexivity. Qed.

Lemma steps_gets {A} (f : state -> A) : steps R (gets f).
Proof. intros s r s' [= <- <-]. reflexivity. Qed.

Lemma steps_modify (f : state -> state) :
  (forall s, R s (f s)) -> steps R (modify f).
Proof. intros Hf s r s' [= <- <-]. apply Hf. Qed.

Lemma steps_bind {A B} (m : M A) (k : A -> M B) :
  steps R m -> (forall a, steps R (k a)) -> steps R (m ≫= k).
Proof.
  intros Hm Hk s r s'. unfold mbind, M_bind.
  destruct (m s) as [[a|e] s1] eqn:E; intros H.
  - transitivity s1; [exact (Hm _ _ _ E) | exact (Hk _ _ _ _ H)].
  - injection H as <- <-. exact (Hm _ _ _ E).
Qed.

Lemma steps_try_catch {A} (m : M A) (h : exn -> M A) :
  steps R m -> (forall e, steps R (h e)) -> steps R (try_catch m h).
Proof.
  intros Hm Hh s r s'. unfold try_catch.
  destruct (m s) as [[a|e] s1] eqn:E; intros H.
  - injection H as <- <-. exact (Hm _ _ _ E).
  - transitivity s1; [exact (Hm _ _ _ E) | exact (Hh _ _ _ _ H)].
Qed.

Lemma steps_when (b : bool) (m : M unit) : steps R m -> steps R (when b m).
Proof. intros Hm. destruct b; [exact Hm | apply steps_mret]. Qed.

(** The browser calls, for a relation that ignores the event counter and
    (for the storage calls) the store. *)
Section Calls.
Context (W : World).
Hypothesis R_tick : forall s, R s (next_tick s).

Lemma steps_fetch url : steps R (fetch W url).
Proof. intros s r s' [= <- <-]. apply R_tick. Qed.

Lemma steps_Date_now : steps R (Date_now W).
Proof. intros s r s' [= <- <-]. apply R_tick. Qed.

Lemma steps_getItem key : steps R (getItem W key).
Proof.
  intros s r s'. unfold getItem.
  destruct (storage_fault W (tick s)); intros [= <- <-]; apply R_tick.
Qed.

Hypothesis R_store : forall s m, R s (set_localStorage m s).

Lemma steps_setItem key v : steps R (setItem W key v).
Proof.
  intros s r s'. unfold setItem.
  destruct (storage_fault W (tick s)); intros [= <- <-]; [apply R_tick|].
  etransitivity; [apply R_store | apply R_tick].
Qed.

Lemma steps_removeItem key : steps R (removeItem W key).
Proof.
  intros s r s'. unfold removeItem.
  destruct (storage_fault W (tick s)); intros [= <- <-]; [apply R_tick|].
  etransitivity; [apply R_store | apply R_tick].
Qed.
End Calls.
End Steps.

#[global] Instance kept_preorder {X} (f : state -> X) : PreOrder (kept f).
Proof.
  split.
  - intros s. reflexivity.
  - intros a b c Hab Hbc. unfold kept in *. congruence.
Qed.

#[global] Instance maintains_preorder (I : state -> Prop) : PreOrder (maintains I).
Proof.
  split.
  - intros s H. exact H.
  - intros a b c Hab Hbc H. exact (Hbc (Hab H)).
Qed.

#[global] Instance later_preorder : PreOrder later.
Proof.
  split.
  - intros s. unfold later. lia.
  - intros a b c. unfold later. lia.
Qed.

(** Side goals of the rules above: the preorder, the continuation of a
    bind, and the setters, which compute. *)
Ltac steps_field :=
  first [ reflexivity | unfold later; simpl; lia | exact (fun H => H) ].

Ltac steps_side :=
  lazymatch goal with
  | |- PreOrder _ => typeclasses eauto
  | |- forall _, steps _ _ => intros ?
  | |- forall (_ : state) (_ : _), _ =>
      first [ solve [auto] | intros [] ?; steps_field ]
  | |- forall _ : state, _ =>
      first [ solve [auto] | intros []; steps_field ]
  | |- _ => idtac
  end.

Ltac steps_structure :=
  lazymatch goal with
  | |- steps _ (mbind _ _) => apply steps_bind; steps_side
  | |- steps _ (mret _) => apply steps_mret; steps_side
  | |- steps _ (throw _) => apply steps_throw; steps_side
  | |- steps _ (lift _) => apply steps_lift; steps_side
  | |- steps _ (gets _) => apply steps_gets; steps_side
  | |- steps _ (when _ _) => apply steps_when; steps_side
  | |- steps _ (try_catch _ _) => apply steps_try_catch; steps_side
  | |- steps _ (if ?b then _ else _) => destruct b
  | |- steps _ (match ?x with _ => _ end) => destruct x
  end.

(** Calls that touch neither the ticker's fields nor the store. *)
Ltac steps_call :=
  lazymatch goal with
  | |- steps _ (fetch _ _) => apply steps_fetch; steps_side
  | |- steps _ (Date_now _) => apply steps_Date_now; steps_side
  | |- steps _ (getItem _ _) => apply steps_getItem; steps_side
  | |- steps _ (setItem _ _ _) => apply steps_setItem; steps_side
  | |- steps _ (removeItem _ _) => apply steps_removeItem; steps_side
  | |- steps _ (modify _) => apply steps_modify; steps_side
  end.

Create HintDb frame discriminated.

Ltac frame :=
  repeat first [ steps_structure | steps_call | solve [eauto with frame] ].

(** The methods, for any relation that ignores the fields they write. *)
Section Frames.
Context (P : Platform) (W : World).
Context (R : relation state) `{!PreOrder R}.
Hypothesis R_tick : forall s, R s (next_tick s).
Hypothesis R_store : forall s m, R s (set_localStorage m s).
Hypothesis R_list : forall s l, R s (set_tickerList l s).
Hypothesis R_position : forall s x, R s (set_currentPosition x s).

Lemma saveToCache_steps : steps R (saveToCache W).
Proof. unfold saveToCache. frame. Qed.
Hint Resolve saveToCache_steps : frame.

Lemma formatTimeAgo_steps v : steps R (formatTimeAgo P W v).
Proof. unfold formatTimeAgo. frame. Qed.
Hint Resolve formatTimeAgo_steps : frame.

Lemma sanitizeText_steps v : steps R (sanitizeText P v).
Proof. unfold sanitizeText. frame. Qed.
Hint Resolve sanitizeText_steps : frame.

Lemma render_element_steps i h : steps R (render_element P W i h).
Proof. unfold render_element. frame. Qed.
Hint Resolve render_element_steps : frame.

Lemma render_elements_steps hs : forall i, steps R (render_elements P W i hs).
Proof. induction hs as [|h hs IH]; intros i; simpl; frame. Qed.
Hint Resolve render_elements_steps : frame.

Lemma renderHeadlines_steps : steps R (renderHeadlines P W).
Proof. unfold renderHeadlines. frame. Qed.
Hint Resolve renderHeadlines_steps : frame.

Lemma headlines_empty_steps : steps R headlines_empty.
Proof. unfold headlines_empty. frame. Qed.

Lemma headlines_nonempty_steps : steps R (headlines_nonempty P).
Proof. unfold headlines_nonempty. frame. Qed.

Lemma fetch_json_steps path : steps R (fetch_json W path).
Proof. unfold fetch_json. frame. Qed.

Lemma fetch_fallback_txt_steps svc : steps R (fetch_fallback_txt W svc).
Proof. unfold fetch_fallback_txt. frame. Qed.

Hint Resolve headlines_empty_steps headlines_nonempty_steps fetch_json_steps
  fetch_fallback_txt_steps : frame.

Hypothesis R_headlines : forall s h, R s (set_headlines h s).

Lemma fallback_headlines_steps adapter path :
  steps R (fallback_headlines W adapter path).
Proof. unfold fallback_headlines. frame. Qed.
Hint Resolve fallback_headlines_steps : frame.

Lemma loadFromCache_steps : steps R (loadFromCache P W).
Proof. unfold loadFromCache. frame. Qed.

Lemma load_json_steps adapter path : steps R (load_json W adapter path).
Proof. unfold load_json. frame. Qed.
Hint Resolve load_json_steps : frame.

Lemma directive_stage_steps svc lines : steps R (directive_stage P W svc lines).
Proof. unfold directive_stage. frame. Qed.

Lemma json_line_stage_steps lines : steps R (json_line_stage P W lines).
Proof. unfold json_line_stage. frame. Qed.

Lemma plain_lines_stage_steps svc lines : steps R (plain_lines_stage W svc lines).
Proof. unfold plain_lines_stage. frame. Qed.

Hint Resolve directive_stage_steps json_line_stage_steps plain_lines_stage_steps : frame.

Lemma resolve_lines_steps svc lines : steps R (resolve_lines P W svc lines).
Proof. unfold resolve_lines. frame. Qed.
Hint Resolve resolve_lines_steps : frame.

Lemma loadFallbackFromTxt_steps : steps R (loadFallbackFromTxt P W).
Proof. unfold loadFallbackFromTxt. frame. Qed.
Hint Resolve loadFallbackFromTxt_steps loadFromCache_steps : frame.

Hypothesis R_offline : forall s b, R s (set_offlineMode b s).
Hypothesis R_update : forall s t, R s (set_lastUpdate t s).

Lemma load_remote_steps : steps R (load_remote P W).
Proof. unfold load_remote. frame. Qed.

Lemma recover_steps : steps R (recover P W).
Proof. unfold recover. frame. Qed.
Hint Resolve load_remote_steps recover_steps : frame.

Lemma loadHeadlines_steps : steps R (loadHeadlines P W).
Proof. unfold loadHeadlines. frame. Qed.
End Frames.

(** The methods, for a concrete relation: their side conditions compute. *)
Ltac steps_method :=
  lazymatch goal with
  | |- steps _ (saveToCache _) => apply saveToCache_steps; steps_side
  | |- steps _ (renderHeadlines _ _) => apply renderHeadlines_steps; steps_side
  | |- steps _ (render_elements _ _ _ _) => apply render_elements_steps; steps_side
  | |- steps _ (loadFromCache _ _) => apply loadFromCache_steps; steps_side
  | |- steps _ (loadFallbackFromTxt _ _) => apply loadFallbackFromTxt_steps; steps_side
  | |- steps _ (resolve_lines _ _ _ _) => apply resolve_lines_steps; steps_side
  | |- steps _ (directive_stage _ _ _ _) => apply directive_stage_steps; steps_side
  | |- steps _ (json_line_stage _ _ _) => apply json_line_stage_steps; steps_side
  | |- steps _ (plain_lines_stage _ _ _) => apply plain_lines_stage_steps; steps_side
  | |- steps _ (load_json _ _ _) => apply load_json_steps; steps_side
  | |- steps _ (fallback_headlines _ _ _) => apply fallback_headlines_steps; steps_side
  | |- steps _ (loadHeadlines _ _) => apply loadHeadlines_steps; steps_side
  | |- steps _ (load_remote _ _) => apply load_remote_steps; steps_side
  | |- steps _ (recover _ _) => apply recover_steps; steps_side
  | |- steps _ (fetch_json _ _) => apply fetch_json_steps; steps_side
  | |- steps _ (fetch_fallback_txt _ _) => apply fetch_fallback_txt_steps; steps_side
  | |- steps _ headlines_empty => apply headlines_empty_steps; steps_side
  | |- steps _ (headlines_nonempty _) => apply headlines_nonempty_steps; steps_side
  end.

Ltac frames := repeat first [ steps_structure | steps_call | steps_method ].

(** Record [R s s'] for every run [m s = (r, s')] in the context whose
    statement [m] is covered by the frame rules. *)
Ltac run_frame R :=
  repeat
    match goal with
    | H : ?m ?s = (?r, ?s') |- _ =>
        lazymatch goal with
        | _ : R s s' |- _ => fail
        | |- _ => idtac
        end;
        assert (R s s') by (apply (fun Hs : steps R m => Hs s r s' H); frames)
    end.

(** ** Inversion of runs *)

Lemma run_bind_Ok {A B} (m : M A) (k : A -> M B) s b s' :
  (m ≫= k) s = (Ok b, s') ->
  exists a s1, m s = (Ok a, s1) /\ k a s1 = (Ok b, s').
Proof.
  unfold mbind, M_bind. destruct (m s) as [[a|e] s1]; intros H.
  - exists a, s1. split; [reflexivity | exact H].
  - discriminate H.
Qed.

Lemma run_bind_Throw {A B} (m : M A) (k : A -> M B) s e s' :
  (m ≫= k) s = (Throw e, s') ->
  m s = (Throw e, s') \/ exists a s1, m s = (Ok a, s1) /\ k a s1 = (Throw e, s').
Proof.
  unfold mbind, M_bind. destruct (m s) as [[a|e0] s1]; intros H.
  - right. exists a, s1. split; [reflexivity | exact H].
  - left. injection H as <- <-. reflexivity.
Qed.

Lemma run_try_catch {A} (m : M A) (h : exn -> M A) s r s' :
  try_catch m h s = (r, s') ->
  (exists a, m s = (Ok a, s') /\ r = Ok a) \/
  (exists e s1, m s = (Throw e, s1) /\ h e s1 = (r, s')).
Proof.
  unfold try_catch. destruct (m s) as [[a|e] s1]; intros H.
  - left. exists a. injection H as <- <-. split; reflexivity.
  - right. exists e, s1. split; [reflexivity | exact H].
Qed.

(** What follows an assignment starts from the assigned state. *)
Lemma steps_after_modify (R : relation state) {B} (f : state -> state)
    (k : unit -> M B) :
  steps R (k tt) ->
  forall s r s', (modify f ≫= k) s = (r, s') -> R (f s) s'.
Proof. intros Hk s r s' H. exact (Hk _ _ _ H). Qed.

(** A [try] whose handler swallows the exception always returns. *)
Lemma try_catch_swallow (m : M unit) s :
  fst (try_catch m (fun _ => mret tt) s) = Ok tt.
Proof.
  unfold try_catch. destruct (m s) as [[[]|e] s1]; reflexivity.
Qed.

(** Invert a run [H] that returned: one hypothesis per statement. *)
Ltac run_Ok H :=
  repeat
    lazymatch type of H with
    | (_ ≫= _) _ = (Ok _, _) =>
        let a := fresh "a" in
        let s1 := fresh "s" in
        let H1 := fresh "Hrun" in
        apply run_bind_Ok in H as (a & s1 & H1 & H)
    | (if ?b then _ else _) _ = _ => destruct b eqn:?
    | (match ?x with _ => _ end) _ = _ => destruct x eqn:?
    | throw _ _ = (Ok _, _) => discriminate H
    | lift (Throw _) _ = (Ok _, _) => discriminate H
    end.

(** Case analysis on the statements that returned after a branch. *)
Ltac run_cases :=
  repeat
    match goal with
    | H : (match ?x with _ => _ end) _ = (Ok _, _) |- _ =>
        destruct x; try (unfold throw in H; discriminate H)
    | H : (if ?b then _ else _) _ = (Ok _, _) |- _ =>
        destruct b eqn:?; try (unfold throw in H; discriminate H)
    end.

(** The runs of the primitive statements. *)
Lemma modify_run f s r s' : modify f s = (r, s') -> r = Ok tt /\ s' = f s.
Proof. intros [= <- <-]. split; reflexivity. Qed.

Lemma gets_run {A} (f : state -> A) s r s' :
  gets f s = (r, s') -> r = Ok (f s) /\ s' = s.
Proof. intros [= <- <-]. split; reflexivity. Qed.

Lemma mret_run {A} (a : A) s r s' :
  (mret a : M A) s = (r, s') -> r = Ok a /\ s' = s.
Proof. intros [= <- <-]. split; reflexivity. Qed.

Lemma lift_run {A} (x : result A) s r s' : lift x s = (r, s') -> r = x /\ s' = s.
Proof. intros [= <- <-]. split; reflexivity. Qed.

Lemma Date_now_run W s r s' :
  Date_now W s = (r, s') -> r = Ok (clock W (tick s)) /\ s' = next_tick s.
Proof. intros [= <- <-]. split; reflexivity. Qed.

Lemma fetch_run W url s r s' :
  fetch W url s = (r, s') -> r = net W (tick s) url /\ s' = next_tick s.
Proof. intros [= <- <-]. split; reflexivity. Qed.

(** Replace the runs of the primitive statements by their effect. *)
Ltac run_prims :=
  repeat
    match goal with
    | H : modify _ _ = (_, _) |- _ => apply modify_run in H as [? ?]
    | H : gets _ _ = (_, _) |- _ => apply gets_run in H as [? ?]
    | H : mret _ _ = (_, _) |- _ => apply mret_run in H as [? ?]
    | H : lift _ _ = (_, _) |- _ => apply lift_run in H as [? ?]
    | H : Date_now _ _ = (_, _) |- _ => apply Date_now_run in H as [? ?]
    | H : fetch _ _ _ = (_, _) |- _ => apply fetch_run in H as [? ?]
    end;
  simplify_eq.

Section Offline.
Context (P : Platform) (W : World).

Lemma load_remote_returns s r s' :
  load_remote P W s = (Ok r, s') -> r = Remote /\ offlineMode s' = false.
Proof.
  unfold load_remote. intros H. run_Ok H.
  match goal with
  | Hr : renderHeadlines _ _ _ = _ |- _ =>
      apply (renderHeadlines_steps P W (kept offlineMode)) in Hr; steps_side
  end.
  run_prims. split; [reflexivity | assumption].
Qed.

Lemma recovered_not_Remote e ne : recovered e ne <> Remote.
Proof. destruct e, ne; discriminate. Qed.

Lemma recover_offline s r s' :
  recover P W s = (r, s') -> offlineMode s' = true /\ r <> Ok Remote.
Proof.
  intros H. split.
  - unfold recover in H.
    apply (steps_after_modify (kept offlineMode)) in H; [exact H | frames].
  - destruct r as [r|e]; [|discriminate].
    unfold recover in H. run_Ok H. run_prims.
    intros [= E]. exact (recovered_not_Remote _ _ E).
Qed.

(** C8. The offline flag is true after every resolution whose remote
    stage fails, whatever the fallback stages then produce (Fallback,
    Cache, Empty, or an exception), and false after a resolution only if
    its outcome is Remote. *)
Theorem offline_flag_tracks_remote s :
  let r := fst (loadHeadlines P W s) in
  let s' := snd (loadHeadlines P W s) in
  offlineMode s' = match r with Ok Remote => false | _ => true end /\
  (r <> Ok Remote <-> exists e, fst (load_remote P W s) = Throw e).
Proof.
  cbv zeta. unfold loadHeadlines, try_catch.
  destruct (load_remote P W s) as [[a|e] s1] eqn:E; cbn [fst snd].
  - apply load_remote_returns in E as [-> E]. split; [exact E|].
    split; [intros H; now elim H | intros [e He]; discriminate He].
  - destruct (recover P W s1) as [r s'] eqn:Er.
    apply recover_offline in Er as [Ho Hr]. cbn [fst snd]. split.
    + rewrite Ho. destruct r as [[]|]; try reflexivity. now elim Hr.
    + split; [intros _; exists e; reflexivity | intros _; exact Hr].
Qed.
End Offline.

(** ** The cache *)

Section CacheFacts.
Context (P : Platform) (W : World).

(** Forward execution of a bind whose first statement is known. *)
Lemma run_bind_eq {A B} (m : M A) (k : A -> M B) s a s1 :
  m s = (Ok a, s1) -> (m ≫= k) s = k a s1.
Proof. unfold mbind, M_bind. intros ->. reflexivity. Qed.

Lemma saveToCache_writes s :
  storage_fault W (S (tick s)) = false ->
  saveToCache W s =
    (Ok tt,
     next_tick (set_localStorage
       (<[cacheKey (currentService s) :=
            Text (cache_entry (headlines s) (clock W (tick s)))]> (localStorage s))
       (next_tick s))).
Proof.
  intros Hf. unfold saveToCache, try_catch, mbind, M_bind, gets, Date_now, setItem.
  cbn. rewrite Hf. reflexivity.
Qed.

Lemma renderHeadlines_keeps_headlines s :
  headlines (snd (renderHeadlines P W s)) = headlines s.
Proof.
  destruct (renderHeadlines P W s) as [r s'] eqn:E.
  apply (renderHeadlines_steps P W (kept headlines)) in E; steps_side.
  exact E.
Qed.

(** The run of [loadFromCache] up to the freshness test, on an entry of the
    shape [saveToCache] writes. *)
Lemma loadFromCache_entry s hs T :
  localStorage s !! cacheKey (currentService s)
    = Some (Text (cache_entry hs T)) ->
  storage_fault W (tick s) = false ->
  loadFromCache P W s =
    try_catch
      (if (clock W (S (tick s)) - T <? 3600000)%Z then
         len ← lift (get hs "length");
         _ ← lift (ToString P len);
         modify (set_headlines hs);;
         renderHeadlines P W
       else removeItem W (cacheKey (currentService s)))
      (fun _ => mret tt)
      (next_tick (next_tick s)).
Proof.
  intros Hget Hf.
  unfold loadFromCache, try_catch, mbind, M_bind, gets, getItem, lift, Date_now.
  cbn -[renderHeadlines Z.ltb Z.sub get]. rewrite Hf.
  cbn -[renderHeadlines Z.ltb Z.sub get]. rewrite Hget.
  cbn -[renderHeadlines Z.ltb Z.sub get]. reflexivity.
Qed.

Lemma loadFromCache_fresh s hs T :
  localStorage s !! cacheKey (currentService s)
    = Some (Text (cache_entry (JArr hs) T)) ->
  storage_fault W (tick s) = false ->
  clock W (S (tick s)) - T < 3600000 ->
  headlines (snd (loadFromCache P W s)) = JArr hs.
Proof.
  intros Hget Hf Hage.
  rewrite (loadFromCache_entry _ _ _ Hget Hf).
  rewrite (proj2 (Z.ltb_lt _ _) Hage).
  unfold try_catch, mbind, M_bind, lift, modify. cbn -[renderHeadlines].
  pose proof (renderHeadlines_keeps_headlines
                (set_headlines (JArr hs) (next_tick (next_tick s)))) as Hk.
  destruct (renderHeadlines P W _) as [[[]|e] s']; exact Hk.
Qed.

Lemma loadFromCache_expired s hs T :
  localStorage s !! cacheKey (currentService s)
    = Some (Text (cache_entry hs T)) ->
  storage_fault W (tick s) = false ->
  storage_fault W (S (S (tick s))) = false ->
  3600000 <= clock W (S (tick s)) - T ->
  loadFromCache P W s =
    (Ok tt,
     next_tick (set_localStorage
       (delete (cacheKey (currentService s)) (localStorage s))
       (next_tick (next_tick s)))).
Proof.
  intros Hget Hf Hf2 Hage.
  rewrite (loadFromCache_entry _ _ _ Hget Hf).
  rewrite (proj2 (Z.ltb_ge _ _) Hage).
  unfold try_catch, removeItem. cbn. rewrite Hf2. reflexivity.
Qed.

(** A read that finds no entry changes nothing but the event counter. *)
Lemma loadFromCache_absent s :
  localStorage s !! cacheKey (currentService s) = None ->
  storage_fault W (tick s) = false ->
  loadFromCache P W s = (Ok tt, next_tick s).
Proof.
  intros Hget Hf.
  unfold loadFromCache, try_catch, mbind, M_bind, gets, getItem.
  cbn. rewrite Hf, Hget. reflexivity.
Qed.

(** C4. An entry with timestamp [T], read at time [T'] (the value of
    [Date.now()] in the freshness test): if [T' - T < 3600000] the read
    returns its list; if [T' - T >= 3600000] the read leaves [headlines]
    as a read of an absent entry does and deletes the entry. *)
Theorem cache_ttl s hs T :
  localStorage s !! cacheKey (currentService s)
    = Some (Text (cache_entry (JArr hs) T)) ->
  storage_fault W (tick s) = false ->
  let T' := clock W (S (tick s)) in
  let s' := snd (loadFromCache P W s) in
  (T' - T < 3600000 -> headlines s' = JArr hs) /\
  (3600000 <= T' - T -> storage_fault W (S (S (tick s))) = false ->
     headlines s' = headlines s /\
     localStorage s' !! cacheKey (currentService s) = None /\
     localStorage s' = delete (cacheKey (currentService s)) (localStorage s)).
Proof.
  intros Hget Hf T' s'. split.
  - intros Hage. exact (loadFromCache_fresh _ _ _ Hget Hf Hage).
  - intros Hage Hf2. subst s'.
    rewrite (loadFromCache_expired _ _ _ Hget Hf Hf2 Hage). cbn.
    split; [reflexivity|]. split; [apply lookup_delete_eq | reflexivity].
Qed.
End CacheFacts.

Section CacheRoundTrip.
Context (P : Platform) (W : World).

(** C9. A list written by [saveToCache] and read back by [loadFromCache]
    before the entry is an hour old is the list that was written. *)
Theorem cache_round_trip s0 s hs :
  headlines s0 = JArr hs ->
  storage_fault W (S (tick s0)) = false ->
  localStorage s = localStorage (snd (saveToCache W s0)) ->
  currentService s = currentService s0 ->
  storage_fault W (tick s) = false ->
  clock W (S (tick s)) - clock W (tick s0) < 3600000 ->
  headlines (snd (loadFromCache P W s)) = JArr hs.
Proof.
  intros Hhs Hw Hstore Hsvc Hr Hage.
  rewrite (saveToCache_writes W s0 Hw) in Hstore. cbn in Hstore.
  apply (loadFromCache_fresh P W s hs (clock W (tick s0))); [| exact Hr | exact Hage].
  rewrite Hstore, Hsvc, Hhs. apply lookup_insert_eq.
Qed.

Lemma primitive_ToString v : primitive v = true -> exists str, ToString P v = Ok str.
Proof. destruct v as [[| [] | | | |]|]; simpl; intros H; try discriminate; eauto. Qed.

Lemma primitive_ToNumber v : primitive v = true -> exists n, ToNumber P v = Ok n.
Proof. destruct v as [[| [] | | | |]|]; simpl; intros H; try discriminate; eauto. Qed.

Lemma primitive_sanitizeText v s :
  primitive v = true -> exists str, sanitizeText P v s = (Ok str, s).
Proof. destruct v as [[| [] | | | |]|]; simpl; intros H; try discriminate; eauto. Qed.

Lemma plain_item_get h f : plain_item h = true -> get h f = Ok (field h f).
Proof.
  unfold field. destruct h; simpl; intros H; try discriminate;
    try reflexivity; destruct (String.eqb f "length"); reflexivity.
Qed.

Lemma render_element_plain i h s :
  plain_item h = true ->
  exists el, render_element P W i h s = (Ok el, next_tick s).
Proof.
  intros Hp. unfold render_element.
  assert (Hf : forall f, get h f = Ok (field h f)) by (intros; now apply plain_item_get).
  assert (Hprim : primitive (field h "source") = true /\ primitive (field h "url") = true /\
                  primitive (field h "title") = true /\ primitive (field h "ts") = true).
  { destruct h; try discriminate Hp; simpl in Hp;
      repeat (apply andb_prop in Hp as [Hp ?]); auto. }
  destruct Hprim as (H1 & H2 & H3 & H4).
  destruct (primitive_sanitizeText _ s H1) as [a Ha].
  destruct (primitive_ToString _ H2) as [b Hb].
  destruct (primitive_sanitizeText _ s H3) as [c Hc].
  destruct (primitive_ToNumber _ H4) as [d Hd].
  destruct (primitive_ToString _ H4) as [e He].
  unfold mbind, M_bind, lift, formatTimeAgo, gets, Date_now.
  rewrite !Hf, Ha, Hb, Hc. unfold mbind, M_bind, lift. rewrite Hd, He.
  eexists. reflexivity.
Qed.

Lemma advance_next_tick n s : advance n (next_tick s) = next_tick (advance n s).
Proof. unfold advance, next_tick. cbn. f_equal. lia. Qed.

Lemma render_elements_plain hs : forall i s,
  Forall (fun h => plain_item h = true) hs ->
  exists els, render_elements P W i hs s = (Ok els, advance (List.length hs) s).
Proof.
  induction hs as [|h hs IH]; intros i s Hall.
  - exists []. destruct s; reflexivity.
  - apply Forall_cons in Hall as [Hh Hall].
    destruct (render_element_plain i h s Hh) as [el Hel].
    destruct (IH (S i) (next_tick s) Hall) as [els Hels].
    exists (el :: els). cbn [render_elements].
    rewrite (run_bind_eq _ _ _ _ _ Hel), (run_bind_eq _ _ _ _ _ Hels).
    rewrite advance_next_tick. reflexivity.
Qed.

(** Rendering a non-empty list of plain items completes and writes the
    list to the cache with the time of the write. *)
Lemma renderHeadlines_plain s hs :
  headlines s = JArr hs -> hs <> [] ->
  Forall (fun h => plain_item h = true) hs ->
  storage_fault W (S (List.length hs + tick s)) = false ->
  exists s',
    renderHeadlines P W s = (Ok tt, s') /\
    headlines s' = JArr hs /\
    currentService s' = currentService s /\
    localStorage s' =
      <[cacheKey (currentService s) :=
          Text (cache_entry (JArr hs) (clock W (List.length hs + tick s)))]>
        (localStorage s) /\
    tick s' = S (S (List.length hs + tick s)).
Proof.
  intros Hhs Hne Hall Hf.
  destruct (render_elements_plain hs 0%nat (set_tickerList [] s) Hall) as [els Hels].
  unfold renderHeadlines.
  rewrite (run_bind_eq _ _ s (JArr hs) s) by (unfold gets; now rewrite Hhs).
  unfold lift at 1. cbn [get String.eqb Ascii.eqb Bool.eqb].
  erewrite run_bind_eq by reflexivity.
  replace (strict_eq_zero (Some (JNum (Z.of_nat (List.length hs))))) with false
    by (destruct hs; [now elim Hne | reflexivity]).
  erewrite run_bind_eq by reflexivity.
  erewrite run_bind_eq by reflexivity.
  rewrite (run_bind_eq _ _ _ _ _ Hels).
  erewrite run_bind_eq by reflexivity.
  erewrite (run_bind_eq (saveToCache W)) by (apply saveToCache_writes; exact Hf).
  eexists. split; [reflexivity|]. cbn. rewrite Hhs. repeat split.
Qed.

Lemma loadFromCache_hit s hs T :
  localStorage s !! cacheKey (currentService s)
    = Some (Text (cache_entry (JArr hs) T)) ->
  hs <> [] ->
  Forall (fun h => plain_item h = true) hs ->
  storage_fault W (tick s) = false ->
  storage_fault W (S (List.length hs + S (S (tick s)))) = false ->
  clock W (S (tick s)) - T < 3600000 ->
  exists s',
    loadFromCache P W s = (Ok tt, s') /\
    headlines s' = JArr hs /\
    currentService s' = currentService s /\
    localStorage s' =
      <[cacheKey (currentService s) :=
          Text (cache_entry (JArr hs) (clock W (List.length hs + S (S (tick s)))))]>
        (localStorage s) /\
    tick s' = S (S (List.length hs + S (S (tick s)))).
Proof.
  intros Hget Hne Hall Hf Hf2 Hage.
  rewrite (loadFromCache_entry P W _ _ _ Hget Hf).
  rewrite (proj2 (Z.ltb_lt _ _) Hage).
  destruct (renderHeadlines_plain
              (set_headlines (JArr hs) (next_tick (next_tick s))) hs)
    as (s' & Hrun & H1 & H2 & H3 & H4); auto.
  exists s'. unfold try_catch.
  unfold lift at 1. cbn [get String.eqb Ascii.eqb Bool.eqb].
  erewrite run_bind_eq by reflexivity.
  erewrite run_bind_eq by reflexivity.
  erewrite run_bind_eq by reflexivity.
  rewrite Hrun. repeat split; assumption.
Qed.

Lemma poll_cache_hits hs :
  hs <> [] ->
  Forall (fun h => plain_item h = true) hs ->
  (forall k, storage_fault W k = false) ->
  (forall i j, (i <= j)%nat -> clock W i <= clock W j) ->
  forall gaps s T last,
    localStorage s !! cacheKey (currentService s)
      = Some (Text (cache_entry (JArr hs) T)) ->
    last <= T ->
    read_hourly P W last gaps s ->
    Forall (holds (cacheKey (currentService s)) hs) (poll_cache P W gaps s).
Proof.
  intros Hne Hall Hfault Hmono.
  induction gaps as [|g gaps IH]; intros s T last Hget Hlast Hsched.
  - constructor.
  - cbn [read_hourly] in Hsched. cbv zeta in Hsched.
    destruct Hsched as [Hage Hrest].
    destruct (loadFromCache_hit (advance g s) hs T)
      as (s' & Hrun & Hh & Hsvc & Hstore & Htick); auto.
    { lia. }
    cbn [poll_cache]. cbv zeta. rewrite Hrun in *. cbn [snd] in *.
    change (currentService (advance g s)) with (currentService s) in *.
    assert (Hget' : localStorage s' !! cacheKey (currentService s') =
              Some (Text (cache_entry (JArr hs)
                (clock W (List.length hs + S (S (tick (advance g s)))))))).
    { rewrite Hstore, Hsvc. apply lookup_insert_eq. }
    constructor.
    + split; [exact Hh|]. rewrite <- Hsvc. eauto.
    + rewrite <- Hsvc. eapply IH; [exact Hget' | | exact Hrest].
      apply Hmono. lia.
Qed.

(** C10. A read that finds a fresh entry (a non-empty list of plain
    items) renders it, and the render writes the entry again with the
    time of that write, which is not before the time of the read. So a
    schedule of reads, each less than an hour after the one before, finds
    the entry at every read, however long ago it was first written. *)
Theorem cache_hit_extends_lifetime hs :
  hs <> [] ->
  Forall (fun h => plain_item h = true) hs ->
  (forall k, storage_fault W k = false) ->
  (forall i j, (i <= j)%nat -> clock W i <= clock W j) ->
  (forall s T,
     localStorage s !! cacheKey (currentService s)
       = Some (Text (cache_entry (JArr hs) T)) ->
     clock W (S (tick s)) - T < 3600000 ->
     let s' := snd (loadFromCache P W s) in
     let now := clock W (List.length hs + S (S (tick s))) in
     headlines s' = JArr hs /\
     localStorage s' !! cacheKey (currentService s)
       = Some (Text (cache_entry (JArr hs) now)) /\
     clock W (S (tick s)) <= now) /\
  (forall gaps s T,
     localStorage s !! cacheKey (currentService s)
       = Some (Text (cache_entry (JArr hs) T)) ->
     read_hourly P W T gaps s ->
     Forall (holds (cacheKey (currentService s)) hs) (poll_cache P W gaps s)).
Proof.
  intros Hne Hall Hfault Hmono. split.
  - intros s T Hget Hage s' now. subst s' now.
    destruct (loadFromCache_hit s hs T) as (s' & Hrun & Hh & Hsvc & Hstore & Htick); auto.
    rewrite Hrun. cbn [snd]. split; [exact Hh|]. split.
    + rewrite Hstore. apply lookup_insert_eq.
    + apply Hmono. lia.
  - intros gaps s T Hget Hsched.
    apply (poll_cache_hits hs Hne Hall Hfault Hmono gaps s T T); auto. lia.
Qed.
End CacheRoundTrip.

(** ** Truncation *)

Lemma slice0_length {A} (n : Z) (l : list A) :
  0 <= n -> Z.of_nat (List.length (slice0 n l)) <= n.
Proof.
  intros Hn. unfold slice0.
  destruct (Z.ltb_spec n 0) as [Hlt|_]; [lia|].
  rewrite length_firstn. lia.
Qed.

Lemma slice0_prefix {A} (n : Z) (l : list A) :
  exists k, slice0 n l = firstn k l.
Proof. unfold slice0. eexists. reflexivity. Qed.

Lemma mapR_length {A B} (f : A -> result B) (l : list A) : forall l',
  mapR f l = Ok l' -> List.length l' = List.length l.
Proof.
  induction l as [|x l IH]; intros l'; cbn [mapR].
  - intros [= <-]. reflexivity.
  - unfold mbind, result_bind. destruct (f x) as [y|e]; [|discriminate].
    destruct (mapR f l) as [ys|e]; [|discriminate].
    intros [= <-]. cbn. f_equal. apply IH. reflexivity.
Qed.

Section Truncation.
Context (P : Platform) (W : World).

Lemma fallback_headlines_bounded adapter path s hs s' :
  fallback_headlines W adapter path s = (Ok hs, s') ->
  0 <= maxHeadlines (opts s') ->
  Z.of_nat (List.length hs) <= maxHeadlines (opts s').
Proof.
  unfold fallback_headlines. intros H Hmax. run_Ok H. run_prims.
  match goal with
  | Hm : Ok _ = mapR _ _ |- _ =>
      symmetry in Hm; apply mapR_length in Hm; rewrite Hm
  end.
  apply slice0_length. exact Hmax.
Qed.

Lemma load_json_bounded adapter path :
  steps (maintains bounded) (load_json W adapter path).
Proof.
  intros s r s' H Hb. unfold load_json in H.
  apply run_try_catch in H as [(a & H & ->) | (e & s1 & H & Hh)].
  - run_Ok H. run_prims.
    eexists. split; [reflexivity|]. cbn.
    eapply fallback_headlines_bounded. eassumption.
  - unfold mret, M_ret in Hh. injection Hh as <- <-.
    apply run_bind_Throw in H as [H | (a & s2 & _ & H)]; [|discriminate H].
    run_frame (kept opts). run_frame (kept headlines).
    unfold kept, bounded in *. rewrite H0, H1. exact Hb.
Qed.

Lemma plain_lines_stage_bounded svc lines :
  steps (maintains bounded) (plain_lines_stage W svc lines).
Proof.
  intros s r s' H Hb. unfold plain_lines_stage in H.
  injection H as <- <-. cbn.
  eexists. split; [reflexivity|]. cbn. rewrite length_map. apply slice0_length.
Qed.

Lemma resolve_lines_bounded svc lines :
  steps (maintains bounded) (resolve_lines P W svc lines).
Proof.
  unfold resolve_lines, directive_stage, json_line_stage.
  repeat first [ apply load_json_bounded | apply plain_lines_stage_bounded
               | steps_structure | steps_call | steps_method ].
Qed.

Lemma loadFallbackFromTxt_bounded :
  steps (maintains bounded) (loadFallbackFromTxt P W).
Proof.
  unfold loadFallbackFromTxt.
  repeat first [ apply resolve_lines_bounded
               | steps_structure | steps_call | steps_method ].
Qed.

Lemma renderHeadlines_bounded : steps (maintains bounded) (renderHeadlines P W).
Proof. apply renderHeadlines_steps; steps_side. Qed.

Lemma load_remote_bounded s r s' :
  load_remote P W s = (Ok r, s') ->
  bounded s' /\ opts s' = opts s.
Proof.
  intros H. unfold load_remote in H. run_Ok H. run_cases.
  match goal with
  | Hr : renderHeadlines _ _ _ = _ |- _ =>
      pose proof Hr as Hopts;
      apply (renderHeadlines_steps P W (kept opts)) in Hopts; steps_side;
      apply renderHeadlines_bounded in Hr; rename Hr into Hb
  end.
  run_prims. unfold kept in Hopts. cbn in *. split; [|exact Hopts].
  apply Hb. eexists. split; [reflexivity|]. cbn. apply slice0_length.
Qed.

Lemma recovered_Fallback e ne : recovered e ne = Fallback -> e = false.
Proof. destruct e, ne; [discriminate.. | reflexivity | reflexivity]. Qed.

Lemma recover_bounded s s' :
  recover P W s = (Ok Fallback, s') ->
  bounded s' /\ opts s' = opts s.
Proof.
  intros H. unfold recover in H. run_Ok H.
  unfold mret, M_ret in H. injection H as He <-.
  apply recovered_Fallback in He. subst.
  match goal with
  | Hw : when false _ _ = _ |- _ => cbn [when] in Hw
  end.
  match goal with
  | Hl : loadFallbackFromTxt _ _ ?s1 = (_, ?s2) |- _ =>
      assert (maintains bounded s1 s2) by exact (loadFallbackFromTxt_bounded _ _ _ Hl)
  end.
  match goal with
  | Hr : when _ (renderHeadlines _ _) ?s1 = (_, ?s2) |- _ =>
      assert (maintains bounded s1 s2)
        by (apply (fun Hs : steps (maintains bounded) _ => Hs s1 _ s2 Hr);
            apply steps_when; [typeclasses eauto | apply renderHeadlines_bounded])
  end.
  run_frame (kept opts). run_frame (maintains bounded).
  run_prims. unfold kept, maintains in *. cbn in *.
  assert (Hb0 : bounded (set_headlines (JArr []) (set_offlineMode true s))).
  { exists []. split; [reflexivity | intros Hmax; exact Hmax]. }
  split; [tauto | congruence].
Qed.

(** C6. For a maximum count [maxHeadlines] that is not negative: after a
    resolution whose outcome is Remote or Fallback (the fallback list
    coming from a directive's JSON resource, from a direct [.json] line or
    from the plain lines), [headlines] holds a list of at most
    [maxHeadlines] items, whatever the length of the input. *)
Theorem resolved_list_truncated s r s' :
  0 <= maxHeadlines (opts s) ->
  loadHeadlines P W s = (Ok r, s') ->
  r = Remote \/ r = Fallback ->
  exists l, headlines s' = JArr l /\
            Z.of_nat (List.length l) <= maxHeadlines (opts s).
Proof.
  intros Hmax H Hr. unfold loadHeadlines in H.
  apply run_try_catch in H as [(a & H & [= ->]) | (e & s1 & H & Hh)].
  - destruct (load_remote_bounded _ _ _ H) as [(l & Hl & Hb) Ho].
    exists l. rewrite <- Ho. split; [exact Hl | apply Hb; now rewrite Ho].
  - pose proof H as Ho.
    apply (load_remote_steps P W (kept opts)) in Ho; steps_side.
    unfold kept in Ho.
    destruct Hr as [-> | ->].
    + apply recover_offline in Hh as [_ Hne]. now elim Hne.
    + destruct (recover_bounded _ _ Hh) as [(l & Hl & Hb) Ho'].
      exists l. rewrite <- Ho, <- Ho'.
      split; [exact Hl | apply Hb; now rewrite Ho', Ho].
Qed.
End Truncation.

(** ** The fallback list and the cache *)

Section FallbackRender.
Context (P : Platform) (W : World).

Lemma headlines_empty_array s l :
  headlines s = JArr l ->
  headlines_empty s = (Ok (Nat.eqb (List.length l) 0), s).
Proof.
  intros Hl. unfold headlines_empty, mbind, M_bind, gets, lift. rewrite Hl. cbn.
  destruct l; reflexivity.
Qed.

Lemma headlines_nonempty_array s l :
  headlines s = JArr l ->
  headlines_nonempty P s = (Ok (negb (Nat.eqb (List.length l) 0)), s).
Proof.
  intros Hl. unfold headlines_nonempty, mbind, M_bind, gets, lift. rewrite Hl. cbn.
  destruct l; reflexivity.
Qed.

(** A render that returns has called [saveToCache] on the rendered list. *)
Lemma renderHeadlines_returns s s' l :
  renderHeadlines P W s = (Ok tt, s') ->
  headlines s = JArr l -> l <> [] ->
  exists sx,
    headlines sx = headlines s /\ currentService sx = currentService s /\
    (tick s <= tick sx)%nat /\
    s' = set_currentPosition 0 (snd (saveToCache W sx)).
Proof.
  intros H Hl Hne. unfold renderHeadlines in H. run_Ok H.
  - exfalso. run_prims. rewrite Hl in *. cbn in *. simplify_eq.
    destruct l; [now elim Hne | discriminate].
  - run_cases.
    match goal with
    | Hs : saveToCache W ?sx = (Ok _, ?sy) |- _ =>
        exists sx; replace sy with (snd (saveToCache W sx)) in * by now rewrite Hs
    end.
    run_frame (kept headlines). run_frame (kept currentService). run_frame later.
    run_prims. unfold kept, later in *. cbn in *.
    repeat split; try congruence; try lia.
Qed.

Lemma saveToCache_tick s : tick (snd (saveToCache W s)) = S (S (tick s)).
Proof.
  unfold saveToCache, try_catch, mbind, M_bind, gets, Date_now, setItem. cbn.
  destruct (storage_fault W (S (tick s))); reflexivity.
Qed.

Lemma saveToCache_service s :
  currentService (snd (saveToCache W s)) = currentService s.
Proof.
  destruct (saveToCache W s) as [r s'] eqn:E. run_frame (kept currentService).
  assumption.
Qed.

Lemma saveToCache_headlines s :
  headlines (snd (saveToCache W s)) = headlines s.
Proof.
  destruct (saveToCache W s) as [r s'] eqn:E. run_frame (kept headlines).
  assumption.
Qed.

(** C2, amended. When the outcome is Fallback, the render of the fallback
    list has written that list to the cache entry of the service, stamped
    with the time of the write [clock W k], unless the [setItem] call (the
    event after [k]) failed. *)
Theorem fallback_list_is_cached s s' :
  loadHeadlines P W s = (Ok Fallback, s') ->
  exists k,
    (tick s <= k)%nat /\ tick s' = S (S k) /\
    (storage_fault W (S k) = false ->
     localStorage s' !! cacheKey (currentService s)
       = Some (Text (cache_entry (headlines s') (clock W k)))).
Proof.
  intros H. unfold loadHeadlines in H.
  apply run_try_catch in H as [(a & H & [= <-]) | (e & s1 & H & Hh)].
  { apply load_remote_returns in H as [[=] _]. }
  unfold recover in Hh. run_Ok Hh.
  unfold mret, M_ret in Hh. injection Hh as He <-.
  apply recovered_Fallback in He. subst.
  match goal with
  | Hw : when false _ _ = _ |- _ => cbn [when] in Hw
  end.
  match goal with
  | Hl : loadFallbackFromTxt _ _ ?sa = (_, ?sb) |- _ =>
      assert (Hb : bounded sb);
      [ apply (loadFallbackFromTxt_bounded _ _ _ _ _ Hl) | ]
  end.
  { run_prims. exists []. split; [reflexivity | cbn; lia]. }
  destruct Hb as (l & Hl & _).
  match goal with
  | He : headlines_empty _ = _ |- _ =>
      rewrite (headlines_empty_array _ _ Hl) in He; injection He as Hzero <-
  end.
  assert (Hne : l <> []) by (intros ->; discriminate Hzero).
  match goal with
  | Hm : mret _ _ = _ |- _ => apply mret_run in Hm as [_ ->]
  end.
  match goal with
  | Hn : headlines_nonempty _ _ = _ |- _ =>
      rewrite (headlines_nonempty_array _ _ Hl) in Hn; injection Hn as <- <-
  end.
  rewrite Hzero in *. cbn [negb when] in *.
  run_frame (kept currentService). run_frame later.
  run_prims.
  match goal with
  | Hr : renderHeadlines _ _ _ = (Ok ?u, _) |- _ =>
      destruct u;
      destruct (renderHeadlines_returns _ _ l Hr Hl Hne) as (sx & Hx1 & Hx2 & Hx3 & ->)
  end.
  exists (tick sx). unfold kept, later in *. cbn in *.
  split; [lia|]. split; [apply saveToCache_tick|].
  intros Hf. rewrite (saveToCache_writes W sx Hf). cbn.
  replace (currentService s) with (currentService sx) by congruence.
  apply lookup_insert_eq.
Qed.
End FallbackRender.



Section FallbackWrite.
Import Scenario.

(** C2, as stated, fails: with the endpoint unreachable and a tweets
    fallback that resolves to one headline, the outcome is Fallback and the
    cache entry of the service, absent before, is written. *)
Lemma fallback_write_counterexample :
  let s := fresh_ticker tweets in
  let run := loadHeadlines engine tweets_fallback_world s in
  ~ (fst run = Ok Fallback ->
     localStorage (snd run) !! cacheKey (currentService s)
       = localStorage s !! cacheKey (currentService s)).
Proof.
  cbv zeta. intros H. vm_compute in H. specialize (H eq_refl). discriminate H.
Qed.
End FallbackWrite.

(** ** Directive precedence *)


Lemma split_ws_from_cons b l : exists h t, split_ws_from b l = h :: t.
Proof.
  revert b. induction l as [|c l IH]; intros b; cbn.
  - eauto.
  - destruct (is_space c).
    + destruct b; [apply IH | eauto].
    + destruct (IH false) as (h & t & ->). eauto.
Qed.

Section Precedence.
Context (P : Platform) (W : World).

Lemma load_json_returns adapter path s :
  fst (load_json W adapter path s) = Ok tt.
Proof. apply try_catch_swallow. Qed.

Lemma directive_stage_returns svc lines s :
  fst (directive_stage P W svc lines s) = Ok tt.
Proof.
  unfold directive_stage.
  destruct (find_directive svc lines) as [d|]; [|reflexivity].
  destruct (nth_error (split_ws d) 1) as [path|]; [|reflexivity].
  destruct (String.eqb path ""); [reflexivity | apply load_json_returns].
Qed.

Lemma json_line_stage_returns lines s :
  fst (json_line_stage P W lines s) = Ok tt.
Proof.
  unfold json_line_stage.
  destruct (find_json_line lines) as [l|]; [|reflexivity].
  unfold split_ws. destruct (split_ws_from_cons false l) as (h & t & ->).
  apply load_json_returns.
Qed.




End Precedence.

(** ** The tweets scenario *)

Section Tweets.
Import Scenario.
Context (P : Platform) (W : World).

(** Rendering a list of plain items returns, whatever the store does. *)
Lemma renderHeadlines_plain_returns s hs :
  headlines s = JArr hs ->
  Forall (fun h => plain_item h = true) hs ->
  fst (renderHeadlines P W s) = Ok tt.
Proof.
  intros Hhs Hall.
  destruct (render_elements_plain P W hs 0%nat (set_tickerList [] s) Hall) as [els Hels].
  unfold renderHeadlines.
  rewrite (run_bind_eq _ _ s (JArr hs) s) by (unfold gets; now rewrite Hhs).
  unfold lift at 1. cbn [get String.eqb Ascii.eqb Bool.eqb].
  erewrite run_bind_eq by reflexivity.
  destruct (strict_eq_zero _); [reflexivity|].
  erewrite run_bind_eq by reflexivity.
  erewrite run_bind_eq by reflexivity.
  rewrite (run_bind_eq _ _ _ _ _ Hels).
  erewrite run_bind_eq by reflexivity.
  pose proof (try_catch_swallow
    (svc ← gets currentService; hs0 ← gets headlines; now ← Date_now W;
     setItem W (cacheKey svc) (JSON_stringify (cache_entry hs0 now)))
    (set_tickerList (els ++ els) (advance (List.length hs) (set_tickerList [] s)))) as Hs.
  fold (saveToCache W) in Hs.
  destruct (saveToCache W _) as [r sy] eqn:Es. cbn [fst] in Hs. subst r.
  rewrite (run_bind_eq _ _ _ _ _ Es). reflexivity.
Qed.

Lemma tweet_item_headline now :
  mapItemToHeadline P tweets now tweet_item = Ok (tweet_headline now).
Proof. reflexivity. Qed.

Lemma tweet_headline_plain now : plain_item (tweet_headline now) = true.
Proof. reflexivity. Qed.

Lemma fallback_headlines_tweet path s s3 :
  fetch_json W path s = (Ok (JArr [tweet_item]), s3) ->
  currentService s3 = tweets ->
  1 <= maxHeadlines (opts s3) ->
  fallback_headlines W (mapItemToHeadline P) path s =
    (Ok [tweet_headline (clock W (tick s3))], next_tick s3).
Proof.
  intros Hf Hsvc Hmax. unfold fallback_headlines.
  rewrite (run_bind_eq _ _ _ _ _ Hf).
  unfold mbind, M_bind, lift, Date_now, gets.
  cbn -[mapItemToHeadline slice0 mapR]. rewrite Hsvc.
  replace (slice0 (maxHeadlines (opts s3)) [tweet_item]) with [tweet_item].
  - cbn [mapR]. rewrite tweet_item_headline. reflexivity.
  - unfold slice0. destruct (Z.ltb_spec (maxHeadlines (opts s3)) 0); [lia|].
    cbn [List.length]. replace (Z.min _ _) with 1 by lia. reflexivity.
Qed.

Lemma load_json_tweet path s s3 :
  fetch_json W path s = (Ok (JArr [tweet_item]), s3) ->
  currentService s3 = tweets ->
  1 <= maxHeadlines (opts s3) ->
  load_json W (mapItemToHeadline P) path s =
    (Ok tt, set_headlines (JArr [tweet_headline (clock W (tick s3))]) (next_tick s3)).
Proof.
  intros Hf Hsvc Hmax. unfold load_json, try_catch.
  rewrite (run_bind_eq _ _ _ _ _ (fallback_headlines_tweet _ _ _ Hf Hsvc Hmax)).
  reflexivity.
Qed.

(** C7. The service is [tweets], the remote stage fails, the text resource
    is served with a [tweets-file] directive whose second token is [path],
    and the resource at [path] is the array with the one item
    [{hashtag:"#x", username:"u", comment:"hi"}]. Then the outcome is
    Fallback and the list is the one headline with source [TWITTER], title
    [#x @u: hi], url [https://twitter.com/u] and, as [ts], the value of
    [Date.now()] read once the resource has been received. *)
Theorem tweets_directive_scenario s e s1 res txt d path s2 s3 :
  currentService s = tweets ->
  1 <= maxHeadlines (opts s) ->
  load_remote P W s = (Throw e, s1) ->
  fetch_fallback_txt W tweets (set_headlines (JArr []) (set_offlineMode true s1))
    = (Ok res, s2) ->
  ok res = true ->
  body_text res = Ok txt ->
  find_directive tweets (fallback_lines txt) = Some d ->
  startsWith (toLowerCase d) "tweets-file" = true ->
  nth_error (split_ws d) 1 = Some path ->
  path <> "" ->
  fetch_json W path s2 = (Ok (JArr [tweet_item]), s3) ->
  fst (loadHeadlines P W s) = Ok Fallback /\
  headlines (snd (loadHeadlines P W s))
    = JArr [tweet_headline (clock W (tick s3))].
Proof.
  intros Hsvc Hmax Hremote Htxt Hok Hbody Hdir Hpre Hpath Hne Hjson.
  set (sa := set_headlines (JArr []) (set_offlineMode true s1)) in *.
  set (h := tweet_headline (clock W (tick s3))).
  set (sb := set_headlines (JArr [h]) (next_tick s3)).
  (* the fields the fetches leave alone *)
  assert (Hk : currentService s3 = tweets /\ opts s3 = opts s).
  { run_frame (kept currentService). run_frame (kept opts).
    unfold kept in *. subst sa. cbn in *. split; congruence. }
  destruct Hk as [Hsvc3 Hopts3].
  assert (Hload : load_json W (mapItemToHeadline P) path s2 = (Ok tt, sb)).
  { apply load_json_tweet; [exact Hjson | exact Hsvc3 | now rewrite Hopts3]. }
  assert (Hempty : headlines_empty sb = (Ok false, sb)) by reflexivity.
  assert (Hresolve : resolve_lines P W tweets (fallback_lines txt) s2 = (Ok tt, sb)).
  { unfold resolve_lines, directive_stage. rewrite Hdir, Hpath.
    destruct (String.eqb_spec path ""); [contradiction|].
    rewrite (run_bind_eq _ _ _ _ _ Hload), (run_bind_eq _ _ _ _ _ Hempty).
    cbn [when]. unfold mret at 1, M_ret at 1.
    erewrite run_bind_eq by reflexivity.
    rewrite (run_bind_eq _ _ _ _ _ Hempty). reflexivity. }
  assert (Hfallback : loadFallbackFromTxt P W sa = (Ok tt, sb)).
  { unfold loadFallbackFromTxt, try_catch.
    assert (Hsa : currentService sa = tweets).
    { run_frame (kept currentService). unfold kept in *. subst sa. cbn. congruence. }
    rewrite (run_bind_eq _ _ sa tweets sa) by (unfold gets; now rewrite Hsa).
    rewrite (run_bind_eq _ _ _ _ _ Htxt). rewrite Hok. cbn [negb].
    rewrite Hbody. unfold lift at 1.
    erewrite run_bind_eq by reflexivity.
    rewrite Hresolve. reflexivity. }
  assert (Hrender : fst (renderHeadlines P W sb) = Ok tt).
  { apply (renderHeadlines_plain_returns sb [h]); [reflexivity|].
    constructor; [reflexivity | constructor]. }
  pose proof (renderHeadlines_keeps_headlines P W sb) as Hkeep.
  destruct (renderHeadlines P W sb) as [r sc] eqn:Er. cbn [fst snd] in *. subst r.
  assert (Hrun : loadHeadlines P W s = (Ok Fallback, sc));
    [| rewrite Hrun; split; [reflexivity | exact Hkeep]].
  unfold loadHeadlines, try_catch. rewrite Hremote.
  unfold recover.
  change ((modify (set_offlineMode true) ≫= ?k) s1) with (k tt (set_offlineMode true s1)).
  cbv beta.
  change ((modify (set_headlines (JArr [])) ≫= ?k) (set_offlineMode true s1))
    with (k tt sa).
  cbv beta.
  rewrite (run_bind_eq _ _ _ _ _ Hfallback), (run_bind_eq _ _ _ _ _ Hempty).
  cbn [when]. unfold mret at 1, M_ret at 1.
  erewrite run_bind_eq by reflexivity.
  assert (Hnon : headlines_nonempty P sb = (Ok true, sb)) by reflexivity.
  rewrite (run_bind_eq _ _ _ _ _ Hnon). cbn [when].
  rewrite (run_bind_eq _ _ _ _ _ Er). reflexivity.
Qed.
End Tweets.

(** ** The sort of the sports feed *)

Section SportsSort.
Context (P : Platform).

Lemma isPlymouth_record x :
  feed_record x = true -> isPlymouth x = Ok (priority x).
Proof.
  destruct x as [| | | | |fs]; try discriminate.
  unfold feed_record, isPlymouth, priority, field. cbn [get].
  unfold mbind, result_bind.
  destruct (lookup_field "source" fs) as [[| | |src| |]|]; try discriminate;
    intros _; cbn [or_else truthy].
  - destruct (String.eqb_spec src ""); cbn [negb]; [subst|]; reflexivity.
  - reflexivity.
Qed.

Lemma ts_record x :
  feed_record x = true ->
  exists v, get x "ts" = Ok v /\ ToNumber P (Some (or_else v (JNum 0))) = Ok (Num (ts_of x)).
Proof.
  destruct x as [| | | | |fs]; try discriminate.
  unfold feed_record, ts_of, field. cbn [get].
  destruct (lookup_field "source" fs) as [[| | |src| |]|]; try discriminate;
    (destruct (lookup_field "ts" fs) as [[| |n| | |]|]; try discriminate; intros _;
     eexists; (split; [reflexivity|]); cbn [or_else truthy];
     try reflexivity;
     destruct (Z.eqb_spec n 0); cbn [negb ToNumber]; [subst|]; reflexivity).
Qed.

Lemma compareHeadlines_records a b :
  feed_record a = true -> feed_record b = true ->
  compareHeadlines P sports a b = Ok (Num (order a b)).
Proof.
  intros Ha Hb. unfold compareHeadlines, order.
  change (service_eqb sports sports) with true. cbv iota.
  rewrite (isPlymouth_record a Ha), (isPlymouth_record b Hb).
  unfold mbind, result_bind.
  destruct (ts_record a Ha) as (va & Hga & Hna).
  destruct (ts_record b Hb) as (vb & Hgb & Hnb).
  destruct (priority a), (priority b); cbn [andb negb]; try reflexivity;
    rewrite Hgb, Hga, Hnb, Hna; reflexivity.
Qed.

Lemma order_before x y : order x y <= 0 <-> before x y.
Proof.
  unfold order, before.
  destruct (priority x), (priority y); cbn [andb negb]; split;
    try (intros H; split; [congruence || tauto | (intros; lia) || discriminate]);
    try (intros [H1 H2]); try lia; try (specialize (H2 eq_refl); lia);
    try (specialize (H1 eq_refl); discriminate).
Qed.

Lemma before_trans x y z : before x y -> before y z -> before x z.
Proof.
  unfold before.
  destruct (priority x), (priority y), (priority z); intros [A1 A2] [B1 B2];
    split; intros; try congruence; try tauto;
    try (specialize (A2 eq_refl)); try (specialize (B2 eq_refl)); try lia;
    try (specialize (A1 eq_refl); discriminate);
    try (specialize (B1 eq_refl); discriminate).
Qed.

Lemma order_flip x y : 0 < order x y -> before y x.
Proof.
  intros H. apply order_before. revert H. unfold order.
  destruct (priority x), (priority y); cbn [andb negb]; lia.
Qed.

Lemma insert_sorted_records x l :
  feed_record x = true ->
  Forall (fun y => feed_record y = true) l ->
  StronglySorted before l ->
  exists r, insert_sorted (compareHeadlines P sports) x l = Ok r /\
            Permutation r (x :: l) /\ StronglySorted before r.
Proof.
  intros Hx Hall Hsorted. induction l as [|y l IH]; cbn [insert_sorted].
  - exists [x]. repeat split; auto. repeat constructor.
  - apply Forall_cons in Hall as [Hy Hall].
    apply StronglySorted_inv in Hsorted as [Hsorted Hy_le].
    rewrite (compareHeadlines_records x y Hx Hy). unfold mbind, result_bind.
    cbn [num_lt]. destruct (Z.ltb_spec 0 (order x y)) as [Hgt|Hle].
    + destruct (IH Hall Hsorted) as (r & -> & Hperm & Hr).
      exists (y :: r). split; [reflexivity|]. split.
      * rewrite Hperm. apply perm_swap.
      * constructor; [exact Hr|].
        eapply Permutation_Forall; [symmetry; exact Hperm|].
        constructor; [now apply order_flip | exact Hy_le].
    + exists (x :: y :: l). split; [reflexivity|]. split; [reflexivity|].
      assert (Hxy : before x y) by now apply order_before.
      constructor; [constructor; assumption|].
      constructor; [exact Hxy|].
      eapply Forall_impl; [exact Hy_le|]. intros z Hz. cbv beta in *.
      eapply before_trans; eassumption.
Qed.

Lemma sort_records l :
  Forall (fun y => feed_record y = true) l ->
  exists r, sort (compareHeadlines P sports) l = Ok r /\
            Permutation r l /\ StronglySorted before r.
Proof.
  induction l as [|x l IH]; intros Hall; cbn [sort].
  - exists []. repeat split; auto. constructor.
  - apply Forall_cons in Hall as [Hx Hall].
    destruct (IH Hall) as (r & -> & Hperm & Hr). unfold mbind, result_bind.
    destruct (insert_sorted_records x r Hx) as (r' & Hins & Hperm' & Hr'); auto.
    { eapply Permutation_Forall; [symmetry; exact Hperm | exact Hall]. }
    exists r'. split; [exact Hins|]. split; [|exact Hr'].
    rewrite Hperm'. now constructor.
Qed.

Lemma StronglySorted_firstn {A} (R : A -> A -> Prop) k l :
  StronglySorted R l -> StronglySorted R (firstn k l).
Proof.
  revert k. induction l as [|x l IH]; intros k Hs.
  - rewrite firstn_nil. constructor.
  - destruct k; [constructor|]. cbn [firstn].
    apply StronglySorted_inv in Hs as [Hs Hx].
    constructor; [now apply IH|].
    apply Forall_forall. intros y Hy.
    rewrite Forall_forall in Hx. apply Hx.
    eapply subseteq_take. exact Hy.
Qed.

Lemma StronglySorted_lookup {A} (R : A -> A -> Prop) (l : list A) :
  StronglySorted R l ->
  forall i j x y, (i < j)%nat -> l !! i = Some x -> l !! j = Some y -> R x y.
Proof.
  induction 1 as [|a l Hs IH Ha]; intros i j x y Hij Hi Hj.
  - discriminate Hi.
  - destruct j as [|j]; [lia|]. cbn in Hj.
    destruct i as [|i]; cbn in Hi.
    + injection Hi as <-. rewrite Forall_forall in Ha. apply Ha.
      eapply list_elem_of_lookup_2. exact Hj.
    + eapply IH; [|exact Hi|exact Hj]. lia.
Qed.
End SportsSort.

Section SportsFeed.
Import Scenario.
Context (P : Platform) (W : World).

Lemma sports_feed_sorted s s' resp items :
  currentService s = sports ->
  net W (tick s) (endpoint_of (opts s) sports) = Ok resp ->
  body_json resp = Ok (JArr items) ->
  Forall (fun x => feed_record x = true) items ->
  loadHeadlines P W s = (Ok Remote, s') ->
  exists sorted,
    Permutation sorted items /\ StronglySorted before sorted /\
    headlines s' = JArr (slice0 (maxHeadlines (opts s)) sorted).
Proof.
  intros Hsvc Hnet Hbody Hall H. unfold loadHeadlines in H.
  apply run_try_catch in H as [(a & H & [= <-]) | (e & s1 & _ & H)];
    [| apply recover_offline in H as [_ Hne]; now elim Hne].
  unfold load_remote in H. run_Ok H. run_cases.
  match goal with
  | Hr : renderHeadlines _ _ ?sa = (_, ?sb) |- _ =>
      assert (Hkeep : kept headlines sa sb)
        by (apply (fun Hs : steps (kept headlines) _ => Hs sa _ sb Hr); frames);
      clear Hr
  end.
  run_prims.
  cbn [tick opts currentService headlines set_headlines next_tick set_offlineMode
       set_lastUpdate] in *.
  rewrite Hsvc in *.
  match goal with
  | Hn : Ok ?r = net _ _ _ |- _ => rewrite Hnet in Hn; injection Hn as ->
  end.
  match goal with
  | Hb : Ok _ = body_json _ |- _ => rewrite Hbody in Hb; injection Hb as ->
  end.
  destruct (sort_records P items Hall) as (sorted & Hsort & Hperm & Hsorted).
  match goal with
  | Hs : Ok ?r = sort _ _ |- _ => rewrite Hsort in Hs; injection Hs as ->
  end.
  exists sorted. split; [exact Hperm|]. split; [exact Hsorted|].
  unfold kept in Hkeep. cbn in Hkeep. exact Hkeep.
Qed.

(** The scenario of the specification, on any engine and in any browser
    that answers the sports request with [[A, B]]. *)
Lemma sports_scenario s :
  currentService s = sports ->
  2 <= maxHeadlines (opts s) ->
  net W (tick s) (endpoint_of (opts s) sports)
    = Ok (json_response (JArr [headline_A; headline_B])) ->
  fst (loadHeadlines P W s) = Ok Remote /\
  headlines (snd (loadHeadlines P W s)) = JArr [headline_B; headline_A].
Proof.
  intros Hsvc Hmax Hnet.
  set (sb := set_offlineMode false
               (set_headlines (JArr [headline_B; headline_A])
                  (next_tick (set_headlines (JArr []) s)))).
  assert (Hrender : fst (renderHeadlines P W sb) = Ok tt).
  { apply (renderHeadlines_plain_returns P W sb [headline_B; headline_A]);
      [reflexivity|]. repeat constructor. }
  pose proof (renderHeadlines_keeps_headlines P W sb) as Hkeep.
  destruct (renderHeadlines P W sb) as [r sc] eqn:Er. cbn [fst snd] in *. subst r.
  assert (Hrun : loadHeadlines P W s
                 = (Ok Remote, set_lastUpdate (clock W (tick sc)) (next_tick sc)));
    [| rewrite Hrun; split; [reflexivity | exact Hkeep]].
  unfold loadHeadlines, try_catch, load_remote.
  unfold mbind at 1 2 3 4, M_bind at 1 2 3 4, modify at 1, gets at 1 2, fetch at 1.
  cbn [tick opts currentService set_headlines]. rewrite Hsvc, Hnet.
  cbn [ok negb json_response body_json].
  erewrite run_bind_eq by reflexivity.
  erewrite run_bind_eq by reflexivity.
  erewrite run_bind_eq by reflexivity.
  erewrite run_bind_eq by reflexivity.
  replace (slice0 (maxHeadlines (opts s)) [headline_B; headline_A])
    with [headline_B; headline_A].
  2:{ unfold slice0. destruct (Z.ltb_spec (maxHeadlines (opts s)) 0); [lia|].
      cbn [List.length]. replace (Z.min _ _) with 2 by lia. reflexivity. }
  erewrite run_bind_eq by reflexivity.
  erewrite run_bind_eq by reflexivity.
  fold sb. rewrite (run_bind_eq _ _ _ _ _ Er).
  reflexivity.
Qed.

(** C3. For the sports service, after a resolution with outcome Remote on
    a feed of records, the resolved list is the first [maxHeadlines] items
    of a permutation of the feed in which, of any two records, the earlier
    one is a priority record if the later one is (so every priority record
    precedes every other record, whatever their timestamps), and has the
    greater or equal [ts] (0 when missing) if both are, or both are not,
    priority records. In particular the feed [[A, B]] of the scenario
    resolves to [[B, A]]. *)
Theorem sports_priority_order :
  (forall s s' resp items,
     currentService s = sports ->
     net W (tick s) (endpoint_of (opts s) sports) = Ok resp ->
     body_json resp = Ok (JArr items) ->
     Forall (fun x => feed_record x = true) items ->
     loadHeadlines P W s = (Ok Remote, s') ->
     exists sorted resolved,
       Permutation sorted items /\
       resolved = slice0 (maxHeadlines (opts s)) sorted /\
       headlines s' = JArr resolved /\
       forall i j x y, (i < j)%nat ->
         resolved !! i = Some x -> resolved !! j = Some y -> before x y) /\
  (forall s,
     currentService s = sports ->
     2 <= maxHeadlines (opts s) ->
     net W (tick s) (endpoint_of (opts s) sports)
       = Ok (json_response (JArr [headline_A; headline_B])) ->
     fst (loadHeadlines P W s) = Ok Remote /\
     headlines (snd (loadHeadlines P W s)) = JArr [headline_B; headline_A]).
Proof.
  split.
  - intros s s' resp items Hsvc Hnet Hbody Hall Hrun.
    destruct (sports_feed_sorted s s' resp items Hsvc Hnet Hbody Hall Hrun)
      as (sorted & Hperm & Hsorted & Hh).
    exists sorted, (slice0 (maxHeadlines (opts s)) sorted).
    split; [exact Hperm|]. split; [reflexivity|]. split; [exact Hh|].
    intros i j x y Hij Hi Hj.
    destruct (slice0_prefix (maxHeadlines (opts s)) sorted) as [k Hk].
    rewrite Hk in Hi, Hj.
    exact (StronglySorted_lookup before _
             (StronglySorted_firstn before k sorted Hsorted) i j x y Hij Hi Hj).
  - apply sports_scenario.
Qed.
End SportsFeed.

(** ** Exceptions *)

Section Raises.
Import Scenario.
Context (P : Platform) (W : World).

(** The three stages swallow every exception. *)
Lemma saveToCache_returns s : fst (saveToCache W s) = Ok tt.
Proof. apply try_catch_swallow. Qed.

Lemma loadFromCache_returns s : fst (loadFromCache P W s) = Ok tt.
Proof. apply try_catch_swallow. Qed.

Lemma loadFallbackFromTxt_returns s : fst (loadFallbackFromTxt P W s) = Ok tt.
Proof. apply try_catch_swallow. Qed.

(** An exception of [loadHeadlines] comes from the last two statements of
    its [catch] block: the test [this.headlines.length > 0] and the render
    it guards. *)
Lemma loadHeadlines_raises_late s e :
  fst (loadHeadlines P W s) = Throw e ->
  exists s2,
    fst ((ne ← headlines_nonempty P; when ne (renderHeadlines P W)) s2) = Throw e.
Proof.
  unfold loadHeadlines, try_catch.
  destruct (load_remote P W s) as [[a|e0] s1]; [discriminate|].
  unfold recover.
  change ((modify (set_offlineMode true) ≫= ?k) s1) with (k tt (set_offlineMode true s1)).
  cbv beta.
  change ((modify (set_headlines (JArr [])) ≫= ?k) (set_offlineMode true s1))
    with (k tt (set_headlines (JArr []) (set_offlineMode true s1))).
  cbv beta.
  set (sa := set_headlines (JArr []) (set_offlineMode true s1)).
  pose proof (loadFallbackFromTxt_returns sa) as Hf.
  destruct (loadFallbackFromTxt P W sa) as [rf sb] eqn:Ef. cbn [fst] in Hf. subst rf.
  rewrite (run_bind_eq _ _ _ _ _ Ef).
  assert (He : exists b, headlines_empty sb = (Ok b, sb)).
  { unfold headlines_empty, mbind, M_bind, gets, lift.
    destruct (negb (truthy (headlines sb))) eqn:Et; [eauto|].
    destruct (headlines sb); try discriminate Et; cbn; eauto. }
  destruct He as [b He]. rewrite (run_bind_eq _ _ _ _ _ He).
  assert (Hc : exists sc, when b (loadFromCache P W) sb = (Ok tt, sc)).
  { destruct b; cbn [when]; [|eexists; reflexivity].
    pose proof (loadFromCache_returns sb) as Hc.
    destruct (loadFromCache P W sb) as [rc sc]. cbn [fst] in Hc. subst rc. eauto. }
  destruct Hc as [sc Hc]. rewrite (run_bind_eq _ _ _ _ _ Hc).
  intros H. exists sc. revert H.
  unfold mbind, M_bind.
  destruct (headlines_nonempty P sc) as [[ne|e1] sd];
    [| cbn; intros [= ->]; reflexivity].
  destruct (when ne (renderHeadlines P W) sd) as [[[]|e2] se]; [discriminate|].
  cbn. intros [= ->]. reflexivity.
Qed.
End Raises.

Section RaisesExample.
Import Scenario.

(** C1 fails on the code. With no network and a fresh cache entry whose
    list holds a [null] item, [loadFromCache] swallows the exception of its
    own render but leaves the list in [headlines]; the render at the end of
    the [catch] block then throws, and [loadHeadlines] raises. *)
Theorem loadHeadlines_raises_on_null_cached_item (P : Platform) :
  let s := cached news (JArr [JNull]) 1700000000000 (fresh_ticker news) in
  fst (loadHeadlines P offline_world s) = Throw TypeError /\
  headlines (snd (loadHeadlines P offline_world s)) = JArr [JNull].
Proof. cbv zeta. split; vm_compute; reflexivity. Qed.
End RaisesExample.

(** ** The theorems at work

    Each theorem above that has hypotheses, applied to a scenario. *)

Section Witnesses.
Import Scenario.

Lemma fallback_list_is_cached_witness :
  let s := fresh_ticker tweets in
  let s' := snd (loadHeadlines engine tweets_fallback_world s) in
  loadHeadlines engine tweets_fallback_world s = (Ok Fallback, s') /\
  exists k,
    (tick s <= k)%nat /\ tick s' = S (S k) /\
    (storage_fault tweets_fallback_world (S k) = false ->
     localStorage s' !! cacheKey (currentService s)
       = Some (Text (cache_entry (headlines s') (clock tweets_fallback_world k)))).
Proof.
  cbv zeta. split; [vm_compute; reflexivity|].
  apply (fallback_list_is_cached engine tweets_fallback_world).
  vm_compute. reflexivity.
Defined.

Lemma sports_priority_order_witness :
  let s := fresh_ticker sports in
  let s' := snd (loadHeadlines engine sports_world s) in
  headlines s' = JArr [headline_B; headline_A] /\
  exists sorted resolved,
    Permutation sorted [headline_A; headline_B] /\
    resolved = slice0 (maxHeadlines (opts s)) sorted /\
    headlines s' = JArr resolved /\
    forall i j x y, (i < j)%nat ->
      resolved !! i = Some x -> resolved !! j = Some y -> before x y.
Proof.
  cbv zeta. split.
  - apply (proj2 (sports_priority_order engine sports_world) (fresh_ticker sports));
      [reflexivity | vm_compute; discriminate | reflexivity].
  - apply (proj1 (sports_priority_order engine sports_world) (fresh_ticker sports)
             _ (json_response (JArr [headline_A; headline_B])));
      [reflexivity | reflexivity | reflexivity | repeat constructor
      | vm_compute; reflexivity].
Defined.

Lemma cache_ttl_witness :
  let fresh := cached news (JArr [headline_A]) 1700000000000 (fresh_ticker news) in
  let stale := cached news (JArr [headline_A]) 0 (fresh_ticker news) in
  headlines (snd (loadFromCache engine offline_world fresh)) = JArr [headline_A] /\
  (headlines (snd (loadFromCache engine offline_world stale)) = headlines stale /\
   localStorage (snd (loadFromCache engine offline_world stale)) !! cacheKey news = None /\
   localStorage (snd (loadFromCache engine offline_world stale))
     = delete (cacheKey news) (localStorage stale)).
Proof.
  cbv zeta. split.
  - assert (Hentry :
      localStorage (cached news (JArr [headline_A]) 1700000000000 (fresh_ticker news))
        !! cacheKey (currentService
                       (cached news (JArr [headline_A]) 1700000000000 (fresh_ticker news)))
      = Some (Text (cache_entry (JArr [headline_A]) 1700000000000)))
      by (vm_compute; reflexivity).
    apply (proj1 (cache_ttl engine offline_world _ [headline_A] 1700000000000
                    Hentry eq_refl)).
    vm_compute. reflexivity.
  - assert (Hentry :
      localStorage (cached news (JArr [headline_A]) 0 (fresh_ticker news))
        !! cacheKey (currentService
                       (cached news (JArr [headline_A]) 0 (fresh_ticker news)))
      = Some (Text (cache_entry (JArr [headline_A]) 0)))
      by (vm_compute; reflexivity).
    apply (proj2 (cache_ttl engine offline_world _ [headline_A] 0 Hentry eq_refl)).
    + vm_compute. discriminate.
    + reflexivity.
Defined.


Lemma resolved_list_truncated_witness :
  let s := capped_ticker sports in
  exists l,
    headlines (snd (loadHeadlines engine sports_world s)) = JArr l /\
    Z.of_nat (List.length l) <= maxHeadlines (opts s).
Proof.
  cbv zeta.
  apply (resolved_list_truncated engine sports_world (capped_ticker sports) Remote).
  - vm_compute. discriminate.
  - vm_compute. reflexivity.
  - left. reflexivity.
Defined.

Lemma tweets_directive_scenario_witness :
  let run := loadHeadlines engine tweets_fallback_world (fresh_ticker tweets) in
  fst run = Ok Fallback /\
  headlines (snd run) = JArr [tweet_headline 1700000000003].
Proof.
  cbv zeta.
  pose (s1 := snd (load_remote engine tweets_fallback_world (fresh_ticker tweets))).
  pose (s2 := snd (fetch_fallback_txt tweets_fallback_world tweets
                     (set_headlines (JArr []) (set_offlineMode true s1)))).
  pose (s3 := snd (fetch_json tweets_fallback_world "/data/t.json" s2)).
  refine (tweets_directive_scenario engine tweets_fallback_world (fresh_ticker tweets)
            NetworkError s1 _ _ "tweets-file /data/t.json" "/data/t.json" s2 s3
            _ _ _ _ _ _ _ _ _ _ _);
    try reflexivity.
  all: first [discriminate | vm_compute; discriminate].
Defined.

Lemma cache_round_trip_witness :
  let s0 := set_headlines (JArr [headline_A]) (fresh_ticker news) in
  let s := set_headlines (JArr []) (snd (saveToCache offline_world s0)) in
  headlines (snd (loadFromCache engine offline_world s)) = JArr [headline_A].
Proof.
  cbv zeta.
  apply (cache_round_trip engine offline_world
           (set_headlines (JArr [headline_A]) (fresh_ticker news)));
    reflexivity.
Defined.

Lemma cache_hit_extends_lifetime_witness :
  let s := cached news (JArr [headline_A]) 0 (fresh_ticker news) in
  3600000 <= clock slow_world 6 - 0 /\
  Forall (holds (cacheKey news) [headline_A])
         (poll_cache engine slow_world [0%nat; 0%nat] s).
Proof.
  cbv zeta. split; [vm_compute; discriminate|].
  assert (Hne : [headline_A] <> []) by discriminate.
  assert (Hplain : Forall (fun h => plain_item h = true) [headline_A])
    by (repeat constructor).
  assert (Hfault : forall k, storage_fault slow_world k = false)
    by (intros; reflexivity).
  assert (Hmono : forall i j, (i <= j)%nat -> clock slow_world i <= clock slow_world j)
    by (intros i j Hij; cbn; lia).
  apply (proj2 (cache_hit_extends_lifetime engine slow_world [headline_A]
                  Hne Hplain Hfault Hmono)
           [0%nat; 0%nat]
           (cached news (JArr [headline_A]) 0 (fresh_ticker news)) 0).
  - vm_compute. reflexivity.
  - vm_compute. repeat split.
Defined.
End Witnesses.

(** * Further properties of the pipeline *)

(** ** One service, one cache key *)

Lemma cacheKey_inj a b : cacheKey a = cacheKey b -> a = b.
Proof. destruct a, b; intros H; try reflexivity; vm_compute in H; discriminate H. Qed.

#[global] Instance others_kept_preorder svc : PreOrder (others_kept svc).
Proof.
  split.
  - intros s Hs. split; [exact Hs | reflexivity].
  - intros a b c Hab Hbc Ha. destruct (Hab Ha) as [Hb Hkab].
    destruct (Hbc Hb) as [Hc Hkbc]. split; [exact Hc|].
    intros key Hkey. rewrite (Hkbc key Hkey). apply Hkab, Hkey.
Qed.

Section Isolation.
Context (P : Platform) (W : World) (svc : service).

(** The setters of the ticker's own fields and the event counter. *)
Lemma others_kept_tick s : others_kept svc s (next_tick s).
Proof. intros Hs. split; [exact Hs | reflexivity]. Qed.

Lemma others_kept_headlines s h : others_kept svc s (set_headlines h s).
Proof. intros Hs. split; [exact Hs | reflexivity]. Qed.

Lemma others_kept_list s l : others_kept svc s (set_tickerList l s).
Proof. intros Hs. split; [exact Hs | reflexivity]. Qed.

Lemma others_kept_position s x : others_kept svc s (set_currentPosition x s).
Proof. intros Hs. split; [exact Hs | reflexivity]. Qed.

Lemma others_kept_offline s b : others_kept svc s (set_offlineMode b s).
Proof. intros Hs. split; [exact Hs | reflexivity]. Qed.

Lemma others_kept_update s t : others_kept svc s (set_lastUpdate t s).
Proof. intros Hs. split; [exact Hs | reflexivity]. Qed.

(** A statement that reads [currentService] continues with [svc]. *)
Lemma steps_gets_service {B} (k : service -> M B) :
  steps (others_kept svc) (k svc) ->
  steps (others_kept svc) (gets currentService ≫= k).
Proof.
  intros Hk s r s' H Hs.
  unfold mbind, M_bind, gets in H. rewrite Hs in H. exact (Hk _ _ _ H Hs).
Qed.

Lemma setItem_others_kept v : steps (others_kept svc) (setItem W (cacheKey svc) v).
Proof.
  intros s r s' H Hs. unfold setItem in H.
  destruct (storage_fault W (tick s)); injection H as <- <-;
    (split; [exact Hs|]); intros key Hkey; cbn; [reflexivity|].
  apply lookup_insert_ne. congruence.
Qed.

Lemma removeItem_others_kept : steps (others_kept svc) (removeItem W (cacheKey svc)).
Proof.
  intros s r s' H Hs. unfold removeItem in H.
  destruct (storage_fault W (tick s)); injection H as <- <-;
    (split; [exact Hs|]); intros key Hkey; cbn; [reflexivity|].
  apply lookup_delete_ne. congruence.
Qed.

Lemma saveToCache_others_kept : steps (others_kept svc) (saveToCache W).
Proof.
  pose proof others_kept_tick.
  unfold saveToCache. apply steps_try_catch; [typeclasses eauto | | intros; frames].
  apply steps_gets_service.
  repeat first [apply setItem_others_kept | steps_structure | steps_call].
Qed.

Lemma renderHeadlines_others_kept : steps (others_kept svc) (renderHeadlines P W).
Proof.
  pose proof others_kept_tick. pose proof others_kept_list.
  pose proof others_kept_position.
  unfold renderHeadlines.
  repeat first [apply saveToCache_others_kept | steps_structure | steps_call
               | steps_method].
Qed.

Lemma loadFromCache_others_kept : steps (others_kept svc) (loadFromCache P W).
Proof.
  pose proof others_kept_tick. pose proof others_kept_headlines.
  unfold loadFromCache. apply steps_try_catch; [typeclasses eauto | | intros; frames].
  apply steps_gets_service.
  repeat first [apply renderHeadlines_others_kept | apply removeItem_others_kept
               | steps_structure | steps_call].
Qed.

Lemma loadHeadlines_others_kept : steps (others_kept svc) (loadHeadlines P W).
Proof.
  pose proof others_kept_tick. pose proof others_kept_headlines.
  pose proof others_kept_offline. pose proof others_kept_update.
  unfold loadHeadlines, load_remote, recover.
  repeat first [apply renderHeadlines_others_kept | apply loadFromCache_others_kept
               | steps_structure | steps_call | steps_method].
Qed.
End Isolation.

Section IsolationTheorem.
Context (P : Platform) (W : World).

(** X1. The cache is read and written under the key of the service that
    is current at the call. The three synchronous methods that touch the
    store ([saveToCache], [renderHeadlines], [loadFromCache]) leave the
    entry of every other service as it was, whether they return or raise.
    So does a whole resolution ([loadHeadlines]), provided it runs to its
    end before another event is handled, that is, provided no service
    switch happens while one of its fetches is pending. *)
Theorem other_services_cache_untouched s other :
  other <> currentService s ->
  localStorage (snd (saveToCache W s)) !! cacheKey other
    = localStorage s !! cacheKey other /\
  localStorage (snd (renderHeadlines P W s)) !! cacheKey other
    = localStorage s !! cacheKey other /\
  localStorage (snd (loadFromCache P W s)) !! cacheKey other
    = localStorage s !! cacheKey other /\
  localStorage (snd (loadHeadlines P W s)) !! cacheKey other
    = localStorage s !! cacheKey other.
Proof.
  intros Hother.
  assert (Hkey : cacheKey other <> cacheKey (currentService s)).
  { intros Hk. apply cacheKey_inj in Hk. contradiction. }
  assert (Hrun : forall {A} (m : M A),
            steps (others_kept (currentService s)) m ->
            localStorage (snd (m s)) !! cacheKey other
              = localStorage s !! cacheKey other).
  { intros A m Hm. destruct (m s) as [r s'] eqn:E. cbn [snd].
    destruct (Hm _ _ _ E eq_refl) as [_ Hkeys]. apply Hkeys, Hkey. }
  split; [|split; [|split]]; apply Hrun.
  - apply saveToCache_others_kept.
  - apply renderHeadlines_others_kept.
  - apply loadFromCache_others_kept.
  - apply loadHeadlines_others_kept.
Qed.
End IsolationTheorem.

(** ** Resolutions without a network *)

Section Unreachable.
Context (P : Platform) (W : World).
Hypothesis Hnet : unreachable W.

Lemma fetch_unreachable url s :
  (exists e, fetch W url s = (Throw e, next_tick s)) \/
  (exists r, fetch W url s = (Ok r, next_tick s) /\ ok r = false).
Proof.
  unfold fetch. pose proof (Hnet (tick s) url) as H.
  destruct (net W (tick s) url) as [r|e]; [right | left]; eauto.
Qed.

Lemma load_remote_unreachable s :
  exists e, load_remote P W s = (Throw e, next_tick (set_headlines (JArr []) s)).
Proof.
  unfold load_remote.
  erewrite run_bind_eq by reflexivity.
  erewrite run_bind_eq by reflexivity.
  erewrite run_bind_eq by reflexivity.
  destruct (fetch_unreachable
              (endpoint_of (opts (set_headlines (JArr []) s))
                 (currentService (set_headlines (JArr []) s)))
              (set_headlines (JArr []) s)) as [[e He] | (r & Hr & Hok)].
  - exists e. unfold mbind at 1, M_bind at 1. cbn [gets opts currentService set_headlines] in *.
    rewrite He. reflexivity.
  - exists (HttpError (status r)).
    cbn [gets opts currentService set_headlines] in *.
    rewrite (run_bind_eq _ _ _ _ _ Hr), Hok. reflexivity.
Qed.

Lemma fetch_fallback_txt_unreachable svc s :
  exists n, (n <= 4)%nat /\
    ((exists e, fetch_fallback_txt W svc s = (Throw e, advance n s)) \/
     (exists r, fetch_fallback_txt W svc s = (Ok r, advance n s) /\ ok r = false)).
Proof.
  unfold fetch_fallback_txt. cbv zeta.
  destruct (fetch_unreachable ("/" +:+ "backup-" +:+ fallback_file svc) s)
    as [[e He] | (r1 & H1 & Hok1)].
  { exists 1%nat. split; [lia|]. left. exists e. unfold mbind, M_bind. rewrite He.
    reflexivity. }
  rewrite (run_bind_eq _ _ _ _ _ H1), Hok1.
  destruct (fetch_unreachable ("backup-" +:+ fallback_file svc) (next_tick s))
    as [[e He] | (r2 & H2 & Hok2)].
  { exists 2%nat. split; [lia|]. left. exists e. unfold mbind, M_bind. rewrite He.
    reflexivity. }
  rewrite (run_bind_eq _ _ _ _ _ H2), Hok2.
  destruct (fetch_unreachable ("/" +:+ fallback_file svc) (next_tick (next_tick s)))
    as [[e He] | (r3 & H3 & Hok3)].
  { exists 3%nat. split; [lia|]. left. exists e. unfold mbind, M_bind. rewrite He.
    reflexivity. }
  rewrite (run_bind_eq _ _ _ _ _ H3), Hok3.
  destruct (fetch_unreachable (fallback_file svc)
              (next_tick (next_tick (next_tick s)))) as [[e He] | (r4 & H4 & Hok4)].
  { exists 4%nat. split; [lia|]. left. exists e. exact He. }
  exists 4%nat. split; [lia|]. right. exists r4. split; [exact H4 | exact Hok4].
Qed.

(** Without a network the static fallback changes nothing but the event
    counter. *)
Lemma loadFallbackFromTxt_unreachable s :
  exists n, (n <= 4)%nat /\ loadFallbackFromTxt P W s = (Ok tt, advance n s).
Proof.
  destruct (fetch_fallback_txt_unreachable (currentService s) s)
    as (n & Hn & [[e He] | (r & Hr & Hok)]); exists n; (split; [exact Hn|]);
    unfold loadFallbackFromTxt, try_catch.
  - erewrite run_bind_eq by reflexivity.
    unfold mbind, M_bind. rewrite He. reflexivity.
  - erewrite run_bind_eq by reflexivity.
    rewrite (run_bind_eq _ _ _ _ _ Hr), Hok. reflexivity.
Qed.

(** A read that finds no entry, or whose [getItem] fails, changes nothing
    but the event counter. *)
Lemma loadFromCache_miss s :
  localStorage s !! cacheKey (currentService s) = None ->
  loadFromCache P W s = (Ok tt, next_tick s).
Proof.
  intros Hget.
  unfold loadFromCache, try_catch, mbind, M_bind, gets, getItem. cbn.
  destruct (storage_fault W (tick s)); [reflexivity|].
  rewrite Hget. reflexivity.
Qed.

(** The [catch] block up to the test that guards [loadFromCache]. *)
Lemma recover_unreachable s :
  exists n, (n <= 4)%nat /\
    recover P W s =
      (when true (loadFromCache P W);;
       ne ← headlines_nonempty P;
       when ne (renderHeadlines P W);;
       mret (recovered true ne))
        (advance n (set_headlines (JArr []) (set_offlineMode true s))).
Proof.
  destruct (loadFallbackFromTxt_unreachable
              (set_headlines (JArr []) (set_offlineMode true s))) as (n & Hle & Hn).
  exists n. split; [exact Hle|]. unfold recover.
  erewrite run_bind_eq by reflexivity.
  erewrite run_bind_eq by reflexivity.
  rewrite (run_bind_eq _ _ _ _ _ Hn).
  erewrite run_bind_eq by (apply (headlines_empty_array _ []); reflexivity).
  reflexivity.
Qed.

(** X2. With no reachable network and no cache entry for the service, the
    resolution returns with the outcome Empty: the list is empty, the
    offline flag is set, and what the ticker shows, its position and the
    store are as before. *)
Theorem unreachable_without_entry_is_Empty s :
  localStorage s !! cacheKey (currentService s) = None ->
  exists s',
    loadHeadlines P W s = (Ok Empty, s') /\
    headlines s' = JArr [] /\ offlineMode s' = true /\
    tickerList s' = tickerList s /\ currentPosition s' = currentPosition s /\
    localStorage s' = localStorage s /\ lastUpdate s' = lastUpdate s.
Proof.
  intros Hget. unfold loadHeadlines, try_catch.
  destruct (load_remote_unreachable s) as [e ->].
  destruct (recover_unreachable (next_tick (set_headlines (JArr []) s)))
    as (n & Hn & ->).
  cbn [when].
  erewrite run_bind_eq by (apply loadFromCache_miss; exact Hget).
  erewrite run_bind_eq by (apply (headlines_nonempty_array _ _ []); reflexivity).
  eexists. split; [reflexivity|]. repeat split.
Qed.

(** X3. With no reachable network, an entry of the service that is an hour
    old or older when it is read (one of the six events after the start
    of the resolution) is deleted and the outcome is Empty: the list is
    empty and what the ticker shows is as before. *)
Theorem unreachable_with_expired_entry_is_Empty s hs T :
  localStorage s !! cacheKey (currentService s) = Some (Text (cache_entry hs T)) ->
  (forall k, storage_fault W k = false) ->
  (forall k, (tick s < k <= tick s + 6)%nat -> 3600000 <= clock W k - T) ->
  exists s',
    loadHeadlines P W s = (Ok Empty, s') /\
    headlines s' = JArr [] /\ offlineMode s' = true /\
    tickerList s' = tickerList s /\
    localStorage s' = delete (cacheKey (currentService s)) (localStorage s).
Proof.
  intros Hget Hfault Hage. unfold loadHeadlines, try_catch.
  destruct (load_remote_unreachable s) as [e ->].
  destruct (recover_unreachable (next_tick (set_headlines (JArr []) s)))
    as (n & Hn & ->).
  cbn [when].
  erewrite run_bind_eq.
  2:{ apply (loadFromCache_expired P W _ hs T); [exact Hget | apply Hfault ..|].
      apply Hage. cbn. lia. }
  erewrite run_bind_eq by (apply (headlines_nonempty_array _ _ []); reflexivity).
  eexists. split; [reflexivity|]. repeat split.
Qed.

(** X4. With no reachable network, a cache entry of the service that is
    less than an hour old when it is read (one of the six events after
    the start of the resolution) and holds a non-empty list of plain items
    is the list of the resolution: the outcome is Cache, the offline flag
    is set, and the entry holds the list again. *)
Theorem unreachable_with_fresh_entry_is_Cache s hs T :
  localStorage s !! cacheKey (currentService s)
    = Some (Text (cache_entry (JArr hs) T)) ->
  hs <> [] ->
  Forall (fun h => plain_item h = true) hs ->
  (forall k, storage_fault W k = false) ->
  (forall k, (tick s < k <= tick s + 6)%nat -> clock W k - T < 3600000) ->
  exists s',
    loadHeadlines P W s = (Ok Cache, s') /\
    offlineMode s' = true /\
    holds (cacheKey (currentService s)) hs s'.
Proof.
  intros Hget Hne Hall Hfault Hage. unfold loadHeadlines, try_catch.
  destruct (load_remote_unreachable s) as [e ->].
  destruct (recover_unreachable (next_tick (set_headlines (JArr []) s)))
    as (n & Hn & ->).
  cbn [when].
  set (sa := advance n _).
  destruct (loadFromCache_hit P W sa hs T) as (sb & Hrun & Hh & Hsvc & Hstore & Htick);
    auto.
  { apply Hage. cbn. lia. }
  rewrite (run_bind_eq _ _ _ _ _ Hrun).
  erewrite run_bind_eq by (apply (headlines_nonempty_array _ _ hs); exact Hh).
  replace (negb (Nat.eqb (List.length hs) 0)) with true
    by (destruct hs; [now elim Hne | reflexivity]).
  cbn [when].
  destruct (renderHeadlines_plain P W sb hs) as (sc & Hr & Hh' & Hsvc' & Hstore' & _);
    auto.
  rewrite (run_bind_eq _ _ _ _ _ Hr).
  exists sc. split; [reflexivity|]. split.
  - apply (renderHeadlines_steps P W (kept offlineMode)) in Hr; steps_side.
    apply (loadFromCache_steps P W (kept offlineMode)) in Hrun; steps_side.
    unfold kept in *. rewrite Hr, Hrun. reflexivity.
  - split; [exact Hh'|]. eexists. rewrite Hstore', Hsvc. apply lookup_insert_eq.
Qed.
End Unreachable.

(** ** The remote stage *)

(** Invert a run [H] that threw: one goal per statement that may have
    thrown, with the runs of the statements before it. *)
Ltac run_Throw H :=
  repeat
    lazymatch type of H with
    | (_ ≫= _) _ = (Throw _, _) =>
        let a := fresh "a" in
        let s1 := fresh "s" in
        let H1 := fresh "Hrun" in
        apply run_bind_Throw in H as [H | (a & s1 & H1 & H)]
    | (if ?b then _ else _) _ = _ => destruct b eqn:?
    | (match ?x with _ => _ end) _ = _ => destruct x eqn:?
    | mret _ _ = (Throw _, _) => discriminate H
    | modify _ _ = (Throw _, _) => discriminate H
    | gets _ _ = (Throw _, _) => discriminate H
    | Date_now _ _ = (Throw _, _) => discriminate H
    end.

Section RemoteStage.
Context (P : Platform) (W : World).

Lemma sort_nil cmp : sort cmp [] = Ok [].
Proof. reflexivity. Qed.

Lemma slice0_nil {A} n : slice0 n (@nil A) = [].
Proof. unfold slice0. apply firstn_nil. Qed.

(** X5. An endpoint that answers with the empty array is a success with
    nothing to show: the outcome is Remote and the offline flag is cleared,
    but nothing is rendered and nothing is written to the cache, so the
    ticker keeps the elements it showed before. *)
Theorem empty_remote_feed_keeps_display s r :
  net W (tick s) (endpoint_of (opts s) (currentService s)) = Ok r ->
  ok r = true ->
  body_json r = Ok (JArr []) ->
  exists s',
    loadHeadlines P W s = (Ok Remote, s') /\
    headlines s' = JArr [] /\ offlineMode s' = false /\
    tickerList s' = tickerList s /\ localStorage s' = localStorage s /\
    lastUpdate s' = clock W (S (tick s)).
Proof.
  intros Hres Hok Hbody. unfold loadHeadlines, try_catch, load_remote.
  erewrite run_bind_eq by reflexivity.
  erewrite run_bind_eq by reflexivity.
  erewrite run_bind_eq by reflexivity.
  erewrite run_bind_eq by (unfold fetch; cbn; rewrite Hres; reflexivity).
  rewrite Hok, Hbody. cbn [negb].
  erewrite run_bind_eq by reflexivity.
  unfold lift at 1. cbn [get String.eqb Ascii.eqb Bool.eqb length].
  erewrite run_bind_eq by reflexivity.
  erewrite run_bind_eq by reflexivity.
  rewrite sort_nil.
  erewrite run_bind_eq by reflexivity.
  rewrite slice0_nil.
  erewrite run_bind_eq by reflexivity.
  erewrite run_bind_eq by reflexivity.
  erewrite run_bind_eq by reflexivity.
  erewrite run_bind_eq by reflexivity.
  erewrite run_bind_eq by reflexivity.
  eexists. split; [reflexivity|]. repeat split.
Qed.

(** X6. When the outcome is Remote and the list is not empty, the render
    has written the list to the cache entry of the service, stamped with
    the time of the write [clock W k], unless the [setItem] call (the event
    after [k]) failed; the time of the update is read right after. *)
Theorem remote_list_is_cached s s' l :
  loadHeadlines P W s = (Ok Remote, s') ->
  headlines s' = JArr l -> l <> [] ->
  exists k,
    (tick s < k)%nat /\ tick s' = S (S (S k)) /\
    lastUpdate s' = clock W (S (S k)) /\
    (storage_fault W (S k) = false ->
     localStorage s' !! cacheKey (currentService s)
       = Some (Text (cache_entry (JArr l) (clock W k)))).
Proof.
  intros H Hl Hne. unfold loadHeadlines in H.
  apply run_try_catch in H as [(a & H & [= <-]) | (e & s1 & H & Hh)].
  2:{ apply recover_offline in Hh as [_ Hh]. now elim Hh. }
  unfold load_remote in H. run_Ok H.
  match goal with
  | Hr : renderHeadlines _ _ ?sx = (Ok ?u, ?sy) |- _ =>
      destruct u;
      assert (Hk : headlines sy = headlines sx)
        by (apply (renderHeadlines_steps P W (kept headlines)) in Hr; steps_side;
            exact Hr);
      assert (Hx : headlines sx = JArr l);
      [ | destruct (renderHeadlines_returns _ _ _ _ l Hr Hx Hne)
            as (sz & Hz1 & Hz2 & Hz3 & ->) ]
  end.
  { run_prims. cbn in *. congruence. }
  run_frame (kept currentService). run_frame later.
  run_prims. unfold kept, later in *.
  cbn [tick lastUpdate localStorage currentService headlines set_lastUpdate next_tick
       set_currentPosition set_offlineMode set_headlines] in *.
  exists (tick sz). rewrite saveToCache_tick.
  split; [lia|]. split; [reflexivity|]. split; [reflexivity|].
  intros Hf. rewrite (saveToCache_writes W sz Hf). cbn.
  replace (currentService s) with (currentService sz) by congruence.
  rewrite Hz1, Hx. apply lookup_insert_eq.
Qed.

Lemma renderHeadlines_throw_keeps_update s e s' :
  renderHeadlines P W s = (Throw e, s') -> lastUpdate s' = lastUpdate s.
Proof.
  intros H. apply (renderHeadlines_steps P W (kept lastUpdate)) in H; steps_side.
  exact H.
Qed.

(** A remote stage that throws has not reached the assignment of
    [lastUpdate]. *)
Lemma load_remote_throw_keeps_update s e s' :
  load_remote P W s = (Throw e, s') -> lastUpdate s' = lastUpdate s.
Proof.
  intros H. unfold load_remote in H. run_Throw H;
    run_frame (kept lastUpdate); run_prims; unfold kept in *; cbn in *;
    congruence.
Qed.

(** X7. [lastUpdate] is the time of the last resolution whose outcome was
    Remote: a resolution with another outcome, or one that raises, leaves
    it as it was. *)
Theorem lastUpdate_changes_only_on_Remote s :
  fst (loadHeadlines P W s) <> Ok Remote ->
  lastUpdate (snd (loadHeadlines P W s)) = lastUpdate s.
Proof.
  intros Hr. destruct (loadHeadlines P W s) as [r s'] eqn:E. cbn [fst snd] in *.
  unfold loadHeadlines in E.
  apply run_try_catch in E as [(a & H & ->) | (e & s1 & H & Hh)].
  - apply load_remote_returns in H as [-> _]. now elim Hr.
  - apply load_remote_throw_keeps_update in H.
    apply (recover_steps P W (kept lastUpdate)) in Hh; steps_side.
    unfold kept in Hh. congruence.
Qed.
End RemoteStage.

(** ** What a render leaves in the ticker *)

Section RenderShape.
Context (P : Platform) (W : World).

Lemma render_element_attributes i h s e s' :
  render_element P W i h s = (Ok e, s') ->
  data_index e = i /\ data_service e = service_name (currentService s).
Proof.
  intros H. unfold render_element in H. run_Ok H.
  repeat
    match goal with
    | Hs : sanitizeText _ _ _ = _ |- _ =>
        apply (sanitizeText_steps P (kept currentService)) in Hs
    | Hs : formatTimeAgo _ _ _ _ = _ |- _ =>
        apply (formatTimeAgo_steps P W (kept currentService)) in Hs; steps_side
    end.
  run_prims. unfold kept in *.
  cbn [data_index data_service]. split; [reflexivity|]. f_equal. congruence.
Qed.

Lemma render_elements_attributes hs : forall i s els s',
  render_elements P W i hs s = (Ok els, s') ->
  List.length els = List.length hs /\
  forall j e, els !! j = Some e ->
    data_index e = (i + j)%nat /\ data_service e = service_name (currentService s).
Proof.
  induction hs as [|h hs IH]; intros i s els s' H; cbn [render_elements] in H.
  - apply mret_run in H as [[= ->] _]. split; [reflexivity|].
    intros j e Hj. discriminate Hj.
  - run_Ok H.
    match goal with
    | He : render_element _ _ _ _ _ = (Ok ?e0, ?s1),
      Hes : render_elements _ _ _ _ ?s1 = (Ok ?es, _) |- _ =>
        destruct (render_element_attributes _ _ _ _ _ He) as [Hi Hsvc];
        destruct (IH _ _ _ _ Hes) as [Hlen Hrest];
        assert (Hk : currentService s1 = currentService s)
          by (apply (render_element_steps P W (kept currentService)) in He;
              steps_side; exact He)
    end.
    apply mret_run in H as [[= ->] _]. split; [cbn; congruence|].
    intros [|j] e Hj; cbn in Hj.
    + injection Hj as <-. split; [lia | exact Hsvc].
    + destruct (Hrest j e Hj) as [Hj1 Hj2]. split; [lia | congruence].
Qed.





Lemma saveToCache_never_throws s e s' : saveToCache W s <> (Throw e, s').
Proof.
  intros H. pose proof (try_catch_swallow
    (svc ← gets currentService; hs ← gets headlines; now ← Date_now W;
     setItem W (cacheKey svc) (JSON_stringify (cache_entry hs now))) s) as Hs.
  fold (saveToCache W) in Hs. rewrite H in Hs. discriminate Hs.
Qed.

(** X9. A render of a list that raises (an item that is [null], or whose
    fields do not convert) has already emptied the ticker: nothing is
    shown, nothing has been written to the cache, and the scroll position
    is as it was. *)
Theorem failed_render_blanks_ticker s e s' hs :
  renderHeadlines P W s = (Throw e, s') ->
  headlines s = JArr hs ->
  tickerList s' = [] /\ localStorage s' = localStorage s /\
  currentPosition s' = currentPosition s /\ headlines s' = JArr hs.
Proof.
  intros H Hhs. unfold renderHeadlines in H. run_Throw H;
    try (exfalso; run_prims; rewrite Hhs in *; cbn in *; simplify_eq; cbn in *;
         discriminate);
    try (exfalso; eapply saveToCache_never_throws; eassumption).
  all: run_frame (kept tickerList); run_frame (kept localStorage);
    run_frame (kept currentPosition); run_frame (kept headlines);
    run_prims; unfold kept in *; cbn in *.
  all: repeat split; congruence.
Qed.
End RenderShape.

(** ** The service of the elements shown *)

#[global] Instance shows_only_preorder svc : PreOrder (shows_only svc).
Proof.
  split.
  - intros s Hs. split; [exact Hs | exact (fun H => H)].
  - intros a b c Hab Hbc Ha. destruct (Hab Ha) as [Hb Hlab].
    destruct (Hbc Hb) as [Hc Hlbc]. split; [exact Hc | exact (fun H => Hlbc (Hlab H))].
Qed.

Section ShowsOnly.
Context (P : Platform) (W : World).

(** A render, whether it returns or raises, leaves the ticker as it was or
    with elements of the current service only. *)
Lemma renderHeadlines_list s r s' :
  renderHeadlines P W s = (r, s') ->
  tickerList s' = tickerList s \/
  Forall (fun e => data_service e = service_name (currentService s)) (tickerList s').
Proof.
  intros H. unfold renderHeadlines in H. destruct r as [u|e].
  - run_Ok H.
    + left. run_prims. reflexivity.
    + right. run_cases.
      match goal with
      | Hr : render_elements _ _ _ _ _ = (Ok ?els, _) |- _ =>
          destruct (render_elements_attributes _ _ _ _ _ _ _ Hr) as [_ Hattr];
          assert (Hall : Forall (fun e => data_service e
                                          = service_name (currentService s)) els)
      end.
      { apply Forall_lookup. intros j e Hj. run_prims. apply (proj2 (Hattr j e Hj)). }
      match goal with
      | Hs : saveToCache W _ = _ |- _ =>
          apply (saveToCache_steps W (kept tickerList)) in Hs; steps_side
      end.
      run_prims. unfold kept in *. cbn in *.
      match goal with
      | Hl : tickerList _ = _ |- _ => rewrite Hl
      end.
      apply Forall_app. split; exact Hall.
  - run_Throw H;
      try (exfalso; eapply saveToCache_never_throws; eassumption);
      run_frame (kept tickerList); run_prims; unfold kept in *; cbn in *;
      first [ left; congruence
            | right;
              match goal with
              | Hl : tickerList _ = [] |- _ => rewrite Hl
              end; constructor ].
Qed.

Context (svc : service).

Lemma shows_only_tick s : shows_only svc s (next_tick s).
Proof. intros Hs. split; [exact Hs | exact (fun H => H)]. Qed.

Lemma shows_only_headlines s h : shows_only svc s (set_headlines h s).
Proof. intros Hs. split; [exact Hs | exact (fun H => H)]. Qed.

Lemma shows_only_store s m : shows_only svc s (set_localStorage m s).
Proof. intros Hs. split; [exact Hs | exact (fun H => H)]. Qed.

Lemma shows_only_offline s b : shows_only svc s (set_offlineMode b s).
Proof. intros Hs. split; [exact Hs | exact (fun H => H)]. Qed.

Lemma shows_only_update s t : shows_only svc s (set_lastUpdate t s).
Proof. intros Hs. split; [exact Hs | exact (fun H => H)]. Qed.

Lemma renderHeadlines_shows_only : steps (shows_only svc) (renderHeadlines P W).
Proof.
  intros s r s' H Hs.
  pose proof H as Hk.
  apply (renderHeadlines_steps P W (kept currentService)) in Hk; steps_side.
  unfold kept in Hk. split; [congruence|].
  unfold rendered_for.
  destruct (renderHeadlines_list _ _ _ H) as [-> | Hall]; [exact (fun H => H)|].
  intros _. rewrite Hs in Hall. exact Hall.
Qed.

Lemma loadFromCache_shows_only : steps (shows_only svc) (loadFromCache P W).
Proof.
  pose proof shows_only_tick. pose proof shows_only_headlines.
  pose proof shows_only_store.
  unfold loadFromCache.
  repeat first [apply renderHeadlines_shows_only | steps_structure | steps_call].
Qed.

Lemma loadHeadlines_shows_only : steps (shows_only svc) (loadHeadlines P W).
Proof.
  pose proof shows_only_tick. pose proof shows_only_headlines.
  pose proof shows_only_store. pose proof shows_only_offline.
  pose proof shows_only_update.
  unfold loadHeadlines, load_remote, recover.
  repeat first [apply renderHeadlines_shows_only | apply loadFromCache_shows_only
               | steps_structure | steps_call | steps_method].
Qed.
End ShowsOnly.

Section ShowsOnlyTheorem.
Context (P : Platform) (W : World).

(** X10. If every element of the ticker carries the current service in its
    [data-service] attribute, so does every element after a resolution,
    whatever its outcome: a resolution keeps the elements it found, empties
    the ticker, or fills it with elements rendered for the current
    service. *)
Theorem elements_carry_current_service s :
  rendered_for (currentService s) s ->
  rendered_for (currentService s) (snd (loadHeadlines P W s)) /\
  currentService (snd (loadHeadlines P W s)) = currentService s.
Proof.
  intros Hall. destruct (loadHeadlines P W s) as [r s'] eqn:E. cbn [snd].
  apply (loadHeadlines_shows_only P W (currentService s)) in E.
  destruct (E eq_refl) as [Hsvc Hkeep]. split; [exact (Hkeep Hall) | exact Hsvc].
Qed.
End ShowsOnlyTheorem.

(** ** The lines of the text resource *)

Lemma trimEnd_head c r : is_space c = false -> trimEnd (String c r) = String c (trimEnd r).
Proof. intros Hc. cbn. rewrite Hc. reflexivity. Qed.

Lemma trimEnd_idem s : trimEnd (trimEnd s) = trimEnd s.
Proof.
  induction s as [|c r IH]; [reflexivity|]. cbn.
  destruct (is_space c && String.eqb (trimEnd r) "") eqn:E; [reflexivity|].
  cbn. rewrite IH, E. reflexivity.
Qed.

Lemma trimStart_head s c r : trimStart s = String c r -> is_space c = false.
Proof.
  induction s as [|c0 r0 IH]; [discriminate|]. cbn.
  destruct (is_space c0) eqn:E; [exact IH|]. intros [= <- <-]. exact E.
Qed.

Lemma trimStart_fixed s c r : s = String c r -> is_space c = false -> trimStart s = s.
Proof. intros -> Hc. cbn. rewrite Hc. reflexivity. Qed.

Lemma trimStart_trim s : trimStart (trim s) = trim s.
Proof.
  unfold trim. destruct (trimStart s) as [|c r] eqn:E; [reflexivity|].
  pose proof (trimStart_head _ _ _ E) as Hc.
  rewrite (trimEnd_head _ _ Hc). cbn. rewrite Hc. reflexivity.
Qed.

Lemma trimEnd_trim s : trimEnd (trim s) = trim s.
Proof. unfold trim. apply trimEnd_idem. Qed.

(** What [trimEnd] leaves of a string that it does not change. *)
Lemma trimEnd_fixed_tail c r :
  trimEnd (String c r) = String c r ->
  trimEnd r = r /\ (is_space c = true -> r <> "").
Proof.
  cbn. destruct (is_space c && String.eqb (trimEnd r) "") eqn:E; [discriminate|].
  intros [= Hr]. split; [exact Hr|].
  intros Hc ->. rewrite Hc in E. discriminate E.
Qed.

Lemma split_ws_from_tokens s : forall b,
  trimEnd s = s ->
  exists h t,
    split_ws_from b s = h :: t /\
    Forall (fun tok => tok <> "" /\ has_space tok = false) t /\
    has_space h = false /\
    (h = "" -> s = "" \/ (b = false /\ starts_with_space s = true)).
Proof.
  induction s as [|c r IH]; intros b Hs.
  - exists "", []. repeat split; auto.
  - destruct (trimEnd_fixed_tail _ _ Hs) as [Hr Hne].
    cbn [split_ws_from]. destruct (is_space c) eqn:Hc.
    + destruct (IH true Hr) as (h & t & E & Ht & Hh & Hempty).
      assert (Hh0 : h <> "").
      { intros ->. destruct (Hempty eq_refl) as [-> | [[=] _]]. now apply Hne. }
      destruct b.
      * exists h, t. rewrite E. repeat split; auto. intros ->. now elim Hh0.
      * exists "", (h :: t). rewrite E. repeat split; auto.
    + destruct (IH false Hr) as (h & t & E & Ht & Hh & _).
      exists (String c h), t. rewrite E. repeat split; auto.
      * cbn. rewrite Hc, Hh. reflexivity.
      * intros [=].
Qed.

Section Lines.

Lemma split_cons sep s : exists h t, split sep s = h :: t.
Proof.
  induction s as [|c r (h & t & IH)]; cbn; [eauto|].
  destruct (Ascii.eqb c sep); [eauto|]. rewrite IH. eauto.
Qed.

(** Splitting at a separator distributes over a text cut at a separator. *)
Lemma split_app sep a b :
  split sep (a +:+ String sep b) = (split sep a ++ split sep b)%list.
Proof.
  induction a as [|c r IH]; simpl.
  - rewrite Ascii.eqb_refl. reflexivity.
  - destruct (Ascii.eqb c sep); [rewrite IH; reflexivity|].
    rewrite IH. destruct (split_cons sep r) as (h & t & ->). reflexivity.
Qed.

Lemma split_no_sep sep s :
  ~ In sep (list_ascii_of_string s) -> split sep s = [s].
Proof.
  induction s as [|c r IH]; cbn; [reflexivity|]. intros Hn.
  destruct (Ascii.eqb_spec c sep) as [->|_]; [elim Hn; now left|].
  rewrite IH by (intros Hin; apply Hn; now right). reflexivity.
Qed.

(** X11. The static fallback reads its text line by line. The lines of a
    text cut at a line break are the lines of the part before it followed
    by the lines of the part after it, so the order of the text is kept
    and no line depends on another. A single line gives nothing if it is
    blank or if its first character other than white space is [#], and
    gives itself without the white space around it otherwise. *)
Theorem fallback_lines_line_by_line :
  (forall a b,
     fallback_lines (a +:+ String newline b)
       = (fallback_lines a ++ fallback_lines b)%list) /\
  (forall l, ~ In newline (list_ascii_of_string l) ->
     fallback_lines l =
       if String.eqb (trim l) "" || startsWith (trim l) "#" then []
       else [trim l]).
Proof.
  split.
  - intros a b. unfold fallback_lines.
    rewrite split_app, List.map_app, List.filter_app. reflexivity.
  - intros l Hl. unfold fallback_lines. rewrite (split_no_sep _ _ Hl). cbn.
    destruct (String.eqb (trim l) ""); [reflexivity|].
    destruct (startsWith (trim l) "#"); reflexivity.
Qed.

(** X12. The tokens that [split(/\s+/)] makes of such a line are not empty
    and hold no white space: the first token is a non-empty path, and the
    second, when there is one, is not the empty string. *)
Theorem fallback_line_tokens txt l :
  In l (fallback_lines txt) ->
  split_ws l <> [] /\
  Forall (fun tok => tok <> "" /\ has_space tok = false) (split_ws l).
Proof.
  unfold fallback_lines. intros H. apply filter_In in H as [H Hf].
  apply in_map_iff in H as (raw & <- & Hraw).
  apply andb_prop in Hf as [Hne _].
  destruct (split_ws_from_tokens (trim raw) false (trimEnd_trim raw))
    as (h & t & E & Ht & Hh & Hempty).
  unfold split_ws. rewrite E. split; [discriminate|].
  constructor; [|exact Ht]. split; [|exact Hh].
  intros ->. destruct (Hempty eq_refl) as [E0 | [_ Hsp]].
  - rewrite E0 in Hne. discriminate Hne.
  - pose proof (trimStart_trim raw) as Hts.
    destruct (trim raw) as [|c r]; [discriminate Hsp|].
    cbn in Hsp, Hts. rewrite Hsp in Hts.
    assert (Hlen : forall s, (String.length (trimStart s) <= String.length s)%nat).
    { induction s as [|c0 r0 IH]; cbn; [lia|]. destruct (is_space c0); cbn; lia. }
    pose proof (Hlen r) as Hl. rewrite Hts in Hl. cbn in Hl. lia.
Qed.
End Lines.

(** ** A text resource with lines *)

Lemma slice0_nonempty {A} n (l : list A) : 1 <= n -> l <> [] -> slice0 n l <> [].
Proof.
  intros Hn Hl. unfold slice0. destruct (Z.ltb_spec n 0) as [Hlt|_]; [lia|].
  destruct l as [|x l]; [now elim Hl|]. cbn [List.length].
  destruct (Z.to_nat (Z.min n (Z.of_nat (S (List.length l))))) eqn:E; [lia|].
  discriminate.
Qed.

Section TextWithLines.
Context (P : Platform) (W : World).

Lemma directive_stage_bounded svc lines :
  steps (maintains bounded) (directive_stage P W svc lines).
Proof.
  unfold directive_stage.
  repeat first [ apply load_json_bounded | steps_structure ].
Qed.

Lemma json_line_stage_bounded lines :
  steps (maintains bounded) (json_line_stage P W lines).
Proof.
  unfold json_line_stage.
  repeat first [ apply load_json_bounded | steps_structure ].
Qed.

(** The three branches leave a list that is not empty, as the last one
    makes a headline of every line. *)
Lemma resolve_lines_nonempty svc lines s :
  bounded s -> lines <> [] -> 1 <= maxHeadlines (opts s) ->
  exists s' l,
    resolve_lines P W svc lines s = (Ok tt, s') /\
    headlines s' = JArr l /\ l <> [].
Proof.
  intros Hb Hlines Hmax. unfold resolve_lines.
  destruct (directive_stage P W svc lines s) as [r1 s1] eqn:E1.
  pose proof (directive_stage_returns P W svc lines s) as H1.
  rewrite E1 in H1. cbn [fst] in H1. subst r1.
  pose proof (directive_stage_bounded _ _ _ _ _ E1 Hb) as (l1 & Hl1 & _).
  pose proof (directive_stage_steps P W (kept opts)) as Ho1.
  specialize (Ho1 (fun s0 => eq_refl) (fun s0 h => eq_refl) svc lines _ _ _ E1).
  rewrite (run_bind_eq _ _ _ _ _ E1).
  rewrite (run_bind_eq _ _ _ _ _ (headlines_empty_array _ _ Hl1)).
  destruct (when (Nat.eqb (List.length l1) 0) (json_line_stage P W lines) s1)
    as [r2 s2] eqn:E2.
  assert (H2 : r2 = Ok tt /\ bounded s2 /\ opts s2 = opts s1).
  { destruct (Nat.eqb (List.length l1) 0); cbn [when] in E2.
    - pose proof (json_line_stage_returns P W lines s1) as H2. rewrite E2 in H2.
      split; [exact H2|]. split.
      + apply (json_line_stage_bounded _ _ _ _ E2). exists l1. split; [exact Hl1|].
        pose proof (directive_stage_bounded _ _ _ _ _ E1 Hb) as (l & Hl & Hlen).
        rewrite Hl1 in Hl. injection Hl as <-. exact Hlen.
      + pose proof (json_line_stage_steps P W (kept opts)) as Ho2.
        exact (Ho2 (fun s0 => eq_refl) (fun s0 h => eq_refl) lines _ _ _ E2).
    - apply mret_run in E2 as [-> ->]. split; [reflexivity|]. split; [|reflexivity].
      pose proof (directive_stage_bounded _ _ _ _ _ E1 Hb) as Hb1. exact Hb1. }
  destruct H2 as (-> & (l2 & Hl2 & _) & Ho2).
  rewrite (run_bind_eq _ _ _ _ _ E2).
  rewrite (run_bind_eq _ _ _ _ _ (headlines_empty_array _ _ Hl2)).
  destruct l2 as [|x l2]; cbn [List.length Nat.eqb when].
  - unfold plain_lines_stage.
    erewrite run_bind_eq by reflexivity.
    erewrite run_bind_eq by reflexivity.
    eexists _, _. split; [reflexivity|]. split; [reflexivity|].
    intros E. apply map_eq_nil in E. revert E. apply slice0_nonempty; [|exact Hlines].
    cbn. unfold kept in *. rewrite Ho2, Ho1. exact Hmax.
  - exists s2, (x :: l2). split; [reflexivity|]. split; [exact Hl2 | discriminate].
Qed.

(** X13. If the remote stage fails and the text resource of the service is
    served with at least one line (and [maxHeadlines] is at least 1), the
    fallback list is not empty, whatever becomes of the JSON resources its
    lines point to: the outcome is Fallback, or the final render raises,
    and never Cache or Empty. *)
Theorem served_text_skips_cache s e s1 res s2 txt :
  1 <= maxHeadlines (opts s) ->
  load_remote P W s = (Throw e, s1) ->
  fetch_fallback_txt W (currentService s)
    (set_headlines (JArr []) (set_offlineMode true s1)) = (Ok res, s2) ->
  ok res = true ->
  body_text res = Ok txt ->
  fallback_lines txt <> [] ->
  (fst (loadHeadlines P W s) = Ok Fallback \/
   exists e', fst (loadHeadlines P W s) = Throw e') /\
  exists l, headlines (snd (loadHeadlines P W s)) = JArr l /\ l <> [].
Proof.
  intros Hmax Hremote Htxt Hok Hbody Hlines.
  set (sa := set_headlines (JArr []) (set_offlineMode true s1)) in *.
  assert (Hk : currentService sa = currentService s /\ opts s2 = opts s).
  { run_frame (kept currentService). run_frame (kept opts).
    unfold kept in *. subst sa. cbn in *. split; congruence. }
  destruct Hk as [Hsvc Hopts].
  assert (Hb2 : bounded s2).
  { run_frame (kept headlines). unfold kept in *. subst sa. cbn in *.
    exists []. split; [assumption | cbn; lia]. }
  destruct (resolve_lines_nonempty (currentService s) (fallback_lines txt) s2 Hb2 Hlines)
    as (sb & l & Hres & Hl & Hne); [now rewrite Hopts|].
  assert (Hfallback : loadFallbackFromTxt P W sa = (Ok tt, sb)).
  { unfold loadFallbackFromTxt, try_catch.
    rewrite (run_bind_eq _ _ sa (currentService s) sa)
      by (unfold gets; now rewrite Hsvc).
    rewrite (run_bind_eq _ _ _ _ _ Htxt). rewrite Hok. cbn [negb].
    rewrite Hbody. unfold lift at 1.
    erewrite run_bind_eq by reflexivity.
    rewrite Hres. reflexivity. }
  pose proof (renderHeadlines_keeps_headlines P W sb) as Hkeep.
  destruct (renderHeadlines P W sb) as [r sc] eqn:Er. cbn [snd] in Hkeep.
  assert (Hrun : loadHeadlines P W s =
                 (match r with Ok _ => Ok Fallback | Throw e' => Throw e' end, sc)).
  { unfold loadHeadlines, try_catch. rewrite Hremote. unfold recover.
    erewrite run_bind_eq by reflexivity.
    erewrite run_bind_eq by reflexivity.
    fold sa. rewrite (run_bind_eq _ _ _ _ _ Hfallback).
    rewrite (run_bind_eq _ _ _ _ _ (headlines_empty_array _ _ Hl)).
    replace (Nat.eqb (List.length l) 0) with false
      by (destruct l; [now elim Hne | reflexivity]).
    cbn [when]. erewrite run_bind_eq by reflexivity.
    rewrite (run_bind_eq _ _ _ _ _ (headlines_nonempty_array P _ _ Hl)).
    replace (Nat.eqb (List.length l) 0) with false
      by (destruct l; [now elim Hne | reflexivity]).
    cbn [negb when]. unfold mbind, M_bind. rewrite Er.
    destruct r as [[]|e']; reflexivity. }
  rewrite Hrun. cbn [fst snd]. split.
  - destruct r as [[]|e']; [left; reflexivity | right; eauto].
  - exists l. split; [congruence | exact Hne].
Qed.
End TextWithLines.

Section PlainLines.
Context (P : Platform) (W : World).


End PlainLines.

(** ** The age of a headline *)

Section TimeAgo.
Context (P : Platform) (W : World).

(** X15. The age shown beside a headline, for a difference of [d]
    milliseconds: [now] below one minute, a future timestamp included; then
    whole minutes from 1 to 59, whole hours from 1 to 23, and whole days
    from 1 on. *)
Theorem timeAgo_units d :
  (d < 60000 -> timeAgo P (Num d) = "now") /\
  (60000 <= d < 3600000 ->
     exists m, 1 <= m <= 59 /\ 60000 * m <= d < 60000 * (m + 1) /\
               timeAgo P (Num d) = str_of_num P m +:+ "m ago") /\
  (3600000 <= d < 86400000 ->
     exists h, 1 <= h <= 23 /\ 3600000 * h <= d < 3600000 * (h + 1) /\
               timeAgo P (Num d) = str_of_num P h +:+ "h ago") /\
  (86400000 <= d ->
     exists n, 1 <= n /\ 86400000 * n <= d < 86400000 * (n + 1) /\
               timeAgo P (Num d) = str_of_num P n +:+ "d ago").
Proof.
  unfold timeAgo. cbv zeta.
  pose proof (Z.div_mod d 60000 ltac:(lia)) as Hm.
  pose proof (Z.mod_pos_bound d 60000 ltac:(lia)) as Hm'.
  pose proof (Z.div_mod d 3600000 ltac:(lia)) as Hh.
  pose proof (Z.mod_pos_bound d 3600000 ltac:(lia)) as Hh'.
  pose proof (Z.div_mod d 86400000 ltac:(lia)) as Hd.
  pose proof (Z.mod_pos_bound d 86400000 ltac:(lia)) as Hd'.
  repeat split.
  - intros H. destruct (Z.ltb_spec (d / 60000) 1); [reflexivity | lia].
  - intros H. exists (d / 60000).
    destruct (Z.ltb_spec (d / 60000) 1); [lia|].
    destruct (Z.ltb_spec (d / 60000) 60); [|lia].
    repeat split; lia.
  - intros H. exists (d / 3600000).
    destruct (Z.ltb_spec (d / 60000) 1); [lia|].
    destruct (Z.ltb_spec (d / 60000) 60); [lia|].
    destruct (Z.ltb_spec (d / 3600000) 24); [|lia].
    repeat split; lia.
  - intros H. exists (d / 86400000).
    destruct (Z.ltb_spec (d / 60000) 1); [lia|].
    destruct (Z.ltb_spec (d / 60000) 60); [lia|].
    destruct (Z.ltb_spec (d / 3600000) 24); [lia|].
    repeat split; lia.
Qed.

(** X16. A headline without a [ts] field (the remote stage does not add
    one) is rendered with the age [NaNd ago] and the timestamp attribute
    [undefined]. *)
Theorem missing_ts_shows_NaN i h s el s' :
  render_element P W i h s = (Ok el, s') ->
  get h "ts" = Ok None ->
  news_time el = "NaNd ago" /\ data_timestamp el = "undefined".
Proof.
  intros H Hts. unfold render_element in H. run_Ok H.
  match goal with
  | Hf : formatTimeAgo _ _ _ _ = _ |- _ => unfold formatTimeAgo in Hf; run_Ok Hf
  end.
  run_prims. rewrite Hts in *. simplify_eq. cbn in *. simplify_eq.
  split; reflexivity.
Qed.
End TimeAgo.

(** ** Cache entries that [saveToCache] did not write *)

Section ForeignEntries.
Context (P : Platform) (W : World).

(** X17. An entry that is not JSON, or is the JSON [null], is ignored and
    stays in the store: the read changes nothing but the event counter. *)
Theorem unreadable_entry_is_kept s t :
  localStorage s !! cacheKey (currentService s) = Some t ->
  JSON_parse t = Throw SyntaxError \/ t = Text JNull ->
  exists n, loadFromCache P W s = (Ok tt, advance n s).
Proof.
  intros Hget Ht.
  unfold loadFromCache, try_catch, mbind, M_bind, gets, getItem, lift, Date_now.
  cbn. destruct (storage_fault W (tick s)); [exists 1%nat; reflexivity|].
  rewrite Hget. destruct Ht as [Ht | ->].
  - destruct t as [v|j]; [discriminate Ht|]. cbn.
    destruct (negb (String.eqb j "")); exists 1%nat; reflexivity.
  - cbn. exists 2%nat. reflexivity.
Qed.

(** X18. An entry that is JSON but has no [timestamp] is never fresh: the
    read deletes it and leaves [headlines] as it was. *)
Theorem entry_without_timestamp_is_deleted s v :
  localStorage s !! cacheKey (currentService s) = Some (Text v) ->
  get v "timestamp" = Ok None ->
  storage_fault W (tick s) = false ->
  storage_fault W (S (S (tick s))) = false ->
  exists s',
    loadFromCache P W s = (Ok tt, s') /\
    headlines s' = headlines s /\ tickerList s' = tickerList s /\
    localStorage s' = delete (cacheKey (currentService s)) (localStorage s).
Proof.
  intros Hget Hstamp Hf Hf2.
  unfold loadFromCache, try_catch, mbind, M_bind, gets, getItem, lift, Date_now,
    removeItem.
  cbn. rewrite Hf, Hget. cbn. rewrite Hstamp. cbn. rewrite Hf2.
  eexists. split; [reflexivity|]. repeat split.
Qed.
End ForeignEntries.

(** * The service button *)

Lemma serviceCycle_entry i :
  (i < 6)%nat -> exists e, nth_error serviceCycle i = Some e.
Proof.
  intros Hi. destruct (nth_error serviceCycle i) as [e|] eqn:E; [eauto|].
  apply nth_error_None in E. cbn in E. lia.
Qed.

Section ButtonFacts.
Context (P : Platform) (W : World).

Lemma loadHeadlines_service s :
  currentService (snd (loadHeadlines P W s)) = currentService s.
Proof.
  destruct (loadHeadlines P W s) as [r s'] eqn:E.
  apply (loadHeadlines_steps P W (kept currentService)) in E; steps_side. exact E.
Qed.

(** A switch from a ticker on which none is in progress. *)
Lemma cycleToNextService_idle w :
  isLoading w = false ->
  exists e,
    nth_error serviceCycle ((currentServiceIndex w + 1) mod 6) = Some e /\
    let s0 := set_currentService (entry_service e)
                (set_tickerList [] (set_headlines (JArr []) (core w))) in
    cycleToNextService P W w =
      (Ok tt,
       {| core := snd (loadHeadlines P W s0);
          currentServiceIndex := (currentServiceIndex w + 1) mod 6;
          isLoading := false;
          page := {| textContent := label e; loading := false;
                     button_border := button_border (page w);
                     hidden := hidden (page w);
                     background := background (page w);
                     border := border (page w) |} |}).
Proof.
  intros Hidle.
  destruct (serviceCycle_entry ((currentServiceIndex w + 1) mod 6)) as [e He].
  { apply Nat.mod_upper_bound. discriminate. }
  exists e. split; [exact He|]. cbv zeta.
  unfold cycleToNextService, cycle_begin. rewrite Hidle.
  change (List.length serviceCycle) with 6%nat. rewrite He.
  cbn [with_core core currentServiceIndex isLoading page].
  destruct (fst (loadHeadlines P W _)); reflexivity.
Qed.

(** X19. A switch started while none is in progress moves to the next
    entry of the cycle, the first one after the last, and ends with the
    button showing the label of that entry and the loading state cleared,
    whatever the outcome of the resolution, an exception included; the
    resolution runs for the service it switched to. *)
Theorem switch_moves_to_next_service w :
  isLoading w = false ->
  exists e,
    nth_error serviceCycle ((currentServiceIndex w + 1) mod 6) = Some e /\
    fst (cycleToNextService P W w) = Ok tt /\
    let w' := snd (cycleToNextService P W w) in
    currentServiceIndex w' = ((currentServiceIndex w + 1) mod 6)%nat /\
    currentService (core w') = entry_service e /\
    textContent (page w') = label e /\
    isLoading w' = false /\ loading (page w') = false.
Proof.
  intros Hidle. destruct (cycleToNextService_idle w Hidle) as (e & He & Hrun).
  exists e. split; [exact He|]. cbv zeta in *. rewrite Hrun. cbn.
  repeat split. apply loadHeadlines_service.
Qed.

Lemma cycles_index n : forall w,
  isLoading w = false ->
  currentServiceIndex (cycles P W n w) = ((currentServiceIndex w + n) mod 6)%nat \/
  (n = 0%nat /\ cycles P W n w = w).
Proof.
  induction n as [|n IH]; intros w Hidle; [right; split; reflexivity|].
  left. cbn [cycles].
  destruct (cycleToNextService_idle w Hidle) as (e & He & Hrun).
  cbv zeta in Hrun. rewrite Hrun. cbn [snd].
  match goal with
  | |- currentServiceIndex (cycles P W n ?w1) = _ =>
      destruct (IH w1 eq_refl) as [-> | [-> ->]]; cbn [currentServiceIndex cycles]
  end.
  - rewrite Nat.Div0.add_mod_idemp_l. f_equal; lia.
  - f_equal; lia.
Qed.

(** X20. [n] switches in a row move the index [n] entries along the cycle:
    six of them lead back to the entry the ticker was on. *)
Theorem six_switches_come_back w :
  isLoading w = false ->
  (currentServiceIndex w < 6)%nat ->
  (forall n, currentServiceIndex (cycles P W n w)
             = ((currentServiceIndex w + n) mod 6)%nat) /\
  currentServiceIndex (cycles P W 6 w) = currentServiceIndex w.
Proof.
  intros Hidle Hi.
  assert (Hn : forall n, currentServiceIndex (cycles P W n w)
                         = ((currentServiceIndex w + n) mod 6)%nat).
  { intros n. destruct (cycles_index n w Hidle) as [H | [-> ->]]; [exact H|].
    rewrite Nat.add_0_r. symmetry. apply Nat.mod_small. exact Hi. }
  split; [exact Hn|]. rewrite Hn.
  replace (currentServiceIndex w + 6)%nat with (currentServiceIndex w + 1 * 6)%nat by lia.
  rewrite Nat.Div0.mod_add. apply Nat.mod_small. exact Hi.
Qed.

(** X21. While a switch is in progress, from the first statements of
    [cycleToNextService] to the handler that settles it, a click, a double
    click and a further call of [cycleToNextService] change nothing. *)
Theorem clicks_ignored_while_switching w e w1 :
  cycle_begin w = (Ok (Some e), w1) ->
  isLoading w1 = true /\
  on_click P W w1 = (Ok tt, w1) /\
  on_dblclick w1 = (Ok tt, w1) /\
  cycleToNextService P W w1 = (Ok tt, w1) /\
  isLoading (cycle_settle e w1) = false.
Proof.
  unfold cycle_begin. destruct (isLoading w) eqn:Hl; [discriminate|].
  destruct (nth_error serviceCycle _) as [e0|]; [|discriminate].
  intros [= <- <-].
  unfold on_click, on_dblclick, cycleToNextService, cycle_begin. cbn.
  repeat split.
Qed.

(** X22. [toggleTickerVisibility] on a ticker whose content is visible,
    with the label of the current entry on the button and no inline
    style, hides the content and puts the outbox on the button without
    touching the list, the service, the index or the loading state. A
    second call gives back the ticker as it was; so does a click on the
    button while no switch is in progress, which starts no switch. *)
Theorem hide_then_show_restores w e :
  nth_error serviceCycle (currentServiceIndex w) = Some e ->
  textContent (page w) = label e ->
  hidden (page w) = false ->
  button_border (page w) = "" -> background (page w) = "" -> border (page w) = "" ->
  let wh := snd (toggleTickerVisibility w) in
  fst (toggleTickerVisibility w) = Ok tt /\
  hidden (page wh) = true /\ textContent (page wh) = "📤" /\
  core wh = core w /\ currentServiceIndex wh = currentServiceIndex w /\
  isLoading wh = isLoading w /\
  toggleTickerVisibility wh = (Ok tt, w) /\
  (isLoading w = false -> on_click P W wh = (Ok tt, w)).
Proof.
  intros He Htext Hvis Hbb Hbg Hb. cbv zeta.
  destruct w as [s i l [t ld bb h bg b]].
  cbn [page hidden isLoading textContent button_border background border
       currentServiceIndex] in *.
  subst.
  unfold on_click, toggleTickerVisibility.
  cbn [fst snd page hidden isLoading core currentServiceIndex loading textContent].
  rewrite He. repeat split. intros ->. reflexivity.
Qed.

(** The elements of a ticker whose list has just been emptied. *)
Lemma rendered_for_emptied svc s h :
  rendered_for svc (set_currentService svc (set_tickerList [] (set_headlines h s))).
Proof. constructor. Qed.

Lemma loadHeadlines_rendered_for s :
  rendered_for (currentService s) s ->
  rendered_for (currentService (snd (loadHeadlines P W s))) (snd (loadHeadlines P W s)).
Proof.
  intros Hall. destruct (loadHeadlines P W s) as [r s'] eqn:E. cbn [snd].
  apply (loadHeadlines_shows_only P W (currentService s)) in E.
  destruct (E eq_refl) as [-> Hkeep]. exact (Hkeep Hall).
Qed.

Lemma handle_settled ev w : settled w -> settled (handle P W ev w).
Proof.
  intros (e & He & Hsvc & Hidle & Htext & Hall).
  destruct ev; cbn [handle].
  - unfold on_click. rewrite Hidle. destruct (hidden (page w)) eqn:Hh.
    + unfold toggleTickerVisibility. rewrite Hh, He. cbn.
      exists e. repeat split; assumption.
    + destruct (cycleToNextService_idle w Hidle) as (e' & He' & Hrun).
      cbv zeta in Hrun. rewrite Hrun. cbn [snd].
      exists e'. cbn [currentServiceIndex core isLoading page textContent hidden].
      rewrite loadHeadlines_service. rewrite Hh.
      split; [exact He'|]. split; [reflexivity|]. split; [reflexivity|].
      split; [reflexivity|].
      rewrite <- (loadHeadlines_service
                    (set_currentService (entry_service e')
                       (set_tickerList [] (set_headlines (JArr []) (core w))))).
      apply loadHeadlines_rendered_for. constructor.
  - unfold on_dblclick. rewrite Hidle. cbn [negb].
    unfold toggleTickerVisibility. destruct (hidden (page w)) eqn:Hh.
    + rewrite He. cbn. exists e. repeat split; assumption.
    + cbn. exists e. repeat split; assumption.
  - unfold refresh, with_core. cbn [snd].
    exists e. cbn [currentServiceIndex core isLoading page].
    rewrite loadHeadlines_service. repeat split; try assumption.
    rewrite <- (loadHeadlines_service
                  (set_tickerList [] (set_headlines (JArr []) (core w)))).
    apply loadHeadlines_rendered_for. constructor.
  - unfold reload, with_core. cbn [snd].
    exists e. cbn [currentServiceIndex core isLoading page].
    rewrite loadHeadlines_service. repeat split; try assumption.
    rewrite <- (loadHeadlines_service (core w)).
    apply loadHeadlines_rendered_for. exact Hall.
Qed.

(** X23. After any sequence of clicks, double clicks, refreshes and
    periodic reloads, each handled once the one before has settled, the
    button and the ticker agree: the index names the entry of the current
    service, the button shows its label (or the outbox while the ticker is
    hidden), no switch is in progress, and every element shown carries the
    current service. *)
Theorem button_and_ticker_agree s evs :
  tickerList s = [] ->
  settled (handle_all P W evs (setupServiceSelector s)).
Proof.
  intros Hlist.
  assert (H0 : settled (setupServiceSelector s)).
  { eexists. split; [reflexivity|]. cbn. repeat split.
    unfold rendered_for. cbn. rewrite Hlist. constructor. }
  revert H0. generalize (setupServiceSelector s).
  unfold handle_all. induction evs as [|ev evs IH]; intros w Hw; [exact Hw|].
  cbn [fold_left]. apply IH. apply handle_settled. exact Hw.
Qed.
End ButtonFacts.

Section RefreshFacts.
Context (P : Platform) (W : World).

(** X24. With no reachable network and no cache entry for the service,
    [refresh] leaves the ticker empty: it clears the list before the
    resolution, whose outcome is Empty, whereas the periodic reload leaves
    what was shown. *)
Theorem refresh_without_network_blanks w :
  unreachable W ->
  localStorage (core w) !! cacheKey (currentService (core w)) = None ->
  fst (refresh P W w) = Ok Empty /\
  tickerList (core (snd (refresh P W w))) = [] /\
  headlines (core (snd (refresh P W w))) = JArr [] /\
  tickerList (core (snd (reload P W w))) = tickerList (core w).
Proof.
  intros Hnet Hget.
  assert (Hrun : forall s,
    localStorage s !! cacheKey (currentService s) = None ->
    exists s', loadHeadlines P W s = (Ok Empty, s') /\
               tickerList s' = tickerList s /\ headlines s' = JArr []).
  { intros s Hs. unfold loadHeadlines, try_catch.
    destruct (load_remote_unreachable P W Hnet s) as [e ->].
    destruct (recover_unreachable P W Hnet (next_tick (set_headlines (JArr []) s)))
      as (n & _ & ->).
    cbn [when].
    erewrite run_bind_eq by (apply loadFromCache_miss; exact Hs).
    erewrite run_bind_eq by (apply (headlines_nonempty_array _ _ []); reflexivity).
    eexists. split; [reflexivity|]. split; reflexivity. }
  unfold refresh, reload, with_core. cbn [fst snd core].
  destruct (Hrun (set_tickerList [] (set_headlines (JArr []) (core w))) Hget)
    as (s1 & -> & Hl1 & Hh1).
  destruct (Hrun (core w) Hget) as (s2 & -> & Hl2 & _).
  cbn [fst snd]. repeat split; assumption.
Qed.
End RefreshFacts.

(** * The video glue file *)

Section VideoLogger.
Import Video.

Lemma log_silent now lv msg g :
  LOG_LEVELS lv > currentLogLevel -> log now lv msg g = g.
Proof.
  intros H. unfold log.
  destruct (Z.leb_spec (LOG_LEVELS lv) currentLogLevel) as [Hle|_]; [lia | reflexivity].
Qed.

(** X25. At the level the file sets ([WARN]), calls of [logger.info] and
    [logger.debug] print nothing and do not count against the rate limit:
    a run of the logger is the run of its other events. *)
Theorem info_and_debug_are_silent evs g :
  log_run evs g = log_run (List.filter audible evs) g.
Proof.
  unfold log_run. revert g.
  induction evs as [|ev evs IH]; intros g; [reflexivity|].
  cbn [List.filter fold_left].
  destruct ev as [now [] msg|]; cbn [audible fold_left log_step];
    try rewrite log_silent by (cbn; lia); apply IH.
Qed.



Lemma log_run_apart evs : forall g,
  apart (console g) ->
  match console g with c :: _ => at_time c = lastLogTime g | [] => True end ->
  apart (console (log_run evs g)) /\
  match console (log_run evs g) with
  | c :: _ => at_time c = lastLogTime (log_run evs g)
  | [] => True
  end.
Proof.
  unfold log_run.
  induction evs as [|ev evs IH]; intros g Ha Hlast; cbn [fold_left]; [auto|].
  apply IH; destruct ev as [now lv msg|]; cbn [log_step]; try assumption.
  - unfold log. destruct (_ && _ && _) eqn:E; [|assumption].
    apply andb_prop in E as [_ E]. apply Z.geb_le in E.
    cbn [console apart at_time]. split; [|exact Ha].
    destruct (console g) as [|c rest]; [exact I|]. rewrite Hlast. lia.
  - unfold log. destruct (_ && _ && _); [reflexivity | assumption].
Qed.

Lemma log_run_levels evs : forall g,
  Forall (fun c => call_level c = ERROR \/ call_level c = WARN) (console g) ->
  Forall (fun c => call_level c = ERROR \/ call_level c = WARN)
         (console (log_run evs g)).
Proof.
  unfold log_run.
  induction evs as [|ev evs IH]; intros g Hg; cbn [fold_left]; [exact Hg|].
  apply IH. destruct ev as [now lv msg|]; cbn [log_step]; [|exact Hg].
  unfold log. destruct (_ && _ && _) eqn:E; [|exact Hg].
  apply andb_prop in E as [E _]. apply andb_prop in E as [E _].
  apply Z.leb_le in E. constructor; [|exact Hg].
  destruct lv; cbn in *; auto; lia.
Qed.

(** X27. Two messages that the logger prints one after the other were
    requested at least 200 ms apart, and every message it prints is at the
    level [ERROR] or [WARN]. *)
Theorem logs_are_spaced evs :
  apart (console (log_run evs loaded)) /\
  Forall (fun c => call_level c = ERROR \/ call_level c = WARN)
         (console (log_run evs loaded)).
Proof.
  split; [apply (log_run_apart evs loaded); exact I|].
  apply log_run_levels. constructor.
Qed.
End VideoLogger.

Section ForceClose.
Import Video.

Lemma close_style_idem st : close_style (close_style st) = close_style st.
Proof.
  unfold close_style. apply map_eq. intros k.
  destruct (decide (k = "zIndex")) as [->|Hz];
    [rewrite !lookup_insert_eq; reflexivity|].
  destruct (decide (k = "pointerEvents")) as [->|Hp];
    [repeat first [rewrite lookup_insert_eq | rewrite lookup_insert_ne by congruence];
     reflexivity|].
  destruct (decide (k = "display")) as [->|Hd];
    repeat first [rewrite lookup_insert_eq | rewrite lookup_insert_ne by congruence];
    reflexivity.
Qed.

Lemma close_element_lookup dom id k :
  close_element dom id !! k =
    if decide (k = id) then close_style <$> dom !! k else dom !! k.
Proof.
  unfold close_element. destruct (decide (k = id)) as [->|Hk].
  - destruct (dom !! id) as [st|] eqn:E; [apply lookup_insert_eq | now rewrite E].
  - destruct (dom !! id); [apply lookup_insert_ne; congruence | reflexivity].
Qed.

Lemma close_elements_lookup ids : forall dom k,
  fold_left close_element ids dom !! k =
    if decide (k ∈ ids) then close_style <$> dom !! k else dom !! k.
Proof.
  induction ids as [|id ids IH]; intros dom k; cbn [fold_left].
  - destruct (decide (k ∈ [])) as [H|_]; [inversion H | reflexivity].
  - rewrite IH, close_element_lookup.
    destruct (decide (k = id)) as [->|Hk].
    + destruct (decide (id ∈ ids)), (decide (id ∈ id :: ids)) as [|Hn];
        try (elim Hn; left);
        destruct (dom !! id); cbn; try rewrite close_style_idem; reflexivity.
    + destruct (decide (k ∈ ids)) as [Hin|Hin], (decide (k ∈ id :: ids)) as [Hin'|Hin'];
        try reflexivity.
      * elim Hin'. now right.
      * apply elem_of_cons in Hin' as [->|?]; contradiction.
Qed.


(** X29. Closing twice is closing once. *)
Theorem forceCloseVideo_idempotent now now' d :
  forceCloseVideo now' (forceCloseVideo now d) = forceCloseVideo now d.
Proof.
  unfold forceCloseVideo.
  cbn [getElementById videoIsPlaying videoPlaylistVisible videoPlayerFirstOpen videoLogger].
  unfold logger_info. rewrite !log_silent by (cbn; lia).
  f_equal.
  - apply map_eq. intros k. rewrite !close_elements_lookup.
    destruct (decide (k ∈ video_elements)); [|reflexivity].
    destruct (getElementById d !! k); cbn; [rewrite close_style_idem|]; reflexivity.
  - destruct (videoPlayerFirstOpen d); reflexivity.
Qed.
End ForceClose.

(** * The further theorems at work *)

Section MoreWitnesses.
Import Scenario Examples.

Lemma unreachable_offline_world : unreachable offline_world.
Proof. intros k url. exact I. Qed.

Lemma other_services_cache_untouched_witness :
  let s := cached sports (JArr [headline_A]) 0
             (set_headlines (JArr [tweet_headline 5]) (fresh_ticker tweets)) in
  localStorage s !! cacheKey sports = Some (Text (cache_entry (JArr [headline_A]) 0)) /\
  localStorage (snd (saveToCache tweets_fallback_world s)) !! cacheKey sports
    = localStorage s !! cacheKey sports /\
  localStorage (snd (renderHeadlines engine tweets_fallback_world s)) !! cacheKey sports
    = localStorage s !! cacheKey sports /\
  localStorage (snd (loadFromCache engine tweets_fallback_world s)) !! cacheKey sports
    = localStorage s !! cacheKey sports /\
  localStorage (snd (loadHeadlines engine tweets_fallback_world s)) !! cacheKey sports
    = localStorage s !! cacheKey sports.
Proof.
  cbv zeta. split; [vm_compute; reflexivity|].
  apply (other_services_cache_untouched engine tweets_fallback_world _ sports).
  discriminate.
Defined.

Lemma unreachable_without_entry_is_Empty_witness :
  exists s',
    loadHeadlines engine offline_world (fresh_ticker news) = (Ok Empty, s') /\
    headlines s' = JArr [] /\ offlineMode s' = true /\
    tickerList s' = [] /\ currentPosition s' = 0 /\
    localStorage s' = ∅ /\ lastUpdate s' = 0.
Proof.
  apply (unreachable_without_entry_is_Empty engine offline_world
           unreachable_offline_world (fresh_ticker news)).
  reflexivity.
Defined.

Lemma unreachable_with_expired_entry_is_Empty_witness :
  let s := cached news (JArr [headline_A]) 0 (fresh_ticker news) in
  exists s',
    loadHeadlines engine offline_world s = (Ok Empty, s') /\
    headlines s' = JArr [] /\ offlineMode s' = true /\
    tickerList s' = tickerList s /\
    localStorage s' = delete (cacheKey (currentService s)) (localStorage s).
Proof.
  cbv zeta.
  apply (unreachable_with_expired_entry_is_Empty engine offline_world
           unreachable_offline_world _ (JArr [headline_A]) 0).
  - vm_compute. reflexivity.
  - intros k. reflexivity.
  - intros k Hk. cbn. unfold clock_from. lia.
Defined.

Lemma unreachable_with_fresh_entry_is_Cache_witness :
  let s := cached news (JArr [headline_A]) 1700000000000 (fresh_ticker news) in
  exists s',
    loadHeadlines engine offline_world s = (Ok Cache, s') /\
    offlineMode s' = true /\
    holds (cacheKey (currentService s)) [headline_A] s'.
Proof.
  cbv zeta.
  apply (unreachable_with_fresh_entry_is_Cache engine offline_world
           unreachable_offline_world _ [headline_A] 1700000000000).
  - vm_compute. reflexivity.
  - discriminate.
  - repeat constructor.
  - intros k. reflexivity.
  - intros k Hk. cbn in *. unfold clock_from. lia.
Defined.

Lemma empty_remote_feed_keeps_display_witness :
  exists s',
    loadHeadlines engine empty_feed_world (fresh_ticker news) = (Ok Remote, s') /\
    headlines s' = JArr [] /\ offlineMode s' = false /\
    tickerList s' = tickerList (fresh_ticker news) /\
    localStorage s' = localStorage (fresh_ticker news) /\
    lastUpdate s' = clock empty_feed_world 1.
Proof.
  apply (empty_remote_feed_keeps_display engine empty_feed_world (fresh_ticker news)
           (json_response (JArr []))); reflexivity.
Defined.

Lemma remote_list_is_cached_witness :
  let s := fresh_ticker sports in
  let s' := snd (loadHeadlines engine sports_world s) in
  exists k,
    (tick s < k)%nat /\ tick s' = S (S (S k)) /\
    lastUpdate s' = clock sports_world (S (S k)) /\
    (storage_fault sports_world (S k) = false ->
     localStorage s' !! cacheKey (currentService s)
       = Some (Text (cache_entry (JArr [headline_B; headline_A]) (clock sports_world k)))).
Proof.
  cbv zeta.
  apply (remote_list_is_cached engine sports_world (fresh_ticker sports)).
  - vm_compute. reflexivity.
  - vm_compute. reflexivity.
  - discriminate.
Defined.

Lemma lastUpdate_changes_only_on_Remote_witness :
  lastUpdate (snd (loadHeadlines engine offline_world (fresh_ticker news)))
  = lastUpdate (fresh_ticker news).
Proof.
  apply (lastUpdate_changes_only_on_Remote engine offline_world (fresh_ticker news)).
  vm_compute. discriminate.
Defined.


Lemma failed_render_blanks_ticker_witness :
  let s := set_headlines (JArr [headline_A; JNull]) (fresh_ticker news) in
  let s' := snd (renderHeadlines engine offline_world s) in
  tickerList s' = [] /\ localStorage s' = localStorage s /\
  currentPosition s' = currentPosition s /\ headlines s' = JArr [headline_A; JNull].
Proof.
  cbv zeta.
  apply (failed_render_blanks_ticker engine offline_world
           (set_headlines (JArr [headline_A; JNull]) (fresh_ticker news)) TypeError).
  - vm_compute. reflexivity.
  - reflexivity.
Defined.

Lemma elements_carry_current_service_witness :
  let s := fresh_ticker tweets in
  let s' := snd (loadHeadlines engine tweets_fallback_world s) in
  List.length (tickerList s') = 2%nat /\
  rendered_for tweets s' /\ currentService s' = tweets.
Proof.
  cbv zeta. split; [vm_compute; reflexivity|].
  apply (elements_carry_current_service engine tweets_fallback_world
           (fresh_ticker tweets)).
  constructor.
Defined.

Lemma fallback_lines_line_by_line_witness :
  fallback_lines "  # note  " = [] /\
  fallback_lines "  Road closed  " = ["Road closed"] /\
  fallback_lines ("  # note  " +:+ String newline "  Road closed  ")
    = (fallback_lines "  # note  " ++ fallback_lines "  Road closed  ")%list.
Proof.
  split; [|split].
  - apply (proj2 fallback_lines_line_by_line "  # note  ").
    vm_compute. intros H. repeat destruct H as [H|H]; try discriminate H. exact H.
  - apply (proj2 fallback_lines_line_by_line "  Road closed  ").
    vm_compute. intros H. repeat destruct H as [H|H]; try discriminate H. exact H.
  - apply (proj1 fallback_lines_line_by_line).
Defined.

Lemma fallback_line_tokens_witness :
  let l := "Road closed" in
  split_ws l <> [] /\
  Forall (fun tok => tok <> "" /\ has_space tok = false) (split_ws l).
Proof.
  cbv zeta. apply (fallback_line_tokens local_text).
  vm_compute. left. reflexivity.
Defined.

Lemma served_text_skips_cache_witness :
  let run := loadHeadlines engine tweets_fallback_world (fresh_ticker tweets) in
  (fst run = Ok Fallback \/ exists e', fst run = Throw e') /\
  exists l, headlines (snd run) = JArr l /\ l <> [].
Proof.
  cbv zeta.
  refine (served_text_skips_cache engine tweets_fallback_world (fresh_ticker tweets)
            NetworkError
            (snd (load_remote engine tweets_fallback_world (fresh_ticker tweets)))
            (text_response tweets_text)
            (snd (fetch_fallback_txt tweets_fallback_world tweets
                    (set_headlines (JArr []) (set_offlineMode true
                       (snd (load_remote engine tweets_fallback_world
                               (fresh_ticker tweets)))))))
            tweets_text _ _ _ _ _ _);
    try reflexivity.
  all: first [discriminate | vm_compute; discriminate].
Defined.


Lemma timeAgo_units_witness :
  timeAgo engine (Num (-5)) = "now" /\
  (exists m, 1 <= m <= 59 /\ 60000 * m <= 90000 < 60000 * (m + 1) /\
             timeAgo engine (Num 90000) = str_of_num engine m +:+ "m ago") /\
  (exists h, 1 <= h <= 23 /\ 3600000 * h <= 3600000 < 3600000 * (h + 1) /\
             timeAgo engine (Num 3600000) = str_of_num engine h +:+ "h ago") /\
  (exists n, 1 <= n /\ 86400000 * n <= 86400000 < 86400000 * (n + 1) /\
             timeAgo engine (Num 86400000) = str_of_num engine n +:+ "d ago").
Proof.
  split; [apply (proj1 (timeAgo_units engine (-5))); lia|].
  split; [apply (proj1 (proj2 (timeAgo_units engine 90000))); lia|].
  split; [apply (proj1 (proj2 (proj2 (timeAgo_units engine 3600000)))); lia|].
  apply (proj2 (proj2 (proj2 (timeAgo_units engine 86400000)))). lia.
Defined.

Lemma missing_ts_shows_NaN_witness :
  exists el s',
    render_element engine offline_world 0 bare_headline (fresh_ticker news)
      = (Ok el, s') /\
    news_time el = "NaNd ago" /\ data_timestamp el = "undefined".
Proof.
  eexists _, _. split; [vm_compute; reflexivity|].
  eapply (missing_ts_shows_NaN engine offline_world 0 bare_headline (fresh_ticker news)).
  - vm_compute. reflexivity.
  - reflexivity.
Defined.

Lemma unreadable_entry_is_kept_witness :
  let s := stored news (Junk "{oops") (fresh_ticker news) in
  exists n, loadFromCache engine offline_world s = (Ok tt, advance n s).
Proof.
  cbv zeta.
  apply (unreadable_entry_is_kept engine offline_world _ (Junk "{oops")).
  - vm_compute. reflexivity.
  - left. reflexivity.
Defined.

Lemma entry_without_timestamp_is_deleted_witness :
  let s := stored news (Text (JObj [("headlines", JArr [headline_A])]))
             (fresh_ticker news) in
  exists s',
    loadFromCache engine offline_world s = (Ok tt, s') /\
    headlines s' = headlines s /\ tickerList s' = tickerList s /\
    localStorage s' = delete (cacheKey (currentService s)) (localStorage s).
Proof.
  cbv zeta.
  apply (entry_without_timestamp_is_deleted engine offline_world _
           (JObj [("headlines", JArr [headline_A])])).
  - vm_compute. reflexivity.
  - reflexivity.
  - reflexivity.
  - reflexivity.
Defined.

Lemma switch_moves_to_next_service_witness :
  exists e,
    nth_error serviceCycle ((currentServiceIndex fresh_widget + 1) mod 6) = Some e /\
    fst (cycleToNextService engine offline_world fresh_widget) = Ok tt /\
    let w' := snd (cycleToNextService engine offline_world fresh_widget) in
    currentServiceIndex w' = ((currentServiceIndex fresh_widget + 1) mod 6)%nat /\
    currentService (core w') = entry_service e /\
    textContent (page w') = label e /\
    isLoading w' = false /\ loading (page w') = false.
Proof.
  apply (switch_moves_to_next_service engine offline_world fresh_widget).
  reflexivity.
Defined.

Lemma six_switches_come_back_witness :
  (forall n, currentServiceIndex (cycles engine offline_world n fresh_widget)
             = ((currentServiceIndex fresh_widget + n) mod 6)%nat) /\
  currentServiceIndex (cycles engine offline_world 6 fresh_widget)
    = currentServiceIndex fresh_widget.
Proof.
  apply (six_switches_come_back engine offline_world fresh_widget).
  - reflexivity.
  - cbn. lia.
Defined.

Lemma clicks_ignored_while_switching_witness :
  let e := {| entry_service := local; label := "Local"; emoji := "🏠" |} in
  let w1 := snd (cycle_begin fresh_widget) in
  isLoading w1 = true /\
  on_click engine offline_world w1 = (Ok tt, w1) /\
  on_dblclick w1 = (Ok tt, w1) /\
  cycleToNextService engine offline_world w1 = (Ok tt, w1) /\
  isLoading (cycle_settle e w1) = false.
Proof.
  cbv zeta.
  apply (clicks_ignored_while_switching engine offline_world fresh_widget).
  reflexivity.
Defined.

Lemma hide_then_show_restores_witness :
  let wh := snd (toggleTickerVisibility fresh_widget) in
  hidden (page wh) = true /\ textContent (page wh) = "📤" /\
  core wh = core fresh_widget /\
  toggleTickerVisibility wh = (Ok tt, fresh_widget) /\
  on_click engine offline_world wh = (Ok tt, fresh_widget).
Proof.
  cbv zeta.
  destruct (hide_then_show_restores engine offline_world fresh_widget
              {| entry_service := sports; label := "Sports"; emoji := "⚽" |})
    as (_ & Hh & Ht & Hc & _ & _ & Htoggle & Hclick); try reflexivity.
  split; [exact Hh|]. split; [exact Ht|]. split; [exact Hc|].
  split; [exact Htoggle|]. apply Hclick. reflexivity.
Defined.

Lemma button_and_ticker_agree_witness :
  settled (handle_all engine tweets_fallback_world
             [Click; Click; Click; Click; DblClick; Reload; Click; Refresh]
             (setupServiceSelector (fresh_ticker news))).
Proof.
  apply (button_and_ticker_agree engine tweets_fallback_world (fresh_ticker news)).
  reflexivity.
Defined.

Lemma refresh_without_network_blanks_witness :
  let w := with_core (set_headlines (JArr [headline_A])
                        (snd (renderHeadlines engine offline_world
                                (set_headlines (JArr [headline_A]) (fresh_ticker news)))))
             fresh_widget in
  let w0 := with_core (set_localStorage ∅ (core w)) w in
  List.length (tickerList (core w0)) = 2%nat /\
  fst (refresh engine offline_world w0) = Ok Empty /\
  tickerList (core (snd (refresh engine offline_world w0))) = [] /\
  headlines (core (snd (refresh engine offline_world w0))) = JArr [] /\
  tickerList (core (snd (reload engine offline_world w0))) = tickerList (core w0).
Proof.
  cbv zeta. split; [vm_compute; reflexivity|].
  apply (refresh_without_network_blanks engine offline_world).
  - exact unreachable_offline_world.
  - vm_compute. reflexivity.
Defined.
End MoreWitnesses.
